(** * Sprite-Slicer: grid geometry, tile extraction and auto-detection

    A shallow embedding of [src/grid.ts] (class [GridCalculator]) and
    [src/slicer.ts] (class [SpriteSlicer]), with the part of the browser's
    canvas API these two classes call.

    Conventions of the embedding.
    - The numeric settings come from [parseInt(..) || default] in [ui.ts],
      and image sizes from decoded images: they are integer-valued doubles
      of moderate size, embedded as [Z].  Results of a division can be
      [Infinity], [-Infinity] or [NaN]; these live in [number].  Negative
      zero is identified with zero.
    - A canvas is an entry of the [document] store; [createCanvas] allocates
      a new entry, so that aliasing between canvases is visible.
    - The decoded content of an image and the content of a canvas are RGBA
      byte lists in row-major order, as [ImageData.data] shows them.  The
      store keeps for every canvas the bytes [getImageData] returns for it.
      A canvas holds its colours multiplied by alpha: a decoded image drawn
      on a canvas reads back through [on_canvas], which keeps alpha and
      rounds the colour of a pixel that is not fully opaque, while a canvas
      drawn on a cleared canvas reads back unchanged. *)

From Stdlib Require Import ZArith Lia List Bool String Ascii.
From stdpp Require Import base tactics option list list_numbers strings pretty.

Open Scope Z_scope.

(* ================================================================= *)
(** * JavaScript numbers *)

Module Num.

Inductive number : Type :=
| Fin (z : Z)
| PosInf
| NegInf
| NaN.

(** [Math.floor(a / b)] for integers [a] and [b]. *)
Definition floor_div (a b : Z) : number :=
  if b =? 0 then
    if 0 <? a then PosInf else if a <? 0 then NegInf else NaN
  else Fin (a / b).

(** [x * y] *)
Definition mul (x y : number) : number :=
  match x, y with
  | NaN, _ | _, NaN => NaN
  | Fin a, Fin b => Fin (a * b)
  | Fin a, PosInf | PosInf, Fin a =>
      if 0 <? a then PosInf else if a <? 0 then NegInf else NaN
  | Fin a, NegInf | NegInf, Fin a =>
      if 0 <? a then NegInf else if a <? 0 then PosInf else NaN
  | PosInf, PosInf | NegInf, NegInf => PosInf
  | PosInf, NegInf | NegInf, PosInf => NegInf
  end.

(** [x + y] *)
Definition add (x y : number) : number :=
  match x, y with
  | NaN, _ | _, NaN => NaN
  | Fin a, Fin b => Fin (a + b)
  | PosInf, NegInf | NegInf, PosInf => NaN
  | PosInf, _ | _, PosInf => PosInf
  | NegInf, _ | _, NegInf => NegInf
  end.

(** [Math.max(x, y)] *)
Definition max (x y : number) : number :=
  match x, y with
  | NaN, _ | _, NaN => NaN
  | PosInf, _ | _, PosInf => PosInf
  | NegInf, n | n, NegInf => n
  | Fin a, Fin b => Fin (Z.max a b)
  end.

(** [x < y] *)
Definition ltb (x y : number) : bool :=
  match x, y with
  | NaN, _ | _, NaN => false
  | Fin a, Fin b => a <? b
  | _, NegInf | PosInf, _ => false
  | NegInf, _ | _, PosInf => true
  end.

End Num.

Export Num (number, Fin, PosInf, NegInf, NaN).

(* ================================================================= *)
(** * types.d.ts *)

Record TileSettings : Type := mkTileSettings {
  tileWidth : Z;
  tileHeight : Z;
  margin : Z;
  spacing : Z;
  offsetX : Z;
  offsetY : Z;
  trimTransparent : bool;
  preservePadding : Z
}.

Record ImageMetadata : Type := mkImageMetadata {
  width : Z;
  height : Z;
  hasAlpha : bool
}.

Record GridInfo : Type := mkGridInfo {
  rows : number;
  cols : number;
  totalTiles : number
}.

(** [HTMLCanvasElement] references are indices into the [document] store. *)
Definition canvas_id : Type := nat.

Record TileData : Type := mkTileData {
  canvas : canvas_id;
  row : Z;
  col : Z;
  index : number;
  isEmpty : bool
}.

(** [Partial<TileSettings>] as [tryDetectGrid] fills it. *)
Record DetectedSettings : Type := mkDetected {
  d_tileWidth : Z;
  d_tileHeight : Z;
  d_margin : Z;
  d_spacing : Z;
  d_offsetX : Z;
  d_offsetY : Z
}.

(* ================================================================= *)
(** * grid.ts: GridCalculator.calculateGrid and validateSettings *)

Definition calculateGrid (settings : TileSettings) (imageMetadata : ImageMetadata)
  : GridInfo :=
  let availableWidth := width imageMetadata - margin settings * 2 - offsetX settings in
  let availableHeight := height imageMetadata - margin settings * 2 - offsetY settings in
  let cols := Num.floor_div (availableWidth + spacing settings)
                            (tileWidth settings + spacing settings) in
  let rows := Num.floor_div (availableHeight + spacing settings)
                            (tileHeight settings + spacing settings) in
  {| rows := Num.max (Fin 0) rows;
     cols := Num.max (Fin 0) cols;
     totalTiles := Num.max (Fin 0) (Num.mul rows cols) |}.

(** [if (c) errors.push(msg)] *)
Definition push_if (c : bool) (msg : string) (errors : list string) : list string :=
  if c then errors ++ [msg] else errors.

Definition msg_tileWidth : string := "Tile width must be greater than 0".
Definition msg_tileHeight : string := "Tile height must be greater than 0".
Definition msg_margin : string := "Margin cannot be negative".
Definition msg_spacing : string := "Spacing cannot be negative".
Definition msg_offsetX : string := "Offset X cannot be negative".
Definition msg_offsetY : string := "Offset Y cannot be negative".

Definition msg_width (width minRequiredWidth : Z) : string :=
  "Image width (" +:+ pretty width
    +:+ "px) is too small for current settings (requires at least "
    +:+ pretty minRequiredWidth +:+ "px)".

Definition msg_height (height minRequiredHeight : Z) : string :=
  "Image height (" +:+ pretty height
    +:+ "px) is too small for current settings (requires at least "
    +:+ pretty minRequiredHeight +:+ "px)".

Definition validateSettings (settings : TileSettings) (imageMetadata : ImageMetadata)
  : list string :=
  let errors := [] in
  let errors := push_if (tileWidth settings <=? 0) msg_tileWidth errors in
  let errors := push_if (tileHeight settings <=? 0) msg_tileHeight errors in
  let errors := push_if (margin settings <? 0) msg_margin errors in
  let errors := push_if (spacing settings <? 0) msg_spacing errors in
  let errors := push_if (offsetX settings <? 0) msg_offsetX errors in
  let errors := push_if (offsetY settings <? 0) msg_offsetY errors in
  let minRequiredWidth := margin settings * 2 + offsetX settings + tileWidth settings in
  let minRequiredHeight := margin settings * 2 + offsetY settings + tileHeight settings in
  let errors := push_if (width imageMetadata <? minRequiredWidth)
                  (msg_width (width imageMetadata) minRequiredWidth) errors in
  let errors := push_if (height imageMetadata <? minRequiredHeight)
                  (msg_height (height imageMetadata) minRequiredHeight) errors in
  errors.

(** The feasibility conditions the messages stand for. *)
Definition feasible (settings : TileSettings) (imageMetadata : ImageMetadata) : Prop :=
  tileWidth settings > 0 /\ tileHeight settings > 0 /\
  margin settings >= 0 /\ spacing settings >= 0 /\
  offsetX settings >= 0 /\ offsetY settings >= 0 /\
  width imageMetadata >= 2 * margin settings + offsetX settings + tileWidth settings /\
  height imageMetadata >= 2 * margin settings + offsetY settings + tileHeight settings.

(* ================================================================= *)
(** * The canvas API used by the two classes *)

(** An RGBA raster: the content of a decoded image, the backing store of a
    canvas, or an [ImageData].  Byte [c] of pixel [(x, y)] is at index
    [(y * width + x) * 4 + c]. *)
Record bitmap : Type := Bitmap {
  bm_width : Z;
  bm_height : Z;
  bm_data : list Z
}.

(** [data[i]]: [None] is [undefined]. *)
Definition getByte (data : list Z) (i : Z) : option Z :=
  if i <? 0 then None else data !! Z.to_nat i.

(** [data[i] > k]; a comparison with [undefined] is false. *)
Definition byte_gt (data : list Z) (i k : Z) : bool :=
  match getByte data i with
  | Some v => k <? v
  | None => false
  end.

(** Byte [c] of pixel [(x, y)], 0 where the raster has no such byte. *)
Definition byte_at (b : bitmap) (x y c : Z) : Z :=
  default 0 (getByte (bm_data b) ((y * bm_width b + x) * 4 + c)).

(** Transparent black raster. *)
Definition blank (w h : Z) : bitmap :=
  Bitmap w h (replicate (Z.to_nat (4 * w * h)) 0).

Definition max_dim : Z := 2147483647.

(** Assigning [v] to [canvas.width] or [canvas.height]: the IDL attribute is
    an [unsigned long] reflecting a content attribute limited to
    [0 .. 2147483647]; a value outside that range stores the default. *)
Definition canvas_dim (default v : Z) : Z :=
  let n := v mod 4294967296 in
  if n <=? max_dim then n else default.

Definition in_range (lo hi x : Z) : bool := (lo <=? x) && (x <? hi).

(** [ctx.drawImage(src, sx, sy, sw, sh, dx, dy, dw, dh)] for the unscaled
    case [dw = sw], [dh = sh], the only one the program uses, with [src] the
    pixels of the source as a canvas holds them.  A destination pixel inside
    the destination rectangle whose source pixel exists takes the source
    pixel; the part of the source rectangle outside the source is not drawn.
    The destination is a canvas cleared just before in every call of the
    program, where source-over compositing stores the source pixel. *)
Definition paint (dst src : bitmap) (sx sy sw sh dx dy dw dh : Z) : bitmap :=
  let W := bm_width dst in
  Bitmap W (bm_height dst)
    (imap (fun (i : nat) (old : Z) =>
             let p := Z.of_nat i / 4 in
             let c := Z.of_nat i mod 4 in
             let x := p mod W in
             let y := p / W in
             let u := sx + (x - dx) in
             let v := sy + (y - dy) in
             if in_range (Z.min dx (dx + dw)) (Z.max dx (dx + dw)) x
                && in_range (Z.min dy (dy + dh)) (Z.max dy (dy + dh)) y
                && in_range 0 (bm_width src) u
                && in_range 0 (bm_height src) v
             then byte_at src u v c
             else old)
          (bm_data dst)).

(** ** Colours on a canvas

    A 2D canvas keeps the colour bytes of a pixel multiplied by its alpha,
    and [getImageData] divides them by alpha again.  The alpha byte is kept
    as it is; a colour byte comes back unchanged where alpha is 255, as 0
    where alpha is 0, and rounded in between.  The rounding is the
    implementation's; both steps round to the nearest integer here. *)

(** The colour byte [c] of a pixel of alpha [a] as the canvas keeps it:
    [c * a / 255] rounded. *)
Definition premultiply (c a : Z) : Z := (c * a + 127) / 255.

(** The colour byte [getImageData] returns for the kept byte [p]:
    [p * 255 / a] rounded, 0 for a transparent pixel. *)
Definition unpremultiply (p a : Z) : Z :=
  if a =? 0 then 0 else (2 * 255 * p + a) / (2 * a).

Definition canvas_colour (c a : Z) : Z := unpremultiply (premultiply c a) a.

(** A decoded image as a canvas on which it was drawn returns it: byte [i]
    belongs to pixel [i / 4], whose alpha is byte [i / 4 * 4 + 3]. *)
Definition on_canvas (image : bitmap) : bitmap :=
  Bitmap (bm_width image) (bm_height image)
    (imap (fun (i : nat) (v : Z) =>
             if Z.of_nat i mod 4 =? 3 then v
             else canvas_colour v
                    (default 0 (getByte (bm_data image) (Z.of_nat i / 4 * 4 + 3))))
          (bm_data image)).

(** The rectangle [(sx, sy, sw, sh)] of a canvas as an [ImageData], for
    [sw, sh > 0]; pixels outside the canvas are transparent black. *)
Definition image_data_of (cv : bitmap) (sx sy sw sh : Z) : bitmap :=
  Bitmap sw sh
    (map (fun (i : nat) =>
            let p := Z.of_nat i / 4 in
            let c := Z.of_nat i mod 4 in
            let x := sx + p mod sw in
            let y := sy + p / sw in
            if in_range 0 (bm_width cv) x && in_range 0 (bm_height cv) y
            then byte_at cv x y c
            else 0)
         (seq 0 (Z.to_nat (4 * sw * sh)))).

(** ** The document store and the effects of the API *)

Definition document : Type := list bitmap.

Inductive exn : Type :=
| IndexSizeError
| InvalidStateError
| TypeError.

Inductive result (A : Type) : Type :=
| Ok (a : A)
| Throws (e : exn)
| OutOfFuel.

Arguments Ok {A} a.
Arguments Throws {A} e.
Arguments OutOfFuel {A}.

Definition DOM (A : Type) : Type := document -> result (A * document).

Definition ret {A : Type} (a : A) : DOM A := fun d => Ok (a, d).

Definition bind {A B : Type} (m : DOM A) (k : A -> DOM B) : DOM B :=
  fun d =>
    match m d with
    | Ok (a, d') => k a d'
    | Throws e => Throws e
    | OutOfFuel => OutOfFuel
    end.

Definition throw {A : Type} (e : exn) : DOM A := fun _ => Throws e.

Notation "'let*' x ':=' c1 'in' c2" := (bind c1 (fun x => c2))
  (at level 10, x pattern, c1 at level 100, c2 at level 200).

(** [document.createElement('canvas')]: a new 300 x 150 transparent canvas. *)
Definition createCanvas : DOM canvas_id :=
  fun d => Ok (length d, d ++ [blank 300 150]).

(** Reading a canvas through its reference. *)
Definition readCanvas (c : canvas_id) : DOM bitmap :=
  fun d =>
    match d !! c with
    | Some cv => Ok (cv, d)
    | None => Throws TypeError
    end.

Definition writeCanvas (c : canvas_id) (cv : bitmap) : DOM unit :=
  fun d => Ok (tt, <[c := cv]> d).

(** [canvas.width = v]: resizes and clears the canvas. *)
Definition setWidth (c : canvas_id) (v : Z) : DOM unit :=
  let* cv := readCanvas c in
  writeCanvas c (blank (canvas_dim 300 v) (bm_height cv)).

(** [canvas.height = v] *)
Definition setHeight (c : canvas_id) (v : Z) : DOM unit :=
  let* cv := readCanvas c in
  writeCanvas c (blank (bm_width cv) (canvas_dim 150 v)).

(** [canvas.width] and [canvas.height] *)
Definition getWidth (c : canvas_id) : DOM Z :=
  let* cv := readCanvas c in ret (bm_width cv).

Definition getHeight (c : canvas_id) : DOM Z :=
  let* cv := readCanvas c in ret (bm_height cv).

(** Drawing the pixels [src] on the canvas [c]. *)
Definition drawPixels (c : canvas_id) (src : bitmap)
    (sx sy sw sh dx dy dw dh : Z) : DOM unit :=
  let* cv := readCanvas c in
  writeCanvas c (paint cv src sx sy sw sh dx dy dw dh).

(** [ctx.drawImage(image, sx, sy, sw, sh, dx, dy, dw, dh)] with a decoded
    image as source, [ctx] the context of canvas [c]. *)
Definition drawImage (c : canvas_id) (image : bitmap)
    (sx sy sw sh dx dy dw dh : Z) : DOM unit :=
  drawPixels c (on_canvas image) sx sy sw sh dx dy dw dh.

(** [ctx.drawImage(image, dx, dy)] *)
Definition drawImageAt (c : canvas_id) (image : bitmap) (dx dy : Z) : DOM unit :=
  drawImage c image 0 0 (bm_width image) (bm_height image)
            dx dy (bm_width image) (bm_height image).

(** [ctx.drawImage(canvas, ...)] with another canvas as source: a source
    canvas with a zero dimension throws [InvalidStateError]. *)
Definition drawCanvas (c : canvas_id) (source : canvas_id)
    (sx sy sw sh dx dy dw dh : Z) : DOM unit :=
  let* src := readCanvas source in
  if (bm_width src =? 0) || (bm_height src =? 0) then throw InvalidStateError
  else drawPixels c src sx sy sw sh dx dy dw dh.

(** [ctx.getImageData(sx, sy, sw, sh)]: throws [IndexSizeError] when [sw] or
    [sh] is zero. *)
Definition getImageData (c : canvas_id) (sx sy sw sh : Z) : DOM bitmap :=
  let* cv := readCanvas c in
  if (sw =? 0) || (sh =? 0) then throw IndexSizeError
  else ret (image_data_of cv (Z.min sx (sx + sw)) (Z.min sy (sy + sh))
                          (Z.abs sw) (Z.abs sh)).

(* ================================================================= *)
(** * slicer.ts: SpriteSlicer *)

(** The bounding box tracked by [trimTransparentEdges]. *)
Record bbox : Type := mkBBox {
  minX : Z;
  minY : Z;
  maxX : Z;
  maxY : Z
}.

(** Body of the inner loop: [alpha = data[(y * width + x) * 4 + 3]]. *)
Definition scan_pixel (data : list Z) (w y : Z) (b : bbox) (x : Z) : bbox :=
  if byte_gt data ((y * w + x) * 4 + 3) 0 then
    {| minX := Z.min (minX b) x;
       minY := Z.min (minY b) y;
       maxX := Z.max (maxX b) x;
       maxY := Z.max (maxY b) y |}
  else b.

(** [for (let x = 0; x < canvas.width; x++)] *)
Definition scan_row (data : list Z) (w : Z) (b : bbox) (y : Z) : bbox :=
  fold_left (scan_pixel data w y) (seqZ 0 w) b.

(** [for (let y = 0; y < canvas.height; y++)], from the initial box
    [(width, height, -1, -1)]. *)
Definition find_bounds (data : list Z) (w h : Z) : bbox :=
  fold_left (scan_row data w) (seqZ 0 h)
            {| minX := w; minY := h; maxX := -1; maxY := -1 |}.

Definition trimTransparentEdges (canvas : canvas_id) (padding : Z)
  : DOM (canvas_id * bool) :=
  let* cw := getWidth canvas in
  let* ch := getHeight canvas in
  let* imageData := getImageData canvas 0 0 cw ch in
  let data := bm_data imageData in
  let b := find_bounds data cw ch in
  if maxX b =? -1 then
    let* emptyCanvas := createCanvas in
    let* _ := setWidth emptyCanvas 1 in
    let* _ := setHeight emptyCanvas 1 in
    ret (emptyCanvas, true)
  else
    let minX' := Z.max 0 (minX b - padding) in
    let minY' := Z.max 0 (minY b - padding) in
    let maxX' := Z.min (cw - 1) (maxX b + padding) in
    let maxY' := Z.min (ch - 1) (maxY b + padding) in
    let trimmedWidth := maxX' - minX' + 1 in
    let trimmedHeight := maxY' - minY' + 1 in
    let* trimmedCanvas := createCanvas in
    let* _ := setWidth trimmedCanvas trimmedWidth in
    let* _ := setHeight trimmedCanvas trimmedHeight in
    let* _ := drawCanvas trimmedCanvas canvas
                minX' minY' trimmedWidth trimmedHeight
                0 0 trimmedWidth trimmedHeight in
    ret (trimmedCanvas, false).

(** [for (let i = 3; i < data.length; i += 4) if (data[i] > 0) return false;
    return true].  The loop makes at most [data.length] rounds. *)
Fixpoint all_alpha_zero (fuel : nat) (data : list Z) (i : Z) : bool :=
  match fuel with
  | O => true
  | S fuel' =>
      if i <? Z.of_nat (length data) then
        if byte_gt data i 0 then false
        else all_alpha_zero fuel' data (i + 4)
      else true
  end.

Definition isCanvasEmpty (canvas : canvas_id) : DOM bool :=
  let* cw := getWidth canvas in
  let* ch := getHeight canvas in
  let* imageData := getImageData canvas 0 0 cw ch in
  let data := bm_data imageData in
  ret (all_alpha_zero (length data) data 3).

(** The [index] field: [row * (tileWidth > 0 ? Math.floor(...) : 1) + col]. *)
Definition tile_index (image : bitmap) (settings : TileSettings) (row col : Z)
  : number :=
  Num.add
    (Num.mul (Fin row)
       (if 0 <? tileWidth settings then
          Num.floor_div
            (bm_width image - margin settings * 2 - offsetX settings + spacing settings)
            (tileWidth settings + spacing settings)
        else Fin 1))
    (Fin col).

Definition extractTile (image : bitmap) (settings : TileSettings) (row col : Z)
  : DOM TileData :=
  let sourceX := margin settings + offsetX settings
                 + col * (tileWidth settings + spacing settings) in
  let sourceY := margin settings + offsetY settings
                 + row * (tileHeight settings + spacing settings) in
  let* tileCanvas := createCanvas in
  let* _ := setWidth tileCanvas (tileWidth settings) in
  let* _ := setHeight tileCanvas (tileHeight settings) in
  let* _ := drawImage tileCanvas image
              sourceX sourceY (tileWidth settings) (tileHeight settings)
              0 0 (tileWidth settings) (tileHeight settings) in
  let* (finalCanvas, empty) :=
    (if trimTransparent settings then
       trimTransparentEdges tileCanvas (preservePadding settings)
     else
       let* e := isCanvasEmpty tileCanvas in ret (tileCanvas, e)) in
  ret {| canvas := finalCanvas;
         row := row;
         col := col;
         index := tile_index image settings row col;
         isEmpty := empty |}.

(** [for (let i = start; i < bound; i++) acc = body(i, acc)].  The bound may
    be [Infinity], so the loop is run on fuel. *)
Fixpoint for_lt {A : Type} (fuel : nat) (i : Z) (bound : number)
    (body : Z -> A -> DOM A) (acc : A) : DOM A :=
  if Num.ltb (Fin i) bound then
    match fuel with
    | O => fun _ => OutOfFuel
    | S fuel' =>
        let* acc' := body i acc in
        for_lt fuel' (i + 1) bound body acc'
    end
  else ret acc.

(** [sliceSprite] called without [onProgress]; the [await] every tenth tile
    only yields to the event loop and does not touch the tiles. *)
Definition sliceSprite (fuel : nat) (image : bitmap) (settings : TileSettings)
    (gridInfo : GridInfo) : DOM (list TileData) :=
  for_lt fuel 0 (rows gridInfo)
    (fun row tiles =>
       for_lt fuel 0 (cols gridInfo)
         (fun col tiles =>
            let* tile := extractTile image settings row col in
            ret (tiles ++ [tile]))
         tiles)
    [].

(* ================================================================= *)
(** * grid.ts: auto-detection *)

(** [for (let y = 0; y < height; y += 10)] along the column [x]: false as
    soon as a sampled alpha exceeds 128.  At most [height] rounds. *)
Fixpoint vertical_consistent (fuel : nat) (data : list Z) (width height x y : Z)
  : bool :=
  match fuel with
  | O => true
  | S fuel' =>
      if y <? height then
        if byte_gt data ((y * width + x) * 4 + 3) 128 then false
        else vertical_consistent fuel' data width height x (y + 10)
      else true
  end.

(** [for (let x = 0; x < width; x += 10)] along the row [y]. *)
Fixpoint horizontal_consistent (fuel : nat) (data : list Z) (width y x : Z)
  : bool :=
  match fuel with
  | O => true
  | S fuel' =>
      if x <? width then
        if byte_gt data ((y * width + x) * 4 + 3) 128 then false
        else horizontal_consistent fuel' data width y (x + 10)
      else true
  end.

(** One round of [for (let col = 1; col < cols; col++)]. *)
Definition count_vertical (data : list Z) (width height tileWidth : Z)
    (consistentVertical : Z) (col : Z) : Z :=
  let x := col * tileWidth in
  if x <? width then
    if vertical_consistent (Z.to_nat height) data width height x 0
    then consistentVertical + 1 else consistentVertical
  else consistentVertical.

(** One round of [for (let row = 1; row < rows; row++)]. *)
Definition count_horizontal (data : list Z) (width height tileHeight : Z)
    (consistentHorizontal : Z) (row : Z) : Z :=
  let y := row * tileHeight in
  if y <? height then
    if horizontal_consistent (Z.to_nat width) data width y 0
    then consistentHorizontal + 1 else consistentHorizontal
  else consistentHorizontal.

(** [tryDetectGrid] is private and called with sizes from [commonSizes]
    only, all positive, so [Math.floor(width / tileWidth)] is the integer
    quotient.  [n >= k * 0.7] for integers [n] and [k] is [10 * n >= 7 * k]:
    the rounded product [k * 0.7] lies in the same unit interval as
    [7 * k / 10], and is at most that value when it is an integer. *)
Definition tryDetectGrid (imageData : bitmap) (tileWidth tileHeight : Z)
  : option DetectedSettings :=
  let width := bm_width imageData in
  let height := bm_height imageData in
  let data := bm_data imageData in
  let cols := width / tileWidth in
  let rows := height / tileHeight in
  if (cols <? 2) || (rows <? 2) then None
  else
    let consistentVertical :=
      fold_left (count_vertical data width height tileWidth)
                (seqZ 1 (cols - 1)) 0 in
    let consistentHorizontal :=
      fold_left (count_horizontal data width height tileHeight)
                (seqZ 1 (rows - 1)) 0 in
    if (7 * cols <=? 10 * consistentVertical)
       && (7 * rows <=? 10 * consistentHorizontal)
    then Some {| d_tileWidth := tileWidth;
                 d_tileHeight := tileHeight;
                 d_margin := 0;
                 d_spacing := 0;
                 d_offsetX := 0;
                 d_offsetY := 0 |}
    else None.

Definition commonSizes : list Z := [16; 24; 32; 48; 64; 96; 128].

(** [for (const size of commonSizes)] with its early [return]. *)
Fixpoint first_detected (imageData : bitmap) (sizes : list Z)
  : option DetectedSettings :=
  match sizes with
  | [] => None
  | size :: rest =>
      match tryDetectGrid imageData size size with
      | Some detected => Some detected
      | None => first_detected imageData rest
      end
  end.

Definition autoDetectTileSize (image : bitmap) : DOM (option DetectedSettings) :=
  let* canvas := createCanvas in
  let* _ := setWidth canvas (bm_width image) in
  let* _ := setHeight canvas (bm_height image) in
  let* _ := drawImageAt canvas image 0 0 in
  let* imageData := getImageData canvas 0 0 (bm_width image) (bm_height image) in
  ret (first_detected imageData commonSizes).

(* ================================================================= *)
(** * Concrete inputs used by the examples below *)

(** A raster given pixel by pixel: [pixel x y c] is byte [c] of pixel
    [(x, y)]. *)
Definition raster_of (w h : Z) (pixel : Z -> Z -> Z -> Z) : bitmap :=
  Bitmap w h
    (map (fun (i : nat) =>
            let p := Z.of_nat i / 4 in
            pixel (p mod w) (p / w) (Z.of_nat i mod 4))
         (seq 0 (Z.to_nat (4 * w * h)))).

(** Tiles of 5 x 5 with a margin of 10 on a 10 x 10 image. *)
Definition settings_margin10 : TileSettings :=
  {| tileWidth := 5; tileHeight := 5; margin := 10; spacing := 0;
     offsetX := 0; offsetY := 0; trimTransparent := false; preservePadding := 0 |}.

Definition meta_10x10 : ImageMetadata :=
  {| width := 10; height := 10; hasAlpha := true |}.

(* ================================================================= *)
(** * Vocabulary of the statements *)

(** A raster as a decoder or a canvas produces it: sizes in the range of
    the platform, four bytes per pixel, every byte in [0 .. 255]. *)
Definition wf_bitmap (b : bitmap) : Prop :=
  0 <= bm_width b <= max_dim /\
  0 <= bm_height b <= max_dim /\
  length (bm_data b) = Z.to_nat (4 * bm_width b * bm_height b) /\
  Forall (fun v => 0 <= v <= 255) (bm_data b).

(** Pixel [(x, y)] lies in the raster. *)
Definition inside (b : bitmap) (x y : Z) : Prop :=
  0 <= x < bm_width b /\ 0 <= y < bm_height b.

Definition insideb (b : bitmap) (x y : Z) : bool :=
  in_range 0 (bm_width b) x && in_range 0 (bm_height b) y.

(** Pixel [(x, y)] lies in the raster and its alpha is not 0. *)
Definition opaque (b : bitmap) (x y : Z) : Prop :=
  inside b x y /\ 0 < byte_at b x y 3.

(** [box] is the bounding box of the pixels of [b] with alpha > 0: they
    all lie inside, and each of the four sides touches one of them. *)
Definition is_bounding_box (b : bitmap) (box : bbox) : Prop :=
  (forall x y, opaque b x y ->
               minX box <= x <= maxX box /\ minY box <= y <= maxY box) /\
  (exists y, opaque b (minX box) y) /\
  (exists y, opaque b (maxX box) y) /\
  (exists x, opaque b x (minY box)) /\
  (exists x, opaque b x (maxY box)).

(** Byte [c] of the pixel [(u, v)] of a source of [drawImage]: pixels
    outside the source do not exist and leave the canvas transparent. *)
Definition source_byte (image : bitmap) (u v c : Z) : Z :=
  if insideb image u v then byte_at image u v c else 0.

(** The rasters [trimTransparentEdges] and [extractTile] build, as pure
    functions of the rasters they read. *)
Definition trimmed (cv : bitmap) (padding : Z) : bitmap * bool :=
  let cw := bm_width cv in
  let ch := bm_height cv in
  let b := find_bounds (bm_data cv) cw ch in
  if maxX b =? -1 then (blank 1 1, true)
  else
    let minX' := Z.max 0 (minX b - padding) in
    let minY' := Z.max 0 (minY b - padding) in
    let maxX' := Z.min (cw - 1) (maxX b + padding) in
    let maxY' := Z.min (ch - 1) (maxY b + padding) in
    let trimmedWidth := maxX' - minX' + 1 in
    let trimmedHeight := maxY' - minY' + 1 in
    (paint (blank (canvas_dim 300 trimmedWidth) (canvas_dim 150 trimmedHeight)) cv
           minX' minY' trimmedWidth trimmedHeight 0 0 trimmedWidth trimmedHeight,
     false).

Definition tile_buffer (image : bitmap) (settings : TileSettings) (row col : Z)
  : bitmap :=
  paint (blank (canvas_dim 300 (tileWidth settings))
               (canvas_dim 150 (tileHeight settings)))
        (on_canvas image)
        (margin settings + offsetX settings
         + col * (tileWidth settings + spacing settings))
        (margin settings + offsetY settings
         + row * (tileHeight settings + spacing settings))
        (tileWidth settings) (tileHeight settings)
        0 0 (tileWidth settings) (tileHeight settings).

(** The canvases one call of [extractTile] allocates, in order, and the
    record it returns when the store holds [base] canvases before. *)
Definition tile_canvases (image : bitmap) (settings : TileSettings) (row col : Z)
  : list bitmap :=
  let buf := tile_buffer image settings row col in
  if trimTransparent settings
  then [buf; fst (trimmed buf (preservePadding settings))]
  else [buf].

Definition tile_of (image : bitmap) (settings : TileSettings) (row col : Z)
    (base : nat) : TileData :=
  let buf := tile_buffer image settings row col in
  {| canvas := if trimTransparent settings then S base else base;
     row := row;
     col := col;
     index := tile_index image settings row col;
     isEmpty := if trimTransparent settings
                then snd (trimmed buf (preservePadding settings))
                else all_alpha_zero (length (bm_data buf)) (bm_data buf) 3 |}.

(** A loop over an explicit list of indices. *)
Fixpoint fold_dom {A : Type} (body : Z -> A -> DOM A) (l : list Z) (acc : A)
  : DOM A :=
  match l with
  | [] => ret acc
  | i :: l' => let* acc' := body i acc in fold_dom body l' acc'
  end.

(** The cells [(row, col)] of a grid in row-major order. *)
Definition grid_cells (rows cols : Z) : list (Z * Z) :=
  flat_map (fun row => map (pair row) (seqZ 0 cols)) (seqZ 0 rows).

(** Tiles and canvases of a run of [sliceSprite] over the given cells. *)
Fixpoint slice_cells (image : bitmap) (settings : TileSettings)
    (cells : list (Z * Z)) (base : nat) : list TileData * list bitmap :=
  match cells with
  | [] => ([], [])
  | (row, col) :: rest =>
      let cvs := tile_canvases image settings row col in
      let '(tiles, store) :=
        slice_cells image settings rest (base + length cvs)%nat in
      (tile_of image settings row col base :: tiles, cvs ++ store)
  end.

(** Pixel [(x, y)] of the sheet lies in the source rectangle of [tile]. *)
Definition in_source_rect (settings : TileSettings) (tile : TileData) (x y : Z)
  : Prop :=
  let sourceX := margin settings + offsetX settings
                 + col tile * (tileWidth settings + spacing settings) in
  let sourceY := margin settings + offsetY settings
                 + row tile * (tileHeight settings + spacing settings) in
  sourceX <= x < sourceX + tileWidth settings /\
  sourceY <= y < sourceY + tileHeight settings.

(** Re-assembly of a sheet of size [w] x [h]: every tile is drawn on a blank
    raster at [(col * tileWidth, row * tileHeight)], as
    [ctx.drawImage(tile.canvas, x, y)] does. *)
Definition place_tile (d : document) (settings : TileSettings) (sheet : bitmap)
    (tile : TileData) : bitmap :=
  match d !! canvas tile with
  | Some cv =>
      paint sheet cv 0 0 (bm_width cv) (bm_height cv)
            (col tile * tileWidth settings) (row tile * tileHeight settings)
            (bm_width cv) (bm_height cv)
  | None => sheet
  end.

Definition reassemble (d : document) (settings : TileSettings)
    (tiles : list TileData) (w h : Z) : bitmap :=
  fold_left (place_tile d settings) tiles (blank w h).

(** An image of one half-transparent pixel, and tiles of 1 x 1. *)
Definition soft_pixel : bitmap := Bitmap 1 1 [200; 100; 50; 128].

Definition settings_1 : TileSettings :=
  {| tileWidth := 1; tileHeight := 1; margin := 0; spacing := 0;
     offsetX := 0; offsetY := 0; trimTransparent := false; preservePadding := 0 |}.

(** Tiles of 32 x 32 without margin, spacing or offset. *)
Definition settings_32 (trim : bool) (padding : Z) : TileSettings :=
  {| tileWidth := 32; tileHeight := 32; margin := 0; spacing := 0;
     offsetX := 0; offsetY := 0; trimTransparent := trim;
     preservePadding := padding |}.

(** A 4 x 4 sheet whose only pixel with alpha > 0 is [(1, 2)]. *)
Definition tiny_sheet : bitmap :=
  raster_of 4 4
    (fun x y c =>
       if c =? 3 then (if (x =? 1) && (y =? 2) then 255 else 0)
       else (x + 10 * y) mod 256).

(** Tiles of 2 x 2 without margin, spacing or offset. *)
Definition settings_2 (trim : bool) : TileSettings :=
  {| tileWidth := 2; tileHeight := 2; margin := 0; spacing := 0;
     offsetX := 0; offsetY := 0; trimTransparent := trim;
     preservePadding := 0 |}.

(** A 32 x 32 sheet of 2 x 2 opaque tiles of 16 x 16, each with a
    gutter of two transparent black pixels along its left and upper side. *)
Definition gutter_sheet : bitmap :=
  raster_of 32 32
    (fun x y c =>
       if (x mod 16 <? 2) || (y mod 16 <? 2) then 0
       else if c =? 3 then 255 else 7).

(* ================================================================= *)
(** * imageLoader.ts: ImageLoader *)

(** [data[i] < k]; a comparison with [undefined] is false. *)
Definition byte_lt (data : list Z) (i k : Z) : bool :=
  match getByte data i with
  | Some v => v <? k
  | None => false
  end.

(** [for (let i = 3; i < data.length; i += 4) if (data[i] < 255) return true;
    return false].  At most [data.length] rounds. *)
Fixpoint some_alpha_below_255 (fuel : nat) (data : list Z) (i : Z) : bool :=
  match fuel with
  | O => false
  | S fuel' =>
      if i <? Z.of_nat (length data) then
        if byte_lt data i 255 then true
        else some_alpha_below_255 fuel' data (i + 4)
      else false
  end.

Definition checkAlphaChannel (imageData : bitmap) : bool :=
  some_alpha_below_255 (length (bm_data imageData)) (bm_data imageData) 3.

(** The fields of an [ImageLoader]: its private canvas and the last image
    loaded. *)
Record ImageLoader : Type := mkImageLoader {
  loader_canvas : canvas_id;
  loader_image : option bitmap
}.

(** [new ImageLoader()] *)
Definition newImageLoader : DOM ImageLoader :=
  let* c := createCanvas in
  ret {| loader_canvas := c; loader_image := None |}.

Definition getImageMetadata (this : ImageLoader) (image : bitmap)
  : DOM ImageMetadata :=
  let* _ := setWidth (loader_canvas this) (bm_width image) in
  let* _ := setHeight (loader_canvas this) (bm_height image) in
  let* _ := drawImageAt (loader_canvas this) image 0 0 in
  let* imageData := getImageData (loader_canvas this) 0 0
                      (bm_width image) (bm_height image) in
  ret {| width := bm_width image;
         height := bm_height image;
         hasAlpha := checkAlphaChannel imageData |}.

Definition getCurrentImage (this : ImageLoader) : option bitmap :=
  loader_image this.

(* ================================================================= *)
(** * slicer.ts: SpriteSlicer.createContactSheet *)

(** [Math.ceil(a / b)] for integers [a] and [b]. *)
Definition ceil_div (a b : Z) : number :=
  if b =? 0 then
    if 0 <? a then PosInf else if a <? 0 then NegInf else NaN
  else Fin (- ((- a) / b)).

(** [a % b] for integers: the remainder has the sign of [a]. *)
Definition js_rem (a b : Z) : number :=
  if b =? 0 then NaN else Fin (Z.rem a b).

(** [Math.max(...l)] *)
Definition max_of (l : list Z) : number :=
  match l with
  | [] => NegInf
  | x :: rest => Fin (fold_left Z.max rest x)
  end.

Definition is_finite (n : number) : bool :=
  match n with
  | Fin _ => true
  | _ => false
  end.

(** [`${n}`] for the numbers of the embedding. *)
Definition number_to_string (n : number) : string :=
  match n with
  | Fin z => pretty z
  | PosInf => "Infinity"
  | NegInf => "-Infinity"
  | NaN => "NaN"
  end.

(** Assigning a number to [canvas.width] or [canvas.height]: the conversion
    to [unsigned long] sends [NaN] and the infinities to 0. *)
Definition dim_of_number (n : number) : Z :=
  match n with
  | Fin z => z
  | _ => 0
  end.

(** The calls on the 2D context of the contact sheet, in order.  What the
    calls paint (a CSS colour, rendered text) is left to the platform. *)
Inductive draw_op : Type :=
| FillRect (fillStyle : string) (x y w h : number)
| DrawCanvasAt (source : canvas_id) (x y : number)
| FillText (fillStyle font text : string) (x y : number).

(** [l.map(f)] with an [f] that reads the store. *)
Fixpoint map_dom {A B : Type} (f : A -> DOM B) (l : list A) : DOM (list B) :=
  match l with
  | [] => ret []
  | a :: l' =>
      let* b := f a in
      let* bs := map_dom f l' in
      ret (b :: bs)
  end.

(** [l.forEach((a, i) => ...)], collecting the calls each round makes. *)
Fixpoint for_each_indexed {A B : Type} (f : nat -> A -> DOM (list B))
    (i : nat) (l : list A) : DOM (list B) :=
  match l with
  | [] => ret []
  | a :: l' =>
      let* ops := f i a in
      let* rest := for_each_indexed f (S i) l' in
      ret (ops ++ rest)
  end.

(** One round of [validTiles.forEach]: [ctx.drawImage(tile.canvas, x, y)]
    returns without drawing when [x] or [y] is not finite and throws
    [InvalidStateError] for a source canvas with a zero dimension. *)
Definition draw_tile (columns : Z) (maxTileWidth maxTileHeight : number)
    (i : nat) (tile : TileData) : DOM (list draw_op) :=
  let col := js_rem (Z.of_nat i) columns in
  let row := Num.floor_div (Z.of_nat i) columns in
  let x := Num.mul col maxTileWidth in
  let y := Num.mul row maxTileHeight in
  let* drawn :=
    (if is_finite x && is_finite y then
       let* src := readCanvas (canvas tile) in
       if (bm_width src =? 0) || (bm_height src =? 0)
       then throw InvalidStateError
       else ret [DrawCanvasAt (canvas tile) x y]
     else ret []) in
  ret (drawn ++ [FillText "#000000" "12px Arial" (number_to_string (index tile))
                   (Num.add x (Fin 2)) (Num.add y (Fin 14))]).

(** [createContactSheet] returns the new canvas; the embedding returns with
    it the calls made on its context. *)
Definition createContactSheet (tiles : list TileData) (columns : Z)
    (backgroundColor : string) : DOM (canvas_id * list draw_op) :=
  let validTiles := List.filter (fun tile => negb (isEmpty tile)) tiles in
  if (Z.of_nat (length validTiles) =? 0) then
    let* canvas := createCanvas in
    let* _ := setWidth canvas 1 in
    let* _ := setHeight canvas 1 in
    ret (canvas, [])
  else
    let* widths := map_dom (fun tile => getWidth (canvas tile)) validTiles in
    let* heights := map_dom (fun tile => getHeight (canvas tile)) validTiles in
    let maxTileWidth := max_of widths in
    let maxTileHeight := max_of heights in
    let rows := ceil_div (Z.of_nat (length validTiles)) columns in
    let canvasWidth := Num.mul (Fin columns) maxTileWidth in
    let canvasHeight := Num.mul rows maxTileHeight in
    let* contactSheet := createCanvas in
    let* _ := setWidth contactSheet (dim_of_number canvasWidth) in
    let* _ := setHeight contactSheet (dim_of_number canvasHeight) in
    let* ops := for_each_indexed (draw_tile columns maxTileWidth maxTileHeight)
                  0%nat validTiles in
    ret (contactSheet,
         FillRect backgroundColor (Fin 0) (Fin 0) canvasWidth canvasHeight :: ops).

(* ================================================================= *)
(** * zipper.ts: ZipExporter, the names of the tile files *)

Record ExportSettings : Type := mkExportSettings {
  namingPattern : string;
  customPrefix : string;
  skipTransparent : bool;
  includeContactSheet : bool
}.

Definition generateFilename (tile : TileData) (settings : ExportSettings)
  : string :=
  if String.eqb (namingPattern settings) "row_col" then
    pretty (row tile) +:+ "_" +:+ pretty (col tile) +:+ ".png"
  else if String.eqb (namingPattern settings) "index" then
    number_to_string (index tile) +:+ ".png"
  else if String.eqb (namingPattern settings) "custom" then
    customPrefix settings +:+ pretty (row tile) +:+ "_" +:+ pretty (col tile)
      +:+ ".png"
  else
    pretty (row tile) +:+ "_" +:+ pretty (col tile) +:+ ".png".

(** [validTiles] of [exportTiles]. *)
Definition exported_tiles (tiles : list TileData) (exportSettings : ExportSettings)
  : list TileData :=
  if skipTransparent exportSettings
  then List.filter (fun tile => negb (isEmpty tile)) tiles
  else tiles.

(** The names [exportTiles] passes to [tilesFolder.file(filename, blob)], in
    the order of its loop over [validTiles]. *)
Definition tile_filenames (tiles : list TileData) (exportSettings : ExportSettings)
  : list string :=
  map (fun tile => generateFilename tile exportSettings)
      (exported_tiles tiles exportSettings).

(* ================================================================= *)
(** * Vocabulary of the further statements *)

(** The canvas sources and positions of the [drawImage] calls. *)
Definition drawn_tiles (ops : list draw_op) : list (canvas_id * number * number) :=
  flat_map (fun op =>
              match op with
              | DrawCanvasAt source x y => [(source, x, y)]
              | _ => []
              end) ops.

(** The character [ch] occurs in [s]. *)
Fixpoint occurs (ch : Ascii.ascii) (s : string) : Prop :=
  match s with
  | EmptyString => False
  | String c s' => c = ch \/ occurs ch s'
  end.

(** Inputs of the further examples. *)

(** Tiles of 3 x 3 with a margin of 1 and a spacing of 1. *)
Definition settings_spaced : TileSettings :=
  {| tileWidth := 3; tileHeight := 3; margin := 1; spacing := 1;
     offsetX := 0; offsetY := 0; trimTransparent := false; preservePadding := 0 |}.

(** Tiles of height 5 with a spacing of -5. *)
Definition settings_zero_stride : TileSettings :=
  {| tileWidth := 5; tileHeight := 5; margin := 0; spacing := -5;
     offsetX := 0; offsetY := 0; trimTransparent := false; preservePadding := 0 |}.

(** Tiles of width 0. *)
Definition settings_zero_width : TileSettings :=
  {| tileWidth := 0; tileHeight := 2; margin := 0; spacing := 0;
     offsetX := 0; offsetY := 0; trimTransparent := true; preservePadding := 0 |}.

(** A 4 x 4 image without transparency. *)
Definition opaque_sheet : bitmap := raster_of 4 4 (fun _ _ _ => 255).

(** The tile at row 1 and column 2 with index 5, on canvas 0. *)
Definition tile_1_2 (empty : bool) : TileData :=
  {| canvas := 0%nat; row := 1; col := 2; index := Fin 5; isEmpty := empty |}.

Definition export_by (pattern prefix : string) : ExportSettings :=
  {| namingPattern := pattern; customPrefix := prefix;
     skipTransparent := true; includeContactSheet := false |}.

(* ================================================================= *)
(** * Properties of calculateGrid *)

(** C1 (evaluation at the failing input).  On a 10 x 10 image with
    5 x 5 tiles and a margin of 10 both raw counts are [-2]: [rows] and
    [cols] are clamped to 0 while [totalTiles] is the product 4 of the raw
    counts, so the record does not satisfy [totalTiles = rows * cols]. *)
Theorem calculateGrid_total_of_negative_counts :
  calculateGrid settings_margin10 meta_10x10
    = {| rows := Fin 0; cols := Fin 0; totalTiles := Fin 4 |}
  /\ totalTiles (calculateGrid settings_margin10 meta_10x10)
     <> Num.mul (rows (calculateGrid settings_margin10 meta_10x10))
                (cols (calculateGrid settings_margin10 meta_10x10)).
Proof.
  split; [reflexivity | discriminate].
Qed.

(** Away from that case the record is consistent: when the divisors are
    not zero and one of the raw counts is not negative, the three fields
    are the clamped quotients and their product. *)
Lemma calculateGrid_consistent (settings : TileSettings) (meta : ImageMetadata) :
  let c := (width meta - margin settings * 2 - offsetX settings + spacing settings)
           / (tileWidth settings + spacing settings) in
  let r := (height meta - margin settings * 2 - offsetY settings + spacing settings)
           / (tileHeight settings + spacing settings) in
  tileWidth settings + spacing settings <> 0 ->
  tileHeight settings + spacing settings <> 0 ->
  0 <= c \/ 0 <= r ->
  calculateGrid settings meta
    = {| rows := Fin (Z.max 0 r); cols := Fin (Z.max 0 c);
         totalTiles := Fin (Z.max 0 r * Z.max 0 c) |}.
Proof.
  intros c r Hw Hh Hsign. unfold calculateGrid, Num.floor_div.
  destruct (Z.eqb_spec (tileWidth settings + spacing settings) 0); [done|].
  destruct (Z.eqb_spec (tileHeight settings + spacing settings) 0); [done|].
  cbn. fold c r. f_equal. f_equal. nia.
Qed.

(* ================================================================= *)
(** * Properties of validateSettings *)

Lemma push_if_nil (c : bool) (msg : string) (errors : list string) :
  push_if c msg errors = [] <-> c = false /\ errors = [].
Proof.
  unfold push_if. destruct c.
  - split; [|intros [? _]; discriminate].
    intros H. destruct errors; discriminate.
  - tauto.
Qed.

Lemma In_push_if (c : bool) (m msg : string) (errors : list string) :
  In m (push_if c msg errors) <-> In m errors \/ (c = true /\ m = msg).
Proof.
  unfold push_if. destruct c.
  - rewrite in_app_iff. simpl. intuition congruence.
  - intuition congruence.
Qed.

(** C3.  [validateSettings] returns the empty list exactly when the
    geometry is feasible, and each violated constraint puts its own message
    in the list whatever the other fields are. *)
Theorem validateSettings_reports_each_violation
    (settings : TileSettings) (imageMetadata : ImageMetadata) :
  let errors := validateSettings settings imageMetadata in
  let minRequiredWidth := 2 * margin settings + offsetX settings + tileWidth settings in
  let minRequiredHeight := 2 * margin settings + offsetY settings + tileHeight settings in
  (errors = [] <-> feasible settings imageMetadata)
  /\ (tileWidth settings <= 0 <-> In msg_tileWidth errors)
  /\ (tileHeight settings <= 0 <-> In msg_tileHeight errors)
  /\ (margin settings < 0 <-> In msg_margin errors)
  /\ (spacing settings < 0 <-> In msg_spacing errors)
  /\ (offsetX settings < 0 <-> In msg_offsetX errors)
  /\ (offsetY settings < 0 <-> In msg_offsetY errors)
  /\ (width imageMetadata < minRequiredWidth
      <-> In (msg_width (width imageMetadata) minRequiredWidth) errors)
  /\ (height imageMetadata < minRequiredHeight
      <-> In (msg_height (height imageMetadata) minRequiredHeight) errors).
Proof.
  intros errors minRequiredWidth minRequiredHeight.
  assert (Hw : margin settings * 2 + offsetX settings + tileWidth settings
               = minRequiredWidth) by (unfold minRequiredWidth; lia).
  assert (Hh : margin settings * 2 + offsetY settings + tileHeight settings
               = minRequiredHeight) by (unfold minRequiredHeight; lia).
  unfold errors, validateSettings. rewrite Hw, Hh. clear errors.
  split.
  - rewrite !push_if_nil. unfold feasible. fold minRequiredWidth minRequiredHeight.
    rewrite !Z.leb_gt, !Z.ltb_ge. intuition lia.
  - rewrite !In_push_if. simpl In.
    rewrite !Z.leb_le, !Z.ltb_lt.
    unfold msg_width, msg_height, msg_tileWidth, msg_tileHeight, msg_margin,
      msg_spacing, msg_offsetX, msg_offsetY.
    repeat split; intros H; try tauto;
      repeat match type of H with
        | _ \/ _ => destruct H as [H | H]
        | _ /\ _ => destruct H as [? H]
        | False => destruct H
        end;
      try assumption; try (simpl in H; discriminate H).
Qed.

(* ================================================================= *)
(** * Rasters: indices, bytes, painting *)

Lemma byte_index_decode (w h x y c : Z) :
  0 <= x < w -> 0 <= y < h -> 0 <= c < 4 ->
  0 <= (y * w + x) * 4 + c < 4 * w * h
  /\ ((y * w + x) * 4 + c) / 4 = y * w + x
  /\ ((y * w + x) * 4 + c) mod 4 = c
  /\ (y * w + x) mod w = x
  /\ (y * w + x) / w = y.
Proof.
  intros Hx Hy Hc. repeat split.
  - nia.
  - nia.
  - symmetry. apply Z.div_unique with c; lia.
  - symmetry. apply Z.mod_unique with (y * w + x); lia.
  - symmetry. apply Z.mod_unique with y; lia.
  - symmetry. apply Z.div_unique with x; lia.
Qed.

Lemma byte_index_encode (w h i : Z) :
  0 <= i < 4 * w * h -> 0 <= w -> 0 <= h ->
  0 <= (i / 4) mod w < w
  /\ 0 <= (i / 4) / w < h
  /\ 0 <= i mod 4 < 4
  /\ i = (((i / 4) / w) * w + (i / 4) mod w) * 4 + i mod 4.
Proof.
  intros Hi Hw Hh.
  assert (0 < w) by nia.
  assert (Hp : 0 <= i / 4 < w * h).
  { split; [apply Z.div_pos; lia|]. apply Z.div_lt_upper_bound; lia. }
  pose proof (Z.mod_pos_bound (i / 4) w ltac:(lia)).
  pose proof (Z.mod_pos_bound i 4 ltac:(lia)).
  pose proof (Z.div_mod (i / 4) w ltac:(lia)).
  pose proof (Z.div_mod i 4 ltac:(lia)).
  repeat split; try lia.
  - apply Z.div_pos; lia.
  - apply Z.div_lt_upper_bound; lia.
Qed.

Lemma getByte_Some (data : list Z) (i : Z) :
  0 <= i < Z.of_nat (length data) -> exists v, getByte data i = Some v.
Proof.
  intros Hi. unfold getByte.
  destruct (Z.ltb_spec i 0); [lia|].
  apply lookup_lt_is_Some_2. lia.
Qed.

Lemma getByte_imap (g : nat -> Z -> Z) (data : list Z) (i : Z) :
  getByte (imap g data) i = g (Z.to_nat i) <$> getByte data i.
Proof.
  unfold getByte. destruct (Z.ltb_spec i 0); [done|].
  apply list_lookup_imap.
Qed.

Lemma getByte_replicate (n : nat) (v : Z) (i : Z) :
  default v (getByte (replicate n v) i) = v.
Proof.
  unfold getByte. destruct (Z.ltb_spec i 0); [done|].
  destruct (replicate n v !! Z.to_nat i) eqn:E; [|done].
  apply lookup_replicate in E as [-> _]. done.
Qed.

Lemma in_range_true (lo hi x : Z) : in_range lo hi x = true <-> lo <= x < hi.
Proof. unfold in_range. rewrite andb_true_iff, Z.leb_le, Z.ltb_lt. done. Qed.

Lemma insideb_true (b : bitmap) (x y : Z) : insideb b x y = true <-> inside b x y.
Proof. unfold insideb, inside. rewrite andb_true_iff, !in_range_true. done. Qed.

Lemma byte_at_blank (w h x y c : Z) : byte_at (blank w h) x y c = 0.
Proof. unfold byte_at, blank. simpl. apply getByte_replicate. Qed.

Lemma byte_at_range (b : bitmap) (x y c : Z) :
  wf_bitmap b -> 0 <= byte_at b x y c <= 255.
Proof.
  intros (_ & _ & _ & Hbytes). unfold byte_at, getByte.
  destruct (_ <? 0); [simpl; lia|].
  destruct (bm_data b !! _) eqn:E; [|simpl; lia].
  simpl. rewrite Forall_forall in Hbytes. apply Hbytes.
  eapply list_elem_of_lookup_2; eauto.
Qed.

Lemma wf_blank (w h : Z) :
  0 <= w <= max_dim -> 0 <= h <= max_dim -> wf_bitmap (blank w h).
Proof.
  intros Hw Hh. unfold wf_bitmap, blank. simpl. repeat split; try lia.
  - apply length_replicate.
  - apply Forall_replicate. lia.
Qed.

Lemma wf_raster_of (w h : Z) (pixel : Z -> Z -> Z -> Z) :
  0 <= w <= max_dim -> 0 <= h <= max_dim ->
  (forall x y c, 0 <= pixel x y c <= 255) ->
  wf_bitmap (raster_of w h pixel).
Proof.
  intros Hw Hh Hpix. unfold wf_bitmap, raster_of. simpl.
  split; [done|]. split; [done|]. split.
  - by rewrite length_map, length_seq.
  - apply Forall_forall. intros v Hv.
    apply list_elem_of_In, in_map_iff in Hv as (i & <- & _). apply Hpix.
Qed.

Lemma canvas_dim_range (default v : Z) :
  0 <= default <= max_dim -> 0 <= canvas_dim default v <= max_dim.
Proof.
  intros Hd. unfold canvas_dim.
  pose proof (Z.mod_pos_bound v 4294967296 ltac:(lia)).
  destruct (Z.leb_spec (v mod 4294967296) max_dim); lia.
Qed.

Lemma canvas_dim_id (default v : Z) :
  0 <= v <= max_dim -> canvas_dim default v = v.
Proof.
  intros Hv. unfold canvas_dim, max_dim in *.
  rewrite Z.mod_small by lia.
  destruct (Z.leb_spec v 2147483647); lia.
Qed.

(** The bytes of a painted raster. *)
Lemma byte_at_paint (dst src : bitmap) (sx sy sw sh dx dy dw dh x y c : Z) :
  wf_bitmap dst -> inside dst x y -> 0 <= c < 4 ->
  byte_at (paint dst src sx sy sw sh dx dy dw dh) x y c
  = if in_range (Z.min dx (dx + dw)) (Z.max dx (dx + dw)) x
       && in_range (Z.min dy (dy + dh)) (Z.max dy (dy + dh)) y
       && insideb src (sx + (x - dx)) (sy + (y - dy))
    then byte_at src (sx + (x - dx)) (sy + (y - dy)) c
    else byte_at dst x y c.
Proof.
  intros (Hw & Hh & Hlen & _) [Hx Hy] Hc.
  destruct (byte_index_decode (bm_width dst) (bm_height dst) x y c)
    as (Hi & Hdiv & Hmod & Hpx & Hpy); try lia.
  unfold byte_at at 1. simpl bm_width. simpl bm_data.
  rewrite getByte_imap.
  destruct (getByte_Some (bm_data dst) ((y * bm_width dst + x) * 4 + c)) as [v Hv];
    [lia|].
  rewrite Hv. simpl. rewrite Z2Nat.id by lia.
  rewrite Hdiv, Hmod, Hpx, Hpy. unfold insideb. rewrite andb_assoc.
  destruct (_ && _ && _ && _); [done|].
  unfold byte_at. rewrite Hv. done.
Qed.

Lemma wf_paint (dst src : bitmap) (sx sy sw sh dx dy dw dh : Z) :
  wf_bitmap dst -> wf_bitmap src ->
  wf_bitmap (paint dst src sx sy sw sh dx dy dw dh).
Proof.
  intros (Hw & Hh & Hlen & Hbytes) Hsrc. unfold wf_bitmap, paint. simpl.
  repeat split; try lia.
  - rewrite length_imap. done.
  - apply Forall_lookup_2. intros i v Hi.
    rewrite list_lookup_imap in Hi.
    destruct (bm_data dst !! i) as [old|] eqn:E; [|done].
    simpl in Hi. injection Hi as <-.
    destruct (_ && _ && _ && _).
    + apply byte_at_range. done.
    + eapply Forall_lookup_1 in Hbytes; eauto.
Qed.

Lemma paint_width dst src sx sy sw sh dx dy dw dh :
  bm_width (paint dst src sx sy sw sh dx dy dw dh) = bm_width dst.
Proof. done. Qed.

Lemma paint_height dst src sx sy sw sh dx dy dw dh :
  bm_height (paint dst src sx sy sw sh dx dy dw dh) = bm_height dst.
Proof. done. Qed.

(** Two well-formed rasters of the same size with the same bytes are equal. *)
Lemma bitmap_ext (b1 b2 : bitmap) :
  wf_bitmap b1 -> wf_bitmap b2 ->
  bm_width b1 = bm_width b2 -> bm_height b1 = bm_height b2 ->
  (forall x y c, inside b1 x y -> 0 <= c < 4 -> byte_at b1 x y c = byte_at b2 x y c) ->
  b1 = b2.
Proof.
  destruct b1 as [w1 h1 l1], b2 as [w2 h2 l2]. simpl.
  intros (Hw1 & Hh1 & Hlen1 & _) (Hw2 & Hh2 & Hlen2 & _) -> -> Hbytes.
  simpl in *. f_equal.
  apply list_eq. intros i.
  destruct (decide (i < length l1)%nat) as [Hi|Hi].
  - destruct (byte_index_encode w2 h2 (Z.of_nat i)) as (Hx & Hy & Hc & Heq); try lia.
    specialize (Hbytes _ _ _ (conj Hx Hy) Hc).
    unfold byte_at, getByte in Hbytes. simpl in Hbytes. rewrite <- Heq in Hbytes.
    destruct (Z.ltb_spec (Z.of_nat i) 0); [lia|].
    rewrite Nat2Z.id in Hbytes.
    destruct (lookup_lt_is_Some_2 l1 i Hi) as [v1 E1].
    destruct (lookup_lt_is_Some_2 l2 i ltac:(lia)) as [v2 E2].
    rewrite E1, E2 in *. simpl in Hbytes. congruence.
  - rewrite !lookup_ge_None_2 by lia. done.
Qed.

(** Reading back the whole canvas gives its backing store. *)
Lemma image_data_of_full (cv : bitmap) :
  wf_bitmap cv ->
  image_data_of cv 0 0 (bm_width cv) (bm_height cv) = cv.
Proof.
  intros Hwf. pose proof Hwf as (Hw & Hh & Hlen & Hbytes).
  destruct cv as [w h l]. simpl in *. unfold image_data_of. simpl. f_equal.
  apply list_eq. intros i.
  change (map ?f ?l) with (f <$> l).
  rewrite list_lookup_fmap.
  destruct (decide (i < length l)%nat) as [Hi|Hi].
  - rewrite lookup_seq_lt by lia. simpl.
    destruct (byte_index_encode w h (Z.of_nat i)) as (Hx & Hy & Hc & Heq); try lia.
    rewrite !Z.add_0_l.
    destruct (in_range_true 0 w ((Z.of_nat i / 4) mod w)) as [_ ->]; [|lia].
    destruct (in_range_true 0 h ((Z.of_nat i / 4) / w)) as [_ ->]; [|lia].
    simpl. unfold byte_at, getByte. simpl. rewrite <- Heq.
    destruct (Z.ltb_spec (Z.of_nat i) 0); [lia|].
    rewrite Nat2Z.id.
    destruct (lookup_lt_is_Some_2 l i Hi) as [v1 E1]. rewrite E1. done.
  - rewrite lookup_seq_ge by lia. simpl. rewrite lookup_ge_None_2 by lia. done.
Qed.

(** ** Colours on a canvas *)

Lemma premultiply_range (c a : Z) :
  0 <= c <= 255 -> 0 <= a <= 255 -> 0 <= premultiply c a <= a.
Proof.
  intros Hc Ha. unfold premultiply. split.
  - apply Z.div_pos; nia.
  - assert ((c * a + 127) / 255 < a + 1) by (apply Z.div_lt_upper_bound; nia).
    lia.
Qed.

Lemma canvas_colour_range (c a : Z) :
  0 <= c <= 255 -> 0 <= a <= 255 -> 0 <= canvas_colour c a <= 255.
Proof.
  intros Hc Ha. pose proof (premultiply_range c a Hc Ha) as Hp.
  unfold canvas_colour, unpremultiply.
  destruct (Z.eqb_spec a 0); [lia|]. split.
  - apply Z.div_pos; nia.
  - assert ((2 * 255 * premultiply c a + a) / (2 * a) < 256)
      by (apply Z.div_lt_upper_bound; nia).
    lia.
Qed.

(** A colour byte under full alpha comes back as it is, and a colour byte
    under alpha 0 comes back as 0. *)
Lemma canvas_colour_opaque (c : Z) : canvas_colour c 255 = c.
Proof.
  unfold canvas_colour, unpremultiply, premultiply. simpl (255 =? 0).
  cbv iota.
  replace ((c * 255 + 127) / 255) with c.
  - symmetry. apply Z.div_unique with 255; lia.
  - apply Z.div_unique with 127; lia.
Qed.

Lemma canvas_colour_transparent (c : Z) : canvas_colour c 0 = 0.
Proof. reflexivity. Qed.

(** The bytes of an image on a canvas. *)
Lemma byte_at_on_canvas (image : bitmap) (x y k : Z) :
  wf_bitmap image -> inside image x y -> 0 <= k < 4 ->
  byte_at (on_canvas image) x y k
  = if k =? 3 then byte_at image x y 3
    else canvas_colour (byte_at image x y k) (byte_at image x y 3).
Proof.
  intros (Hw & Hh & Hlen & _) [Hx Hy] Hk.
  destruct (byte_index_decode (bm_width image) (bm_height image) x y k)
    as (Hi & Hdiv & Hmod & _); try lia.
  unfold byte_at at 1. cbn [on_canvas bm_width bm_data].
  rewrite getByte_imap.
  destruct (getByte_Some (bm_data image) ((y * bm_width image + x) * 4 + k))
    as [v Hv]; [lia|].
  rewrite Hv. simpl. rewrite Z2Nat.id by lia. rewrite Hdiv, Hmod.
  unfold byte_at. rewrite Hv. simpl.
  destruct (Z.eqb_spec k 3) as [->|_]; [by rewrite Hv|done].
Qed.

Lemma wf_on_canvas (image : bitmap) : wf_bitmap image -> wf_bitmap (on_canvas image).
Proof.
  intros (Hw & Hh & Hlen & Hbytes). unfold wf_bitmap, on_canvas. simpl.
  split; [done|]. split; [done|]. split; [by rewrite length_imap|].
  apply Forall_lookup_2. intros i v Hi.
  rewrite list_lookup_imap in Hi.
  destruct (bm_data image !! i) as [old|] eqn:E; [|done].
  simpl in Hi. injection Hi as <-.
  pose proof (Forall_lookup_1 _ _ _ _ Hbytes E) as Hold. simpl in Hold.
  destruct (_ =? 3); [done|].
  apply canvas_colour_range; [done|].
  unfold getByte. destruct (_ <? 0); [simpl; lia|].
  destruct (bm_data image !! Z.to_nat _) as [a|] eqn:Ea; [|simpl; lia].
  simpl. apply (Forall_lookup_1 _ _ _ _ Hbytes Ea).
Qed.

Lemma inside_on_canvas (image : bitmap) (x y : Z) :
  inside (on_canvas image) x y <-> inside image x y.
Proof. done. Qed.

(** The alpha bytes of an image on a canvas are those of the image. *)
Lemma alpha_on_canvas (image : bitmap) (x y : Z) :
  wf_bitmap image -> inside image x y ->
  byte_at (on_canvas image) x y 3 = byte_at image x y 3.
Proof. intros Himg Hin. by rewrite byte_at_on_canvas. Qed.

Lemma source_alpha_on_canvas (image : bitmap) (u v : Z) :
  wf_bitmap image ->
  source_byte (on_canvas image) u v 3 = source_byte image u v 3.
Proof.
  intros Himg. unfold source_byte.
  change (insideb (on_canvas image) u v) with (insideb image u v).
  destruct (insideb image u v) eqn:Hin; [|done].
  apply alpha_on_canvas; [done|]. by apply insideb_true.
Qed.

(** An image without transparency is on a canvas what it is. *)
Lemma on_canvas_opaque (image : bitmap) :
  wf_bitmap image ->
  (forall x y, inside image x y -> byte_at image x y 3 = 255) ->
  on_canvas image = image.
Proof.
  intros Himg Hall. apply bitmap_ext; [by apply wf_on_canvas|done|done|done|].
  intros x y k Hin Hk. rewrite byte_at_on_canvas by done.
  rewrite Hall by done. destruct (k =? 3) eqn:E.
  - apply Z.eqb_eq in E as ->. by rewrite Hall.
  - apply canvas_colour_opaque.
Qed.

(* ================================================================= *)
(** * Running the canvas API on a store *)

Lemma lookup_snoc (d : document) (cv : bitmap) : (d ++ [cv]) !! length d = Some cv.
Proof. by apply list_lookup_middle. Qed.

Lemma insert_snoc (d : document) (cv cv' : bitmap) :
  <[length d := cv']> (d ++ [cv]) = d ++ [cv'].
Proof. rewrite insert_app_r_alt by lia. by rewrite Nat.sub_diag. Qed.

Lemma bind_Ok {A B : Type} (m : DOM A) (k : A -> DOM B) d a d' :
  m d = Ok (a, d') -> bind m k d = k a d'.
Proof. unfold bind. by intros ->. Qed.

Lemma readCanvas_Ok d c cv : d !! c = Some cv -> readCanvas c d = Ok (cv, d).
Proof. unfold readCanvas. by intros ->. Qed.

Lemma getWidth_Ok d c cv : d !! c = Some cv -> getWidth c d = Ok (bm_width cv, d).
Proof. intros H. unfold getWidth. by rewrite (bind_Ok _ _ _ _ _ (readCanvas_Ok _ _ _ H)). Qed.

Lemma getHeight_Ok d c cv : d !! c = Some cv -> getHeight c d = Ok (bm_height cv, d).
Proof. intros H. unfold getHeight. by rewrite (bind_Ok _ _ _ _ _ (readCanvas_Ok _ _ _ H)). Qed.

(** Allocating a canvas and sizing it appends a blank raster to the store. *)
Lemma new_canvas_Ok {A : Type} (w h : Z) (k : canvas_id -> DOM A) (d : document) :
  (let* c := createCanvas in
   let* _ := setWidth c w in
   let* _ := setHeight c h in
   k c) d
  = k (length d) (d ++ [blank (canvas_dim 300 w) (canvas_dim 150 h)]).
Proof.
  unfold bind at 1. unfold createCanvas.
  unfold setWidth, setHeight, bind, readCanvas, writeCanvas.
  rewrite lookup_snoc, insert_snoc, lookup_snoc, insert_snoc. done.
Qed.

Lemma getImageData_whole d c cv :
  d !! c = Some cv -> wf_bitmap cv ->
  getImageData c 0 0 (bm_width cv) (bm_height cv) d
  = if (bm_width cv =? 0) || (bm_height cv =? 0) then Throws IndexSizeError
    else Ok (cv, d).
Proof.
  intros H Hwf. unfold getImageData.
  rewrite (bind_Ok _ _ _ _ _ (readCanvas_Ok _ _ _ H)).
  destruct (_ || _) eqn:E; [done|].
  apply orb_false_iff in E as [Ew Eh].
  apply Z.eqb_neq in Ew, Eh. destruct Hwf as (Hw & Hh & ?).
  unfold ret. rewrite !Z.add_0_l, !Z.min_l, !Z.abs_eq by lia.
  rewrite image_data_of_full; done.
Qed.

Lemma drawPixels_Ok d c cv src sx sy sw sh dx dy dw dh :
  d !! c = Some cv ->
  drawPixels c src sx sy sw sh dx dy dw dh d
  = Ok (tt, <[c := paint cv src sx sy sw sh dx dy dw dh]> d).
Proof.
  intros H. unfold drawPixels.
  by rewrite (bind_Ok _ _ _ _ _ (readCanvas_Ok _ _ _ H)).
Qed.

Lemma drawImage_Ok d c cv image sx sy sw sh dx dy dw dh :
  d !! c = Some cv ->
  drawImage c image sx sy sw sh dx dy dw dh d
  = Ok (tt, <[c := paint cv (on_canvas image) sx sy sw sh dx dy dw dh]> d).
Proof. apply drawPixels_Ok. Qed.

Lemma drawCanvas_Ok d c cv source src sx sy sw sh dx dy dw dh :
  d !! c = Some cv -> d !! source = Some src ->
  drawCanvas c source sx sy sw sh dx dy dw dh d
  = if (bm_width src =? 0) || (bm_height src =? 0) then Throws InvalidStateError
    else Ok (tt, <[c := paint cv src sx sy sw sh dx dy dw dh]> d).
Proof.
  intros Hc Hs. unfold drawCanvas.
  rewrite (bind_Ok _ _ _ _ _ (readCanvas_Ok _ _ _ Hs)).
  destruct (_ || _); [done|]. by apply drawPixels_Ok.
Qed.

Lemma trimTransparentEdges_run d c cv padding :
  d !! c = Some cv -> wf_bitmap cv ->
  trimTransparentEdges c padding d
  = if (bm_width cv =? 0) || (bm_height cv =? 0) then Throws IndexSizeError
    else Ok ((length d, snd (trimmed cv padding)), d ++ [fst (trimmed cv padding)]).
Proof.
  intros H Hwf. unfold trimTransparentEdges.
  rewrite (bind_Ok _ _ _ _ _ (getWidth_Ok _ _ _ H)).
  rewrite (bind_Ok _ _ _ _ _ (getHeight_Ok _ _ _ H)).
  unfold bind at 1. rewrite getImageData_whole by done.
  destruct (_ || _) eqn:E; [done|].
  unfold trimmed.
  destruct (maxX _ =? -1).
  - rewrite new_canvas_Ok. done.
  - rewrite new_canvas_Ok.
    erewrite bind_Ok; cycle 1.
    { erewrite drawCanvas_Ok; [rewrite E; reflexivity|apply lookup_snoc|].
      apply lookup_app_l_Some. done. }
    rewrite insert_snoc. done.
Qed.

Lemma isCanvasEmpty_run d c cv :
  d !! c = Some cv -> wf_bitmap cv ->
  isCanvasEmpty c d
  = if (bm_width cv =? 0) || (bm_height cv =? 0) then Throws IndexSizeError
    else Ok (all_alpha_zero (length (bm_data cv)) (bm_data cv) 3, d).
Proof.
  intros H Hwf. unfold isCanvasEmpty.
  rewrite (bind_Ok _ _ _ _ _ (getWidth_Ok _ _ _ H)).
  rewrite (bind_Ok _ _ _ _ _ (getHeight_Ok _ _ _ H)).
  unfold bind at 1. rewrite getImageData_whole by done.
  destruct (_ || _); done.
Qed.

Lemma wf_tile_buffer image settings row col :
  wf_bitmap image -> wf_bitmap (tile_buffer image settings row col).
Proof.
  intros Himg. apply wf_paint; [|by apply wf_on_canvas].
  apply wf_blank; apply canvas_dim_range; unfold max_dim; lia.
Qed.

(** What one call of [extractTile] does to the store and what it returns. *)
Lemma extractTile_run image settings row col d :
  wf_bitmap image ->
  let buf := tile_buffer image settings row col in
  extractTile image settings row col d
  = if (bm_width buf =? 0) || (bm_height buf =? 0) then Throws IndexSizeError
    else Ok (tile_of image settings row col (length d),
             d ++ tile_canvases image settings row col).
Proof.
  intros Himg buf. unfold extractTile. rewrite new_canvas_Ok.
  erewrite bind_Ok; cycle 1.
  { apply drawImage_Ok, lookup_snoc. }
  rewrite insert_snoc. fold (tile_buffer image settings row col). fold buf.
  assert (Hbuf : wf_bitmap buf) by by apply wf_tile_buffer.
  unfold bind at 1, tile_of, tile_canvases. fold buf.
  destruct (trimTransparent settings).
  - rewrite (trimTransparentEdges_run _ _ buf) by (done || apply lookup_snoc).
    destruct (_ || _); [done|]. unfold ret.
    rewrite length_app, Nat.add_1_r, <- app_assoc. done.
  - unfold bind. rewrite (isCanvasEmpty_run _ _ buf) by (done || apply lookup_snoc).
    destruct (_ || _); done.
Qed.

(* ================================================================= *)
(** * The scans over alpha bytes *)

Lemma byte_gt_byte_at (b : bitmap) (x y k : Z) :
  0 <= k ->
  byte_gt (bm_data b) ((y * bm_width b + x) * 4 + 3) k = (k <? byte_at b x y 3).
Proof.
  intros Hk. unfold byte_gt, byte_at.
  destruct (getByte _ _); simpl; [done|].
  symmetry. apply Z.ltb_ge. lia.
Qed.

Lemma all_alpha_zero_spec (fuel : nat) (data : list Z) (i : Z) :
  Z.of_nat (length data) <= i + 4 * Z.of_nat fuel ->
  all_alpha_zero fuel data i = true
  <-> forall j, 0 <= j -> i + 4 * j < Z.of_nat (length data) ->
                byte_gt data (i + 4 * j) 0 = false.
Proof.
  revert i. induction fuel as [|fuel IH]; intros i Hfuel; simpl.
  - split; [|done]. intros _ j Hj Hlt. lia.
  - destruct (Z.ltb_spec i (Z.of_nat (length data))) as [Hlt|Hge].
    + destruct (byte_gt data i 0) eqn:E.
      * split; [done|]. intros H. specialize (H 0). rewrite Z.add_0_r in H.
        rewrite H in E by lia. done.
      * rewrite IH by lia. split.
        -- intros H j Hj Hj'. destruct (decide (j = 0)) as [->|Hne].
           ++ by rewrite Z.add_0_r.
           ++ specialize (H (j - 1)).
              replace (i + 4 + 4 * (j - 1)) with (i + 4 * j) in H by lia.
              apply H; lia.
        -- intros H j Hj Hj'.
           replace (i + 4 + 4 * j) with (i + 4 * (j + 1)) in * by lia.
           apply H; lia.
    + split; [|done]. intros _ j Hj Hj'. lia.
Qed.

(** [isCanvasEmpty] answers true exactly when every pixel has alpha 0. *)
Lemma all_alpha_zero_bitmap (cv : bitmap) :
  wf_bitmap cv ->
  all_alpha_zero (length (bm_data cv)) (bm_data cv) 3 = true
  <-> forall x y, inside cv x y -> byte_at cv x y 3 = 0.
Proof.
  intros Hwf. pose proof Hwf as (Hw & Hh & Hlen & _).
  rewrite all_alpha_zero_spec by lia. split.
  - intros H x y [Hx Hy].
    destruct (byte_index_decode (bm_width cv) (bm_height cv) x y 3)
      as (Hi & _); try lia.
    specialize (H (y * bm_width cv + x)).
    replace (3 + 4 * (y * bm_width cv + x))
      with ((y * bm_width cv + x) * 4 + 3) in H by lia.
    rewrite byte_gt_byte_at in H by lia.
    pose proof (byte_at_range cv x y 3 Hwf).
    apply Z.ltb_ge in H; [lia|nia|lia].
  - intros H j Hj Hlt.
    destruct (byte_index_encode (bm_width cv) (bm_height cv) (3 + 4 * j))
      as (Hx & Hy & Hc & Heq); try lia.
    assert (Hm : (3 + 4 * j) mod 4 = 3).
    { symmetry. apply Z.mod_unique with j; lia. }
    rewrite Hm in Heq. rewrite Heq, byte_gt_byte_at by lia.
    rewrite H; [done|]. split; lia.
Qed.

Lemma fold_left_flat_map {A B C : Type} (f : A -> C -> A) (g : B -> list C)
    (l : list B) (a : A) :
  fold_left f (flat_map g l) a = fold_left (fun a y => fold_left f (g y) a) l a.
Proof.
  revert a. induction l as [|y l IH]; intros a; simpl; [done|].
  by rewrite fold_left_app, IH.
Qed.

Lemma fold_left_pairs {A B C : Type} (f : A -> B * C -> A) (y : B)
    (l : list C) (a : A) :
  fold_left f (map (pair y) l) a = fold_left (fun a x => f a (y, x)) l a.
Proof. revert a. induction l as [|x l IH]; intros a; simpl; [done|]. apply IH. Qed.

Lemma In_grid_cells (rows cols r c : Z) :
  In (r, c) (grid_cells rows cols) <-> 0 <= r < rows /\ 0 <= c < cols.
Proof.
  unfold grid_cells. rewrite in_flat_map. split.
  - intros (r' & Hr & Hc). apply in_map_iff in Hc as (c' & Heq & Hc).
    injection Heq as -> ->.
    apply list_elem_of_In, elem_of_seqZ in Hr.
    apply list_elem_of_In, elem_of_seqZ in Hc. lia.
  - intros [Hr Hc]. exists r. split.
    + apply list_elem_of_In, elem_of_seqZ. lia.
    + apply in_map. apply list_elem_of_In, elem_of_seqZ. lia.
Qed.

Lemma fold_left_pointwise {A B : Type} (f g : A -> B -> A) (l : list B) (a : A) :
  (forall a x, f a x = g a x) -> fold_left f l a = fold_left g l a.
Proof.
  intros Hfg. revert a. induction l as [|x l IH]; intros a; simpl; [done|].
  by rewrite Hfg, IH.
Qed.

(** The scan as one loop over the pixels in row-major order. *)
Lemma find_bounds_flat (data : list Z) (w h : Z) :
  find_bounds data w h
  = fold_left (fun b (p : Z * Z) => scan_pixel data w (fst p) b (snd p))
              (grid_cells h w)
              {| minX := w; minY := h; maxX := -1; maxY := -1 |}.
Proof.
  unfold find_bounds, grid_cells. rewrite fold_left_flat_map.
  apply fold_left_pointwise. intros b y. unfold scan_row.
  by rewrite fold_left_pairs.
Qed.

Lemma scan_pixel_cases (cv : bitmap) (b : bbox) (x y : Z) :
  inside cv x y ->
  (opaque cv x y /\
   scan_pixel (bm_data cv) (bm_width cv) y b x
   = {| minX := Z.min (minX b) x; minY := Z.min (minY b) y;
        maxX := Z.max (maxX b) x; maxY := Z.max (maxY b) y |})
  \/ (~ opaque cv x y /\ scan_pixel (bm_data cv) (bm_width cv) y b x = b).
Proof.
  intros Hin. unfold scan_pixel. rewrite byte_gt_byte_at by lia.
  destruct (Z.ltb_spec 0 (byte_at cv x y 3)).
  - left. split; [split|]; done.
  - right. split; [|done]. intros [_ ?]. lia.
Qed.

(** Invariant of the scan after the pixels of [l]. *)
Lemma scan_invariant (cv : bitmap) (l : list (Z * Z)) :
  let init := {| minX := bm_width cv; minY := bm_height cv;
                 maxX := -1; maxY := -1 |} in
  let b := fold_left (fun b (p : Z * Z) =>
                        scan_pixel (bm_data cv) (bm_width cv) (fst p) b (snd p))
                     l init in
  (forall y x, In (y, x) l -> inside cv x y) ->
  (forall y x, In (y, x) l -> opaque cv x y ->
               minX b <= x <= maxX b /\ minY b <= y <= maxY b)
  /\ (b = init
      \/ ((exists y, opaque cv (minX b) y) /\ (exists y, opaque cv (maxX b) y) /\
          (exists x, opaque cv x (minY b)) /\ (exists x, opaque cv x (maxY b)))).
Proof.
  intros init. induction l as [|[y x] l IH] using rev_ind; intros b Hall.
  - split; [intros ? ? []|by left].
  - unfold b. rewrite fold_left_app. simpl.
    set (b0 := fold_left _ l init) in *.
    destruct IH as [Hbox Hwit].
    { intros y' x' Hin. apply Hall, in_app_iff. by left. }
    assert (Hin : inside cv x y).
    { apply Hall, in_app_iff. right. by left. }
    destruct (scan_pixel_cases cv b0 x y Hin) as [[Hop ->]|[Hop ->]].
    + split.
      * intros y' x' Hin' Hop'. simpl.
        apply in_app_iff in Hin' as [Hin'|[Heq|[]]].
        -- specialize (Hbox _ _ Hin' Hop'). lia.
        -- injection Heq as <- <-. lia.
      * right. simpl. destruct Hin as [Hx Hy].
        destruct Hwit as [Heq|(H1 & H2 & H3 & H4)].
        -- rewrite Heq. simpl. rewrite !Z.min_r, !Z.max_r by lia.
           repeat split; eauto.
        -- repeat split.
           ++ destruct (Z.min_spec (minX b0) x) as [[_ ->]|[_ ->]]; eauto.
           ++ destruct (Z.max_spec (maxX b0) x) as [[_ ->]|[_ ->]]; eauto.
           ++ destruct (Z.min_spec (minY b0) y) as [[_ ->]|[_ ->]]; eauto.
           ++ destruct (Z.max_spec (maxY b0) y) as [[_ ->]|[_ ->]]; eauto.
    + split; [|done].
      intros y' x' Hin' Hop'.
      apply in_app_iff in Hin' as [Hin'|[Heq|[]]]; [by apply Hbox|].
      injection Heq as <- <-. done.
Qed.

(** The box [find_bounds] returns: the initial one, with [maxX = -1], when
    no pixel has alpha > 0; the bounding box of those pixels otherwise. *)
Lemma find_bounds_cases (cv : bitmap) :
  let b := find_bounds (bm_data cv) (bm_width cv) (bm_height cv) in
  (maxX b = -1 /\ forall x y, ~ opaque cv x y)
  \/ (0 <= maxX b /\ is_bounding_box cv b).
Proof.
  intros b. unfold b. rewrite find_bounds_flat.
  destruct (scan_invariant cv (grid_cells (bm_height cv) (bm_width cv)))
    as [Hbox Hwit].
  { intros y x Hin. apply In_grid_cells in Hin. split; lia. }
  set (b0 := fold_left _ _ _) in *.
  assert (Hall : forall x y, opaque cv x y ->
                             minX b0 <= x <= maxX b0 /\ minY b0 <= y <= maxY b0).
  { intros x y Hop. apply Hbox; [|done].
    apply In_grid_cells. destruct Hop as [[? ?] _]. lia. }
  destruct Hwit as [Heq|Hwit].
  - left. rewrite Heq. simpl. split; [done|].
    intros x y Hop. pose proof (Hall _ _ Hop) as Hxy. rewrite Heq in Hxy.
    simpl in Hxy. destruct Hop as [[? ?] _]. lia.
  - right. pose proof Hwit as ([y Hy] & _).
    pose proof (Hall _ _ Hy). pose proof Hy as [[? ?] _].
    split; [lia|]. by split.
Qed.

Lemma bounding_box_range (cv : bitmap) (box : bbox) :
  is_bounding_box cv box ->
  0 <= minX box <= maxX box /\ maxX box < bm_width cv /\
  0 <= minY box <= maxY box /\ maxY box < bm_height cv.
Proof.
  intros (Hall & [y1 H1] & [y2 H2] & [x3 H3] & [x4 H4]).
  pose proof (Hall _ _ H1). pose proof (Hall _ _ H3).
  destruct H1 as [[? ?] _], H2 as [[? ?] _], H3 as [[? ?] _], H4 as [[? ?] _].
  lia.
Qed.

(** The bounding box is unique. *)
Lemma bounding_box_unique (cv : bitmap) (b1 b2 : bbox) :
  is_bounding_box cv b1 -> is_bounding_box cv b2 -> b1 = b2.
Proof.
  intros (Hall1 & [y1 H1] & [y2 H2] & [x3 H3] & [x4 H4])
         (Hall2 & [y1' H1'] & [y2' H2'] & [x3' H3'] & [x4' H4']).
  pose proof (Hall2 _ _ H1). pose proof (Hall2 _ _ H2).
  pose proof (Hall2 _ _ H3). pose proof (Hall2 _ _ H4).
  pose proof (Hall1 _ _ H1'). pose proof (Hall1 _ _ H2').
  pose proof (Hall1 _ _ H3'). pose proof (Hall1 _ _ H4').
  destruct b1, b2. simpl in *. f_equal; lia.
Qed.

(** The raster [trimTransparentEdges] builds. *)
Lemma trimmed_cases (cv : bitmap) (padding : Z) :
  wf_bitmap cv -> 0 <= padding ->
  let b := find_bounds (bm_data cv) (bm_width cv) (bm_height cv) in
  let minX' := Z.max 0 (minX b - padding) in
  let minY' := Z.max 0 (minY b - padding) in
  let maxX' := Z.min (bm_width cv - 1) (maxX b + padding) in
  let maxY' := Z.min (bm_height cv - 1) (maxY b + padding) in
  ((forall x y, ~ opaque cv x y) /\ trimmed cv padding = (blank 1 1, true))
  \/ (is_bounding_box cv b /\
      exists out,
        trimmed cv padding = (out, false) /\
        wf_bitmap out /\
        bm_width out = maxX' - minX' + 1 /\
        bm_height out = maxY' - minY' + 1 /\
        forall x y k, inside out x y -> 0 <= k < 4 ->
                      byte_at out x y k = byte_at cv (minX' + x) (minY' + y) k).
Proof.
  intros Hwf Hpad b minX' minY' maxX' maxY'.
  pose proof Hwf as (Hw & Hh & _).
  destruct (find_bounds_cases cv) as [[Hmax Hnone]|[Hmax Hbox]]; fold b in Hmax.
  - left. split; [done|]. unfold trimmed. fold b. rewrite Hmax. done.
  - right. fold b in Hbox. split; [done|].
    pose proof (bounding_box_range _ _ Hbox) as (Hx & Hx' & Hy & Hy').
    unfold trimmed. fold b. destruct (Z.eqb_spec (maxX b) (-1)); [lia|].
    fold minX' minY' maxX' maxY'.
    assert (HW : 0 <= maxX' - minX' + 1 <= max_dim) by lia.
    assert (HH : 0 <= maxY' - minY' + 1 <= max_dim) by lia.
    rewrite !canvas_dim_id by done.
    eexists. split; [reflexivity|].
    assert (Hblank : wf_bitmap (blank (maxX' - minX' + 1) (maxY' - minY' + 1)))
      by by apply wf_blank.
    split; [by apply wf_paint|]. split; [done|]. split; [done|].
    intros x y k [Hxin Hyin] Hk. simpl in Hxin, Hyin.
    rewrite byte_at_paint by done.
    rewrite !Z.add_0_l, !Z.sub_0_r.
    destruct (in_range_true (Z.min 0 (maxX' - minX' + 1))
                (Z.max 0 (maxX' - minX' + 1)) x) as [_ ->]; [|lia].
    destruct (in_range_true (Z.min 0 (maxY' - minY' + 1))
                (Z.max 0 (maxY' - minY' + 1)) y) as [_ ->]; [|lia].
    destruct (insideb_true cv (minX' + x) (minY' + y)) as [_ ->]; [done|].
    split; lia.
Qed.

(* ================================================================= *)
(** * Properties of trimTransparentEdges *)

Lemma nonzero_dims (cv : bitmap) :
  0 < bm_width cv -> 0 < bm_height cv ->
  (bm_width cv =? 0) || (bm_height cv =? 0) = false.
Proof.
  intros Hw Hh. apply orb_false_iff. split; apply Z.eqb_neq; lia.
Qed.

(** C6.  On a canvas holding a raster of at least one pixel, with a padding
    that is not negative: when no pixel has alpha > 0 the result is a new
    1 x 1 transparent canvas with [isEmpty = true]; otherwise the result is a
    new canvas holding the copy of the bounding box of the pixels with
    alpha > 0, widened by [padding] on each side and clamped to the canvas,
    with [isEmpty = false]. *)
Theorem trimTransparentEdges_bounding_box
    (d : document) (c : canvas_id) (cv : bitmap) (padding : Z) :
  d !! c = Some cv -> wf_bitmap cv ->
  0 < bm_width cv -> 0 < bm_height cv -> 0 <= padding ->
  ((forall x y, ~ opaque cv x y) ->
   trimTransparentEdges c padding d = Ok ((length d, true), d ++ [blank 1 1]))
  /\ ((exists x y, opaque cv x y) ->
      exists box out,
        is_bounding_box cv box /\
        box = find_bounds (bm_data cv) (bm_width cv) (bm_height cv) /\
        let minX' := Z.max 0 (minX box - padding) in
        let minY' := Z.max 0 (minY box - padding) in
        let maxX' := Z.min (bm_width cv - 1) (maxX box + padding) in
        let maxY' := Z.min (bm_height cv - 1) (maxY box + padding) in
        trimTransparentEdges c padding d = Ok ((length d, false), d ++ [out]) /\
        bm_width out = maxX' - minX' + 1 /\
        bm_height out = maxY' - minY' + 1 /\
        wf_bitmap out /\
        forall x y k, inside out x y -> 0 <= k < 4 ->
                      byte_at out x y k = byte_at cv (minX' + x) (minY' + y) k).
Proof.
  intros Hc Hwf Hw Hh Hpad.
  rewrite (trimTransparentEdges_run d c cv) by done.
  rewrite nonzero_dims by done.
  destruct (trimmed_cases cv padding Hwf Hpad)
    as [[Hnone ->]|[Hbox (out & -> & Hout & Hwo & Hho & Hbytes)]].
  - split; [done|]. intros (x & y & Hop). by apply Hnone in Hop.
  - split.
    + intros Hnone. destruct Hbox as (_ & [y Hy] & _). by apply Hnone in Hy.
    + intros _. eexists _, out. split; [exact Hbox|]. split; [reflexivity|].
      simpl. done.
Qed.

(** C10.  The canvas returned for a raster of width [w >= 1] and height
    [h >= 1] and a padding that is not negative has a width between 1 and
    [w] and a height between 1 and [h]. *)
Theorem trimTransparentEdges_dimensions
    (d : document) (c : canvas_id) (cv : bitmap) (padding : Z) :
  d !! c = Some cv -> wf_bitmap cv ->
  1 <= bm_width cv -> 1 <= bm_height cv -> 0 <= padding ->
  exists result empty d' out,
    trimTransparentEdges c padding d = Ok ((result, empty), d') /\
    d' !! result = Some out /\
    1 <= bm_width out <= bm_width cv /\
    1 <= bm_height out <= bm_height cv.
Proof.
  intros Hc Hwf Hw Hh Hpad.
  rewrite (trimTransparentEdges_run d c cv) by done.
  rewrite nonzero_dims by lia.
  destruct (trimmed_cases cv padding Hwf Hpad)
    as [[Hnone ->]|[Hbox (out & -> & Hout & Hwo & Hho & Hbytes)]].
  - eexists _, _, _, _. split; [reflexivity|]. split; [apply lookup_snoc|].
    simpl. lia.
  - eexists _, _, _, _. split; [reflexivity|]. split; [apply lookup_snoc|].
    simpl. apply bounding_box_range in Hbox. lia.
Qed.

(** A raster cut to its bounding box has the whole raster as bounding box. *)
Lemma bounding_box_of_crop (cv out : bitmap) (box : bbox) :
  is_bounding_box cv box ->
  bm_width out = maxX box - minX box + 1 ->
  bm_height out = maxY box - minY box + 1 ->
  (forall x y, inside out x y ->
               byte_at out x y 3 = byte_at cv (minX box + x) (minY box + y) 3) ->
  is_bounding_box out {| minX := 0; minY := 0;
                         maxX := bm_width out - 1; maxY := bm_height out - 1 |}.
Proof.
  intros Hbox Hwo Hho Hbytes.
  pose proof (bounding_box_range _ _ Hbox) as (Hx & Hx' & Hy & Hy').
  destruct Hbox as (Hall & [y1 H1] & [y2 H2] & [x3 H3] & [x4 H4]).
  assert (Hmove : forall x y, opaque cv x y ->
                              opaque out (x - minX box) (y - minY box)).
  { intros x y Hop. pose proof (Hall _ _ Hop).
    assert (Hin : inside out (x - minX box) (y - minY box)) by (split; lia).
    split; [done|]. rewrite Hbytes by done.
    replace (minX box + (x - minX box)) with x by lia.
    replace (minY box + (y - minY box)) with y by lia.
    by destruct Hop. }
  split; [|repeat split]; simpl.
  - intros x y [[? ?] _]. lia.
  - exists (y1 - minY box). apply Hmove in H1. by rewrite Z.sub_diag in H1.
  - exists (y2 - minY box). apply Hmove in H2. by rewrite Hwo, Z.add_simpl_r.
  - exists (x3 - minX box). apply Hmove in H3. by rewrite Z.sub_diag in H3.
  - exists (x4 - minX box). apply Hmove in H4. by rewrite Hho, Z.add_simpl_r.
Qed.

Lemma trimmed_blank_1x1 : trimmed (blank 1 1) 0 = (blank 1 1, true).
Proof. reflexivity. Qed.

(** Trimming twice with padding 0, on rasters. *)
Lemma trimmed_idempotent (cv : bitmap) :
  wf_bitmap cv ->
  let out := fst (trimmed cv 0) in
  wf_bitmap out /\ 1 <= bm_width out /\ 1 <= bm_height out /\
  trimmed out 0 = trimmed cv 0 /\
  (snd (trimmed cv 0) = false ->
   find_bounds (bm_data out) (bm_width out) (bm_height out)
   = {| minX := 0; minY := 0;
        maxX := bm_width out - 1; maxY := bm_height out - 1 |}).
Proof.
  intros Hwf.
  destruct (trimmed_cases cv 0 Hwf ltac:(lia))
    as [[Hnone ->]|[Hbox (out & -> & Hout & Hwo & Hho & Hbytes)]]; simpl.
  - split; [apply wf_blank; unfold max_dim; lia|].
    split; [lia|]. split; [lia|]. split; [apply trimmed_blank_1x1|done].
  - pose proof (bounding_box_range _ _ Hbox) as (Hx & Hx' & Hy & Hy').
    rewrite !Z.sub_0_r, !Z.add_0_r in *.
    rewrite !Z.max_r, !Z.min_r in * by lia.
    split; [done|]. split; [lia|]. split; [lia|].
    assert (Hfull : is_bounding_box out
              {| minX := 0; minY := 0;
                 maxX := bm_width out - 1; maxY := bm_height out - 1 |}).
    { eapply bounding_box_of_crop; eauto. intros x y Hin. apply Hbytes; [done|lia]. }
    assert (Hfind : find_bounds (bm_data out) (bm_width out) (bm_height out)
                    = {| minX := 0; minY := 0;
                         maxX := bm_width out - 1; maxY := bm_height out - 1 |}).
    { destruct (find_bounds_cases out) as [[_ Hnone]|[_ Hbox2]].
      - destruct Hfull as (_ & [y Hy0] & _). by apply Hnone in Hy0.
      - eapply bounding_box_unique; eauto. }
    split; [|done].
    destruct (trimmed_cases out 0 Hout ltac:(lia))
      as [[Hnone _]|[_ (out2 & -> & Hout2 & Hwo2 & Hho2 & Hbytes2)]].
    { destruct Hfull as (_ & [y Hy0] & _). by apply Hnone in Hy0. }
    rewrite Hfind in *. simpl in *.
    rewrite !Z.sub_0_r, !Z.add_0_r in *.
    rewrite !Z.max_r, !Z.min_r in * by lia.
    f_equal. apply bitmap_ext; [done|done|lia|lia|].
    intros x y k Hin Hk. by rewrite Hbytes2.
Qed.

(** C8.  Trimming with padding 0 the canvas returned by a trim with padding
    0 returns a canvas with the same raster and the same [isEmpty]: the
    second scan finds the whole raster as bounding box and nothing is cut. *)
Theorem trimTransparentEdges_idempotent
    (d : document) (c : canvas_id) (cv : bitmap) :
  d !! c = Some cv -> wf_bitmap cv -> 0 < bm_width cv -> 0 < bm_height cv ->
  exists empty out,
    trimTransparentEdges c 0 d = Ok ((length d, empty), d ++ [out]) /\
    trimTransparentEdges (length d) 0 (d ++ [out])
    = Ok ((S (length d), empty), d ++ [out; out]) /\
    (empty = false ->
     find_bounds (bm_data out) (bm_width out) (bm_height out)
     = {| minX := 0; minY := 0;
          maxX := bm_width out - 1; maxY := bm_height out - 1 |}).
Proof.
  intros Hc Hwf Hw Hh.
  destruct (trimmed_idempotent cv Hwf) as (Hout & Hwo & Hho & Hagain & Hfull).
  exists (snd (trimmed cv 0)), (fst (trimmed cv 0)).
  rewrite (trimTransparentEdges_run d c cv) by done.
  rewrite nonzero_dims by done. split; [done|].
  rewrite (trimTransparentEdges_run _ _ (fst (trimmed cv 0)))
    by (done || apply lookup_snoc).
  rewrite nonzero_dims by lia. rewrite Hagain.
  rewrite length_app, Nat.add_1_r, <- app_assoc. done.
Qed.

(* ================================================================= *)
(** * Properties of extractTile *)

(** A source pixel of an image as the canvas reads it back. *)
Lemma source_byte_on_canvas (image : bitmap) (u v k : Z) :
  wf_bitmap image -> 0 <= k < 4 ->
  source_byte (on_canvas image) u v k
  = if k =? 3 then source_byte image u v 3
    else canvas_colour (source_byte image u v k) (source_byte image u v 3).
Proof.
  intros Himg Hk. unfold source_byte.
  change (insideb (on_canvas image) u v) with (insideb image u v).
  destruct (insideb image u v) eqn:Hin.
  - apply byte_at_on_canvas; [done| |done]. by apply insideb_true.
  - by destruct (k =? 3).
Qed.

(** The buffer of a tile of valid size: its size and its bytes. *)
Lemma tile_buffer_spec (image : bitmap) (settings : TileSettings) (row col : Z) :
  wf_bitmap image ->
  0 < tileWidth settings <= max_dim -> 0 < tileHeight settings <= max_dim ->
  let sourceX := margin settings + offsetX settings
                 + col * (tileWidth settings + spacing settings) in
  let sourceY := margin settings + offsetY settings
                 + row * (tileHeight settings + spacing settings) in
  let buf := tile_buffer image settings row col in
  wf_bitmap buf /\
  bm_width buf = tileWidth settings /\
  bm_height buf = tileHeight settings /\
  forall x y k, 0 <= x < tileWidth settings -> 0 <= y < tileHeight settings ->
                0 <= k < 4 ->
                byte_at buf x y k
                = source_byte (on_canvas image) (sourceX + x) (sourceY + y) k.
Proof.
  intros Himg Hw Hh sourceX sourceY buf.
  split; [by apply wf_tile_buffer|].
  unfold buf, tile_buffer. rewrite !canvas_dim_id by lia.
  split; [done|]. split; [done|].
  intros x y k Hx Hy Hk. fold sourceX sourceY.
  rewrite byte_at_paint; [| apply wf_blank; lia | done | done].
  rewrite !Z.add_0_l, !Z.sub_0_r.
  destruct (in_range_true (Z.min 0 (tileWidth settings))
              (Z.max 0 (tileWidth settings)) x) as [_ ->]; [|lia].
  destruct (in_range_true (Z.min 0 (tileHeight settings))
              (Z.max 0 (tileHeight settings)) y) as [_ ->]; [|lia].
  cbn [andb]. unfold source_byte. by rewrite byte_at_blank.
Qed.

Lemma tile_buffer_nonzero (image : bitmap) (settings : TileSettings) (row col : Z) :
  0 < tileWidth settings <= max_dim -> 0 < tileHeight settings <= max_dim ->
  (bm_width (tile_buffer image settings row col) =? 0)
  || (bm_height (tile_buffer image settings row col) =? 0) = false.
Proof.
  intros Hw Hh. unfold tile_buffer. rewrite paint_width, paint_height. simpl.
  rewrite !canvas_dim_id by lia. apply orb_false_iff.
  split; apply Z.eqb_neq; lia.
Qed.

(** C5 (counterexample).  The tile does not hold the bytes of the source
    rectangle when a pixel is half transparent: from the image of the one
    pixel (200, 100, 50, 128) the 1 x 1 tile reads (199, 100, 50, 128), as
    the canvas keeps the colour multiplied by alpha. *)
Lemma tile_colour_is_rounded_under_partial_alpha :
  ~ (forall image settings row col d,
        wf_bitmap image ->
        0 < tileWidth settings <= max_dim -> 0 < tileHeight settings <= max_dim ->
        exists tile buf rest,
          extractTile image settings row col d = Ok (tile, d ++ buf :: rest) /\
          forall x y k, 0 <= x < tileWidth settings -> 0 <= y < tileHeight settings ->
                        0 <= k < 4 ->
            byte_at buf x y k
            = source_byte image
                (margin settings + offsetX settings
                 + col * (tileWidth settings + spacing settings) + x)
                (margin settings + offsetY settings
                 + row * (tileHeight settings + spacing settings) + y) k).
Proof.
  intros H.
  destruct (H soft_pixel settings_1 0 0 []) as (tile & buf & rest & Hrun & Hbytes).
  - repeat split; try (by vm_compute). by repeat constructor.
  - by vm_compute.
  - by vm_compute.
  - vm_compute in Hrun. injection Hrun as _ <- _.
    specialize (Hbytes 0 0 0 ltac:(by vm_compute) ltac:(by vm_compute)
                       ltac:(lia)).
    vm_compute in Hbytes. discriminate Hbytes.
Qed.

(** C5 (as amended).  For tiles of valid size, [extractTile] allocates a
    new canvas of size [tileWidth] x [tileHeight] after the canvases of the
    store, which it leaves as they are, and draws the source rectangle with
    origin [(sourceX, sourceY)] on it.  The new canvas holds the alpha byte
    of every pixel of the rectangle and its colour bytes as a canvas keeps
    them: unchanged under alpha 255, 0 under alpha 0, rounded in between.
    Where the rectangle leaves the image nothing is drawn.  Without
    trimming this canvas is the canvas of the tile. *)
Theorem extractTile_copies_source_rectangle
    (image : bitmap) (settings : TileSettings) (row col : Z) (d : document) :
  wf_bitmap image ->
  0 < tileWidth settings <= max_dim -> 0 < tileHeight settings <= max_dim ->
  let sourceX := margin settings + offsetX settings
                 + col * (tileWidth settings + spacing settings) in
  let sourceY := margin settings + offsetY settings
                 + row * (tileHeight settings + spacing settings) in
  exists tile buf rest,
    extractTile image settings row col d = Ok (tile, d ++ buf :: rest) /\
    (trimTransparent settings = false -> canvas tile = length d /\ rest = []) /\
    bm_width buf = tileWidth settings /\
    bm_height buf = tileHeight settings /\
    forall x y, 0 <= x < tileWidth settings -> 0 <= y < tileHeight settings ->
      let alpha := source_byte image (sourceX + x) (sourceY + y) 3 in
      byte_at buf x y 3 = alpha /\
      forall k, 0 <= k < 3 ->
        let colour := source_byte image (sourceX + x) (sourceY + y) k in
        byte_at buf x y k = canvas_colour colour alpha /\
        (alpha = 255 -> byte_at buf x y k = colour) /\
        (alpha = 0 -> byte_at buf x y k = 0).
Proof.
  intros Himg Hw Hh sourceX sourceY.
  destruct (tile_buffer_spec image settings row col Himg Hw Hh)
    as (Hbuf & Hbw & Hbh & Hbytes).
  rewrite extractTile_run, tile_buffer_nonzero by done.
  exists (tile_of image settings row col (length d)),
         (tile_buffer image settings row col),
         (tl (tile_canvases image settings row col)).
  split; [|split; [|split; [done|split; [done|]]]].
  - do 2 f_equal. unfold tile_canvases. by destruct (trimTransparent settings).
  - unfold tile_of, tile_canvases. by intros ->.
  - intros x y Hx Hy alpha. fold sourceX sourceY in Hbytes. split.
    + rewrite Hbytes by lia. by rewrite source_byte_on_canvas by (done || lia).
    + intros k Hk colour. rewrite Hbytes by lia.
      rewrite source_byte_on_canvas by (done || lia).
      destruct (Z.eqb_spec k 3); [lia|]. fold colour alpha.
      split; [done|]. split; intros ->.
      * apply canvas_colour_opaque.
      * apply canvas_colour_transparent.
Qed.

Lemma trimmed_isEmpty (cv : bitmap) (padding : Z) :
  snd (trimmed cv padding) = true <-> forall x y, ~ opaque cv x y.
Proof.
  unfold trimmed.
  destruct (find_bounds_cases cv) as [[Hmax Hnone]|[Hmax Hbox]].
  - rewrite Hmax. simpl. done.
  - destruct (Z.eqb_spec (maxX (find_bounds (bm_data cv) (bm_width cv) (bm_height cv)))
                (-1)); [lia|].
    simpl. split; [done|]. intros Hnone.
    destruct Hbox as (_ & [y Hy] & _). by apply Hnone in Hy.
Qed.

Lemma no_opaque_iff (cv : bitmap) :
  wf_bitmap cv ->
  (forall x y, ~ opaque cv x y) <-> (forall x y, inside cv x y -> byte_at cv x y 3 = 0).
Proof.
  intros Hwf. split.
  - intros Hnone x y Hin. pose proof (byte_at_range cv x y 3 Hwf).
    destruct (decide (byte_at cv x y 3 = 0)) as [|Hne]; [done|].
    exfalso. apply (Hnone x y). split; [done|lia].
  - intros Hzero x y [Hin Hpos]. rewrite Hzero in Hpos by done. lia.
Qed.

(** [isEmpty] of the returned record, on either path. *)
Lemma tile_of_isEmpty (image : bitmap) (settings : TileSettings) (row col : Z)
    (base : nat) :
  wf_bitmap image ->
  let buf := tile_buffer image settings row col in
  isEmpty (tile_of image settings row col base) = true
  <-> forall x y, inside buf x y -> byte_at buf x y 3 = 0.
Proof.
  intros Himg buf. assert (Hbuf : wf_bitmap buf) by by apply wf_tile_buffer.
  unfold tile_of. fold buf. cbn [isEmpty]. destruct (trimTransparent settings).
  - by rewrite trimmed_isEmpty, no_opaque_iff.
  - by apply all_alpha_zero_bitmap.
Qed.

(** C9.  For tiles of valid size, with or without trimming: [isEmpty] is
    true when every pixel of the source rectangle has alpha 0, and false as
    soon as one of them has alpha > 0. *)
Theorem extractTile_isEmpty
    (image : bitmap) (settings : TileSettings) (row col : Z) (d : document) :
  wf_bitmap image ->
  0 < tileWidth settings <= max_dim -> 0 < tileHeight settings <= max_dim ->
  let sourceX := margin settings + offsetX settings
                 + col * (tileWidth settings + spacing settings) in
  let sourceY := margin settings + offsetY settings
                 + row * (tileHeight settings + spacing settings) in
  exists tile d',
    extractTile image settings row col d = Ok (tile, d') /\
    ((forall x y, 0 <= x < tileWidth settings -> 0 <= y < tileHeight settings ->
                  source_byte image (sourceX + x) (sourceY + y) 3 = 0)
     -> isEmpty tile = true) /\
    ((exists x y, 0 <= x < tileWidth settings /\ 0 <= y < tileHeight settings /\
                  0 < source_byte image (sourceX + x) (sourceY + y) 3)
     -> isEmpty tile = false).
Proof.
  intros Himg Hw Hh sourceX sourceY.
  destruct (tile_buffer_spec image settings row col Himg Hw Hh)
    as (Hbuf & Hbw & Hbh & Hbytes).
  rewrite extractTile_run, tile_buffer_nonzero by done.
  eexists _, _. split; [reflexivity|].
  pose proof (tile_of_isEmpty image settings row col (length d) Himg) as Hiff.
  cbv zeta in Hiff. split.
  - intros Hzero. apply Hiff. intros x y [Hx Hy].
    rewrite Hbytes, source_alpha_on_canvas by (done || lia). apply Hzero; lia.
  - intros (x & y & Hx & Hy & Hpos).
    apply not_true_is_false. intros Htrue.
    rewrite Hiff in Htrue. specialize (Htrue x y).
    rewrite Hbytes, source_alpha_on_canvas in Htrue by (done || lia).
    fold sourceX sourceY in Htrue. rewrite Htrue in Hpos; [lia|].
    split; lia.
Qed.

(* ================================================================= *)
(** * Running sliceSprite *)

(** With a finite bound and enough fuel the counting loop visits the
    indices from [i] up to the bound. *)
Lemma for_lt_fold {A : Type} (fuel : nat) (i n : Z) (body : Z -> A -> DOM A)
    (acc : A) (d : document) :
  (Z.to_nat (n - i) <= fuel)%nat ->
  for_lt fuel i (Fin n) body acc d = fold_dom body (seqZ i (n - i)) acc d.
Proof.
  revert i acc d. induction fuel as [|fuel IH]; intros i acc d Hfuel.
  - simpl. destruct (Z.ltb_spec i n); [lia|]. by rewrite seqZ_nil by lia.
  - simpl. destruct (Z.ltb_spec i n) as [Hlt|Hge].
    + rewrite seqZ_cons by lia. simpl. unfold bind.
      destruct (body i acc d) as [[acc' d']| |]; [|done|done].
      rewrite IH by lia. do 2 f_equal; lia.
    + by rewrite seqZ_nil by lia.
Qed.

Lemma fold_dom_pointwise {A : Type} (f g : Z -> A -> DOM A) (l : list Z)
    (acc : A) (d : document) :
  (forall i acc d, f i acc d = g i acc d) ->
  fold_dom f l acc d = fold_dom g l acc d.
Proof.
  intros Hfg. revert acc d. induction l as [|i l IH]; intros acc d; simpl; [done|].
  unfold bind. rewrite Hfg. destruct (g i acc d) as [[acc' d']| |]; [|done|done].
  apply IH.
Qed.

Lemma slice_cells_cons image settings row col rest base :
  slice_cells image settings ((row, col) :: rest) base
  = (tile_of image settings row col base
       :: fst (slice_cells image settings rest
                 (base + length (tile_canvases image settings row col))),
     tile_canvases image settings row col
       ++ snd (slice_cells image settings rest
                 (base + length (tile_canvases image settings row col)))).
Proof. simpl. by destruct (slice_cells _ _ _ _). Qed.

Lemma slice_cells_app image settings cells1 cells2 base :
  slice_cells image settings (cells1 ++ cells2) base
  = (fst (slice_cells image settings cells1 base)
       ++ fst (slice_cells image settings cells2
                 (base + length (snd (slice_cells image settings cells1 base)))),
     snd (slice_cells image settings cells1 base)
       ++ snd (slice_cells image settings cells2
                 (base + length (snd (slice_cells image settings cells1 base))))).
Proof.
  revert base. induction cells1 as [|[row col] cells1 IH]; intros base.
  - simpl. rewrite Nat.add_0_r. by destruct (slice_cells _ _ _ _).
  - rewrite <- app_comm_cons, !slice_cells_cons, IH. simpl.
    rewrite length_app, Nat.add_assoc, <- app_assoc. done.
Qed.

(** The inner loop of [sliceSprite] over the columns [cs] of one row. *)
Lemma slice_row_run image settings row (cs : list Z) tiles d :
  wf_bitmap image ->
  0 < tileWidth settings <= max_dim -> 0 < tileHeight settings <= max_dim ->
  fold_dom (fun col tiles =>
              let* tile := extractTile image settings row col in
              ret (tiles ++ [tile])) cs tiles d
  = Ok (tiles ++ fst (slice_cells image settings (map (pair row) cs) (length d)),
        d ++ snd (slice_cells image settings (map (pair row) cs) (length d))).
Proof.
  intros Himg Hw Hh. revert tiles d.
  induction cs as [|col cs IH]; intros tiles d.
  - simpl. unfold ret. by rewrite !app_nil_r.
  - simpl map. rewrite slice_cells_cons. simpl fold_dom. unfold bind at 1 2.
    rewrite extractTile_run, tile_buffer_nonzero by done.
    unfold ret at 1. rewrite IH, length_app, <- !app_assoc. done.
Qed.

(** The outer loop over the rows [rs]. *)
Lemma slice_rows_run image settings (ncols : Z) (rs : list Z) tiles d :
  wf_bitmap image ->
  0 < tileWidth settings <= max_dim -> 0 < tileHeight settings <= max_dim ->
  fold_dom (fun row tiles =>
              fold_dom (fun col tiles =>
                          let* tile := extractTile image settings row col in
                          ret (tiles ++ [tile])) (seqZ 0 ncols) tiles) rs tiles d
  = Ok (tiles ++ fst (slice_cells image settings
                        (flat_map (fun row => map (pair row) (seqZ 0 ncols)) rs)
                        (length d)),
        d ++ snd (slice_cells image settings
                    (flat_map (fun row => map (pair row) (seqZ 0 ncols)) rs)
                    (length d))).
Proof.
  intros Himg Hw Hh. revert tiles d.
  induction rs as [|row rs IH]; intros tiles d.
  - simpl. unfold ret. by rewrite !app_nil_r.
  - simpl fold_dom. unfold bind at 1. rewrite slice_row_run by done.
    rewrite IH. simpl flat_map. rewrite slice_cells_app. simpl.
    rewrite length_app, <- !app_assoc. done.
Qed.

(** [sliceSprite] on a finite grid with tiles of valid size: the tiles and
    the canvases of the cells in row-major order. *)
Lemma sliceSprite_run fuel image settings (nrows ncols : Z) total d :
  wf_bitmap image ->
  0 < tileWidth settings <= max_dim -> 0 < tileHeight settings <= max_dim ->
  (Z.to_nat nrows <= fuel)%nat -> (Z.to_nat ncols <= fuel)%nat ->
  sliceSprite fuel image settings
    {| rows := Fin nrows; cols := Fin ncols; totalTiles := total |} d
  = Ok (fst (slice_cells image settings (grid_cells nrows ncols) (length d)),
        d ++ snd (slice_cells image settings (grid_cells nrows ncols) (length d))).
Proof.
  intros Himg Hw Hh Hr Hc. unfold sliceSprite. cbn [rows cols].
  rewrite for_lt_fold by lia. rewrite Z.sub_0_r.
  rewrite (fold_dom_pointwise _
             (fun row tiles =>
                fold_dom (fun col tiles =>
                            let* tile := extractTile image settings row col in
                            ret (tiles ++ [tile])) (seqZ 0 ncols) tiles)); cycle 1.
  { intros row tiles d'. rewrite for_lt_fold by lia. by rewrite Z.sub_0_r. }
  by rewrite slice_rows_run.
Qed.

(* ================================================================= *)
(** * The index of a tile *)

Lemma bind_Ok_inv {A B : Type} (m : DOM A) (k : A -> DOM B) (d : document)
    (r : B * document) :
  bind m k d = Ok r -> exists a d', m d = Ok (a, d') /\ k a d' = Ok r.
Proof.
  unfold bind. destruct (m d) as [[a d']| |]; [|done|done]. eauto.
Qed.

(** The fields [extractTile] copies into the record. *)
Lemma extractTile_fields image settings r c d tile d' :
  extractTile image settings r c d = Ok (tile, d') ->
  row tile = r /\ col tile = c /\ index tile = tile_index image settings r c.
Proof.
  unfold extractTile. intros H.
  apply bind_Ok_inv in H as (tileCanvas & d1 & _ & H).
  apply bind_Ok_inv in H as (? & d2 & _ & H).
  apply bind_Ok_inv in H as (? & d3 & _ & H).
  apply bind_Ok_inv in H as (? & d4 & _ & H).
  apply bind_Ok_inv in H as ([finalCanvas empty] & d5 & _ & H).
  unfold ret in H. injection H as <- _. done.
Qed.

Lemma grid_cells_2x2 : grid_cells 2 2 = [(0, 0); (0, 1); (1, 0); (1, 1)].
Proof. reflexivity. Qed.

(** C4.  The index of an extracted tile is [row * n + col], where [n] is
    recomputed inside [extractTile] from the width of the image by the
    column formula; the column count of the [GridInfo] passed to
    [sliceSprite] is not used.  This holds for the tile that [extractTile]
    returns for tiles of valid size, and for every tile it returns when
    [tileWidth > 0] (for a [tileWidth] that is not positive, which
    [validateSettings] rejects, the code counts one column).  On a 64 x 64
    image with 32 x 32 tiles and no margin, spacing or offset the four
    tiles get the indices 0, 1, 2, 3 in row-major order. *)
Theorem extractTile_index :
  (forall image settings row col d,
      wf_bitmap image ->
      0 < tileWidth settings <= max_dim -> 0 < tileHeight settings <= max_dim ->
      exists tile d',
        extractTile image settings row col d = Ok (tile, d') /\
        index tile
        = Num.add
            (Num.mul (Fin row)
               (Num.floor_div
                  (bm_width image - margin settings * 2 - offsetX settings
                   + spacing settings)
                  (tileWidth settings + spacing settings)))
            (Fin col))
  /\ (forall image settings row col d tile d',
         0 < tileWidth settings ->
         extractTile image settings row col d = Ok (tile, d') ->
         index tile
         = Num.add
             (Num.mul (Fin row)
                (Num.floor_div
                   (bm_width image - margin settings * 2 - offsetX settings
                    + spacing settings)
                   (tileWidth settings + spacing settings)))
             (Fin col))
  /\ (forall image trim padding hasAlpha fuel d,
         wf_bitmap image -> bm_width image = 64 -> bm_height image = 64 ->
         (2 <= fuel)%nat ->
         exists tiles d',
           sliceSprite fuel image (settings_32 trim padding)
             (calculateGrid (settings_32 trim padding)
                {| width := 64; height := 64; hasAlpha := hasAlpha |}) d
           = Ok (tiles, d')
           /\ map (fun t => (row t, col t, index t)) tiles
              = [(0, 0, Fin 0); (0, 1, Fin 1); (1, 0, Fin 2); (1, 1, Fin 3)]).
Proof.
  assert (Hformula : forall image settings r c d tile d',
             0 < tileWidth settings ->
             extractTile image settings r c d = Ok (tile, d') ->
             index tile
             = Num.add
                 (Num.mul (Fin r)
                    (Num.floor_div
                       (bm_width image - margin settings * 2 - offsetX settings
                        + spacing settings)
                       (tileWidth settings + spacing settings)))
                 (Fin c)).
  { intros image settings r c d tile d' Hpos H.
    apply extractTile_fields in H as (_ & _ & ->). unfold tile_index.
    by destruct (Z.ltb_spec 0 (tileWidth settings)); [|lia]. }
  split; [|split; [exact Hformula|]].
  - intros image settings r c d Himg Hw Hh.
    destruct (extractTile image settings r c d) as [[tile d']| |] eqn:E.
    + exists tile, d'. split; [done|]. eapply Hformula; [lia|exact E].
    + by rewrite extractTile_run, tile_buffer_nonzero in E.
    + by rewrite extractTile_run, tile_buffer_nonzero in E.
  - intros image trim padding hasAlpha fuel d Himg Hw Hh Hfuel.
    change (calculateGrid _ _)
      with {| rows := Fin 2; cols := Fin 2; totalTiles := Fin 4 |}.
    rewrite sliceSprite_run; [|done|by unfold max_dim|by unfold max_dim|lia|lia].
    eexists _, _. split; [reflexivity|].
    rewrite grid_cells_2x2, !slice_cells_cons.
    cbn [map fst slice_cells tile_of row col index].
    unfold tile_index. rewrite Hw. reflexivity.
Qed.

(** C4 on an image of width 4 with tiles of width 2, at row 1 and
    column 0. *)
Lemma extractTile_index_witness :
  exists tile d',
    extractTile (blank 4 4) (mkTileSettings 2 2 0 0 0 0 false 0) 1 0 []
    = Ok (tile, d')
    /\ index tile = Fin 2.
Proof.
  destruct (proj1 extractTile_index (blank 4 4)
              (mkTileSettings 2 2 0 0 0 0 false 0) 1 0 [])
    as (tile & d' & Hrun & Hindex).
  - apply wf_blank; by vm_compute.
  - by vm_compute.
  - by vm_compute.
  - exists tile, d'. split; [exact Hrun|]. rewrite Hindex. reflexivity.
Defined.

(* ================================================================= *)
(** * Slicing and re-assembling a sheet *)

(** The cells of a grid, by position. *)
Lemma grid_cells_closed_form (nrows ncols : Z) :
  0 <= nrows -> 0 < ncols ->
  grid_cells nrows ncols
  = map (fun k => (k / ncols, k mod ncols)) (seqZ 0 (nrows * ncols)).
Proof.
  intros Hr Hc. rewrite <- (Z2Nat.id nrows) by done.
  induction (Z.to_nat nrows) as [|n IH].
  - reflexivity.
  - unfold grid_cells in *.
    rewrite Nat2Z.inj_succ, <- Z.add_1_r.
    rewrite seqZ_app by lia. rewrite flat_map_app, IH.
    replace ((Z.of_nat n + 1) * ncols) with (Z.of_nat n * ncols + ncols) by lia.
    rewrite seqZ_app, map_app by lia. f_equal.
    rewrite (seqZ_cons (0 + Z.of_nat n) 1), (seqZ_nil _ (Z.pred 1)) by lia. simpl.
    rewrite app_nil_r, !Z.add_0_l.
    replace (seqZ (Z.of_nat n * ncols) ncols)
      with (Z.add (Z.of_nat n * ncols) <$> seqZ 0 ncols)
      by (by rewrite fmap_add_seqZ, Z.add_0_r).
    change (Z.add (Z.of_nat n * ncols) <$> seqZ 0 ncols)
      with (map (Z.add (Z.of_nat n * ncols)) (seqZ 0 ncols)).
    rewrite map_map. apply map_ext_in. intros j Hj.
    apply list_elem_of_In, elem_of_seqZ in Hj.
    f_equal.
    + apply Z.div_unique with j; lia.
    + apply Z.mod_unique with (Z.of_nat n); lia.
Qed.

Lemma lookup_grid_cells (nrows ncols : Z) (k : nat) (r c : Z) :
  0 <= nrows -> 0 < ncols ->
  grid_cells nrows ncols !! k = Some (r, c)
  <-> 0 <= r < nrows /\ 0 <= c < ncols /\ Z.of_nat k = r * ncols + c.
Proof.
  intros Hr Hc. rewrite grid_cells_closed_form by done.
  change (map ?f ?l) with (f <$> l). rewrite list_lookup_fmap.
  destruct (decide (Z.of_nat k < nrows * ncols)) as [Hk|Hk].
  - rewrite lookup_seqZ_lt by done. simpl. rewrite Z.add_0_l.
    pose proof (Z.div_mod (Z.of_nat k) ncols ltac:(lia)).
    pose proof (Z.mod_pos_bound (Z.of_nat k) ncols ltac:(lia)).
    split.
    + intros [= <- <-]. split; [|lia]. split; [apply Z.div_pos; lia|].
      apply Z.div_lt_upper_bound; lia.
    + intros (Hr' & Hc' & Heq). do 2 f_equal.
      * symmetry. apply Z.div_unique with c; lia.
      * symmetry. apply Z.mod_unique with r; lia.
  - rewrite lookup_seqZ_ge by lia. simpl. split; [done|]. nia.
Qed.

Lemma length_grid_cells (nrows ncols : Z) :
  0 <= nrows -> 0 < ncols ->
  Z.of_nat (length (grid_cells nrows ncols)) = nrows * ncols.
Proof.
  intros Hr Hc. rewrite grid_cells_closed_form by done.
  rewrite length_map, length_seqZ. nia.
Qed.

(** Without trimming every cell allocates one canvas, its buffer. *)
Lemma slice_cells_untrimmed image settings cells base :
  trimTransparent settings = false ->
  fst (slice_cells image settings cells base)
  = imap (fun k cell => tile_of image settings (fst cell) (snd cell) (base + k))
         cells
  /\ snd (slice_cells image settings cells base)
     = map (fun cell => tile_buffer image settings (fst cell) (snd cell)) cells.
Proof.
  intros Htrim. revert base. induction cells as [|[r c] cells IH]; intros base.
  - done.
  - rewrite slice_cells_cons. unfold tile_canvases. rewrite Htrim. simpl.
    destruct (IH (base + 1)%nat) as [-> ->]. rewrite Nat.add_0_r.
    split; [|done]. f_equal. apply imap_ext. intros k cell _. simpl.
    f_equal. lia.
Qed.

(** Drawing tiles that hold the pixels of [image] under their own rectangle
    makes every covered pixel of the sheet equal to that of [image]. *)
Lemma place_tiles_bytes (d : document) (settings : TileSettings) (image : bitmap)
    (tiles : list TileData) (sheet : bitmap) :
  0 < tileWidth settings -> 0 < tileHeight settings ->
  wf_bitmap sheet ->
  (forall t, In t tiles ->
     exists cv, d !! canvas t = Some cv /\ wf_bitmap cv /\
                bm_width cv = tileWidth settings /\
                bm_height cv = tileHeight settings /\
                forall x y k, inside cv x y -> 0 <= k < 4 ->
                  byte_at cv x y k
                  = byte_at image (col t * tileWidth settings + x)
                                  (row t * tileHeight settings + y) k) ->
  let result := fold_left (place_tile d settings) tiles sheet in
  wf_bitmap result /\
  bm_width result = bm_width sheet /\
  bm_height result = bm_height sheet /\
  forall x y k, inside sheet x y -> 0 <= k < 4 ->
    byte_at sheet x y k = byte_at image x y k
    \/ (exists t, In t tiles /\
          col t * tileWidth settings <= x < col t * tileWidth settings + tileWidth settings /\
          row t * tileHeight settings <= y < row t * tileHeight settings + tileHeight settings) ->
    byte_at result x y k = byte_at image x y k.
Proof.
  intros Htw Hth. revert sheet.
  induction tiles as [|t tiles IH]; intros sheet Hsheet Hgood; simpl.
  - split; [done|]. split; [done|]. split; [done|].
    intros x y k _ _ [H|(t & [] & _)]. done.
  - destruct (Hgood t ltac:(by left)) as (cv & Hcv & Hwf & Hcw & Hch & Hbytes).
    set (sheet1 := place_tile d settings sheet t).
    assert (Heq1 : sheet1 = paint sheet cv 0 0 (tileWidth settings) (tileHeight settings)
                     (col t * tileWidth settings) (row t * tileHeight settings)
                     (tileWidth settings) (tileHeight settings)).
    { unfold sheet1, place_tile. by rewrite Hcv, Hcw, Hch. }
    assert (Hwf1 : wf_bitmap sheet1) by (rewrite Heq1; by apply wf_paint).
    destruct (IH sheet1 Hwf1) as (Hres & Hw & Hh & Hall).
    { intros t' Hin. apply Hgood. by right. }
    split; [done|]. split; [by rewrite Hw, Heq1|]. split; [by rewrite Hh, Heq1|].
    intros x y k Hin Hk Hcases. apply Hall; [by rewrite Heq1|done|].
    rewrite Heq1 at 1. rewrite byte_at_paint by done.
    rewrite !Z.add_0_l.
    destruct (in_range _ _ x && in_range _ _ y && insideb cv _ _) eqn:Hcond.
    + left. apply andb_true_iff in Hcond as [_ Hcv_in].
      apply insideb_true in Hcv_in. rewrite Hbytes by done. f_equal; lia.
    + destruct Hcases as [Hold|(t' & [<-|Hin'] & Hx & Hy)]; [by left| |by eauto].
      exfalso. rewrite <- not_true_iff_false in Hcond. apply Hcond.
      rewrite !andb_true_iff, !in_range_true, insideb_true.
      unfold inside. rewrite Hcw, Hch. lia.
Qed.

Lemma calculateGrid_dividing (settings : TileSettings) (meta : ImageMetadata) :
  0 < tileWidth settings -> 0 < tileHeight settings ->
  0 <= width meta -> 0 <= height meta ->
  margin settings = 0 -> spacing settings = 0 ->
  offsetX settings = 0 -> offsetY settings = 0 ->
  calculateGrid settings meta
  = {| rows := Fin (height meta / tileHeight settings);
       cols := Fin (width meta / tileWidth settings);
       totalTiles := Fin (height meta / tileHeight settings
                          * (width meta / tileWidth settings)) |}.
Proof.
  intros Htw Hth Hw Hh Hm Hs Hox Hoy.
  pose proof (Z.div_pos (width meta) (tileWidth settings) Hw Htw).
  pose proof (Z.div_pos (height meta) (tileHeight settings) Hh Hth).
  pose proof (calculateGrid_consistent settings meta) as Hgrid.
  cbv zeta in Hgrid. rewrite Hm, Hs, Hox, Hoy in Hgrid.
  rewrite !Z.mul_0_l, !Z.sub_0_r, !Z.add_0_r in Hgrid.
  rewrite Hgrid by lia. by rewrite !Z.max_r.
Qed.

(** C7 (counterexample).  The 4 x 4 sheet whose transparent pixels carry a
    colour is not reconstructed pixel-for-pixel from its four tiles of
    2 x 2: a canvas returns the colour 0 for a pixel of alpha 0. *)
Lemma reassembly_drops_colour_of_transparent_pixels :
  ~ (forall image settings hasAlpha fuel d,
        wf_bitmap image -> 0 < bm_width image -> 0 < bm_height image ->
        0 < tileWidth settings -> 0 < tileHeight settings ->
        (tileWidth settings | bm_width image) ->
        (tileHeight settings | bm_height image) ->
        margin settings = 0 -> spacing settings = 0 ->
        offsetX settings = 0 -> offsetY settings = 0 ->
        trimTransparent settings = false ->
        (Z.to_nat (bm_height image / tileHeight settings) <= fuel)%nat ->
        (Z.to_nat (bm_width image / tileWidth settings) <= fuel)%nat ->
        exists tiles d',
          sliceSprite fuel image settings
            (calculateGrid settings
               {| width := bm_width image; height := bm_height image;
                  hasAlpha := hasAlpha |}) d
          = Ok (tiles, d') /\
          reassemble d' settings tiles (bm_width image) (bm_height image) = image).
Proof.
  intros H.
  destruct (H tiny_sheet (settings_2 false) true 2%nat [])
    as (tiles & d' & Hrun & Hback);
    try (by vm_compute); try (by exists 2).
  - apply wf_raster_of; [by unfold max_dim|by unfold max_dim|].
    intros x y c. destruct (c =? 3).
    + destruct (_ && _); lia.
    + pose proof (Z.mod_pos_bound (x + 10 * y) 256 ltac:(lia)). lia.
  - vm_compute in Hrun. injection Hrun as <- <-.
    vm_compute in Hback. discriminate Hback.
Qed.

(** C7 (as amended).  For an image whose width and height are multiples of
    the tile width and height, with no margin, spacing or offset and without
    trimming, [sliceSprite] on the grid of [calculateGrid] returns
    [rows * cols] tiles; every pixel of the image lies in the source
    rectangle of exactly one of them and every source rectangle lies in the
    image; and drawing the tiles at [(col * tileWidth, row * tileHeight)] on
    a blank raster of the size of the image gives the image as a canvas
    holds it: every alpha byte, the colour bytes of every pixel of alpha
    255, and 0 for the colour bytes of a pixel of alpha 0; in between the
    colour is rounded as [on_canvas] says.  An image without transparency
    comes back pixel for pixel. *)
Theorem sliceSprite_round_trip
    (image : bitmap) (settings : TileSettings) (hasAlpha : bool)
    (fuel : nat) (d : document) :
  wf_bitmap image -> 0 < bm_width image -> 0 < bm_height image ->
  0 < tileWidth settings -> 0 < tileHeight settings ->
  (tileWidth settings | bm_width image) ->
  (tileHeight settings | bm_height image) ->
  margin settings = 0 -> spacing settings = 0 ->
  offsetX settings = 0 -> offsetY settings = 0 ->
  trimTransparent settings = false ->
  let nrows := bm_height image / tileHeight settings in
  let ncols := bm_width image / tileWidth settings in
  let gridInfo :=
    calculateGrid settings
      {| width := bm_width image; height := bm_height image;
         hasAlpha := hasAlpha |} in
  (Z.to_nat nrows <= fuel)%nat -> (Z.to_nat ncols <= fuel)%nat ->
  exists tiles d',
    sliceSprite fuel image settings gridInfo d = Ok (tiles, d') /\
    rows gridInfo = Fin nrows /\ cols gridInfo = Fin ncols /\
    Z.of_nat (length tiles) = nrows * ncols /\
    (forall x y, inside image x y ->
       exists k tile,
         tiles !! k = Some tile /\ in_source_rect settings tile x y /\
         forall k' tile', tiles !! k' = Some tile' ->
                          in_source_rect settings tile' x y -> k' = k) /\
    (forall tile x y, In tile tiles -> in_source_rect settings tile x y ->
                      inside image x y) /\
    reassemble d' settings tiles (bm_width image) (bm_height image)
    = on_canvas image /\
    (forall x y k, inside image x y -> 0 <= k < 4 ->
       let sheet :=
         reassemble d' settings tiles (bm_width image) (bm_height image) in
       byte_at sheet x y 3 = byte_at image x y 3 /\
       (byte_at image x y 3 = 255 -> byte_at sheet x y k = byte_at image x y k) /\
       (byte_at image x y 3 = 0 -> byte_at sheet x y k = 0)) /\
    ((forall x y, inside image x y -> byte_at image x y 3 = 255) ->
     reassemble d' settings tiles (bm_width image) (bm_height image) = image).
Proof.
  intros Himg HW HH Htw Hth [ncols' Hdw] [nrows' Hdh] Hm Hs Hox Hoy Htrim
         nrows ncols gridInfo Hfr Hfc.
  pose proof Himg as (HWmax & HHmax & _).
  assert (Hnc : ncols = ncols') by (unfold ncols; rewrite Hdw; by apply Z.div_mul, Z.neq_sym, Z.lt_neq).
  assert (Hnr : nrows = nrows') by (unfold nrows; rewrite Hdh; by apply Z.div_mul, Z.neq_sym, Z.lt_neq).
  rewrite <- Hnc in Hdw. rewrite <- Hnr in Hdh. clear Hnc Hnr ncols' nrows'.
  assert (Hncpos : 0 < ncols) by nia.
  assert (Hnrpos : 0 < nrows) by nia.
  assert (Htwmax : 0 < tileWidth settings <= max_dim) by nia.
  assert (Hthmax : 0 < tileHeight settings <= max_dim) by nia.
  unfold gridInfo. rewrite calculateGrid_dividing by (done || (simpl; lia)).
  cbn [width height rows cols]. fold nrows ncols.
  rewrite sliceSprite_run by done.
  destruct (slice_cells_untrimmed image settings (grid_cells nrows ncols)
              (length d) Htrim) as [Htiles Hstore].
  rewrite Htiles, Hstore.
  set (cells := grid_cells nrows ncols).
  set (tiles := imap _ cells).
  eexists tiles, _. split; [reflexivity|]. split; [done|]. split; [done|].
  assert (Hlookup : forall k tile,
             tiles !! k = Some tile <->
             exists r c, cells !! k = Some (r, c) /\
                         tile = tile_of image settings r c (length d + k)).
  { intros k tile. unfold tiles. rewrite list_lookup_imap.
    destruct (cells !! k) as [[r c]|]; simpl.
    - split.
      + intros [= <-]. eauto.
      + intros (r' & c' & [= <- <-] & ->). done.
    - split; [done|]. by intros (? & ? & ? & _). }
  assert (Hrect : forall r c base x y,
             in_source_rect settings (tile_of image settings r c base) x y
             <-> c * tileWidth settings <= x < c * tileWidth settings + tileWidth settings
                 /\ r * tileHeight settings <= y < r * tileHeight settings + tileHeight settings).
  { intros r c base x y. unfold in_source_rect, tile_of. cbn [row col].
    rewrite Hm, Hs, Hox, Hoy, !Z.add_0_l, !Z.add_0_r. done. }
  split.
  { unfold tiles. rewrite length_imap. by apply length_grid_cells; lia. }
  split.
  { intros x y [Hx Hy].
    pose proof (Z.div_mod x (tileWidth settings) ltac:(lia)) as Hxdm.
    pose proof (Z.mod_pos_bound x (tileWidth settings) Htw) as Hxm.
    pose proof (Z.div_mod y (tileHeight settings) ltac:(lia)) as Hydm.
    pose proof (Z.mod_pos_bound y (tileHeight settings) Hth) as Hym.
    set (c := x / tileWidth settings) in *.
    set (r := y / tileHeight settings) in *.
    assert (Hc : 0 <= c < ncols) by nia.
    assert (Hr : 0 <= r < nrows) by nia.
    exists (Z.to_nat (r * ncols + c)),
           (tile_of image settings r c (length d + Z.to_nat (r * ncols + c))).
    split.
    { apply Hlookup. exists r, c. split; [|done].
      apply lookup_grid_cells; [lia|lia|]. split; [done|]. split; [done|]. nia. }
    split; [apply Hrect; lia|].
    intros k' tile' Hk' Hin'.
    apply Hlookup in Hk' as (r' & c' & Hcell & ->).
    apply Hrect in Hin' as [Hx' Hy'].
    apply lookup_grid_cells in Hcell as (Hr' & Hc' & Heq); [|lia|lia].
    assert (c' = c) by nia. assert (r' = r) by nia. subst c' r'. lia. }
  assert (Hbuffers : forall t, In t tiles ->
            exists r c, 0 <= r < nrows /\ 0 <= c < ncols /\ row t = r /\ col t = c /\
              (d ++ map (fun cell => tile_buffer image settings (fst cell) (snd cell)) cells)
                !! canvas t = Some (tile_buffer image settings r c) /\
              (forall x y, in_source_rect settings t x y <->
                 c * tileWidth settings <= x < c * tileWidth settings + tileWidth settings
                 /\ r * tileHeight settings <= y < r * tileHeight settings + tileHeight settings)).
  { intros t Hin. apply list_elem_of_In, list_elem_of_lookup in Hin as [k Hk].
    apply Hlookup in Hk as (r & c & Hcell & ->).
    pose proof Hcell as Hcell'.
    apply lookup_grid_cells in Hcell' as (Hr & Hc & _); [|lia|lia].
    exists r, c. split; [done|]. split; [done|]. split; [done|]. split; [done|].
    split; [|intros x y; apply Hrect].
    unfold tile_of. cbn [canvas]. rewrite Htrim.
    rewrite lookup_app_r by lia.
    replace (length d + k - length d)%nat with k by lia.
    change (map ?f ?l) with (f <$> l).
    by rewrite list_lookup_fmap, Hcell. }
  split.
  { intros t x y Hin Hsrc.
    destruct (Hbuffers t Hin) as (r & c & Hr & Hc & _ & _ & _ & Hiff).
    apply Hiff in Hsrc. split; nia. }
  assert (Hback : reassemble
                     (d ++ map (fun cell => tile_buffer image settings
                                              (fst cell) (snd cell)) cells)
                     settings tiles (bm_width image) (bm_height image)
                   = on_canvas image); cycle 1.
  { rewrite Hback. split; [done|]. split.
    - intros x y k Hin Hk. cbv zeta. rewrite !byte_at_on_canvas by (done || lia).
      simpl. split; [done|].
      destruct (Z.eqb_spec k 3) as [->|_]; [split; by intros ->|].
      split; intros ->; [apply canvas_colour_opaque|apply canvas_colour_transparent].
    - intros Hopaque. by apply on_canvas_opaque. }
  unfold reassemble.
  set (d' := d ++ _) in *.
  destruct (place_tiles_bytes d' settings (on_canvas image) tiles
              (blank (bm_width image) (bm_height image)) Htw Hth)
    as (Hres & Hrw & Hrh & Hbytes).
  { apply wf_blank; lia. }
  { intros t Hin.
    destruct (Hbuffers t Hin) as (r & c & Hr & Hc & Hrow & Hcol & Hcv & _).
    destruct (tile_buffer_spec image settings r c Himg Htwmax Hthmax)
      as (Hbuf & Hbw & Hbh & Hbb).
    exists (tile_buffer image settings r c).
    split; [done|]. split; [done|]. split; [done|]. split; [done|].
    intros x y k [Hx Hy] Hk. rewrite Hbb by lia.
    rewrite Hm, Hs, Hox, Hoy, !Z.add_0_l, !Z.add_0_r, Hrow, Hcol.
    unfold source_byte.
    destruct (insideb_true (on_canvas image) (c * tileWidth settings + x)
                (r * tileHeight settings + y)) as [_ ->]; [done|].
    apply inside_on_canvas. split; nia. }
  apply bitmap_ext; try done; [by apply wf_on_canvas|].
  intros x y k Hin Hk. unfold inside in Hin. rewrite Hrw, Hrh in Hin.
  apply Hbytes; [done|done|]. right.
  simpl in Hin. destruct Hin as [Hx Hy].
  pose proof (Z.div_mod x (tileWidth settings) ltac:(lia)) as Hxdm.
  pose proof (Z.mod_pos_bound x (tileWidth settings) Htw) as Hxm.
  pose proof (Z.div_mod y (tileHeight settings) ltac:(lia)) as Hydm.
  pose proof (Z.mod_pos_bound y (tileHeight settings) Hth) as Hym.
  set (c := x / tileWidth settings) in *.
  set (r := y / tileHeight settings) in *.
  assert (Hc : 0 <= c < ncols) by nia.
  assert (Hr : 0 <= r < nrows) by nia.
  exists (tile_of image settings r c (length d + Z.to_nat (r * ncols + c))).
  split.
  - apply list_elem_of_In, list_elem_of_lookup. exists (Z.to_nat (r * ncols + c)).
    apply Hlookup. exists r, c. split; [|done].
    apply lookup_grid_cells; [lia|lia|]. split; [done|]. split; [done|]. nia.
  - unfold tile_of. cbn [row col]. lia.
Qed.

(* ================================================================= *)
(** * Auto-detection *)

(** Drawing a whole image on a blank canvas of its size copies it. *)
Lemma paint_whole (image : bitmap) :
  wf_bitmap image ->
  paint (blank (bm_width image) (bm_height image)) image
        0 0 (bm_width image) (bm_height image)
        0 0 (bm_width image) (bm_height image)
  = image.
Proof.
  intros Himg. pose proof Himg as (Hw & Hh & _).
  assert (Hblank : wf_bitmap (blank (bm_width image) (bm_height image)))
    by by apply wf_blank.
  apply bitmap_ext; [by apply wf_paint|done|done|done|].
  intros x y k Hin Hk. rewrite byte_at_paint by done.
  destruct Hin as [Hx Hy]. simpl in Hx, Hy.
  rewrite !Z.add_0_l, !Z.sub_0_r.
  destruct (in_range_true (Z.min 0 (bm_width image))
              (Z.max 0 (bm_width image)) x) as [_ ->]; [|lia].
  destruct (in_range_true (Z.min 0 (bm_height image))
              (Z.max 0 (bm_height image)) y) as [_ ->]; [|lia].
  destruct (insideb_true image x y) as [_ ->]; done.
Qed.

(** Drawing a whole image on a blank canvas of its size, and reading the
    canvas back. *)
Lemma paint_image_whole (image : bitmap) :
  wf_bitmap image ->
  paint (blank (bm_width image) (bm_height image)) (on_canvas image)
        0 0 (bm_width image) (bm_height image)
        0 0 (bm_width image) (bm_height image)
  = on_canvas image.
Proof. intros Himg. exact (paint_whole (on_canvas image) (wf_on_canvas _ Himg)). Qed.

Lemma getImageData_image (image : bitmap) (c : canvas_id) (d : document) :
  d !! c = Some (on_canvas image) -> wf_bitmap image ->
  0 < bm_width image -> 0 < bm_height image ->
  getImageData c 0 0 (bm_width image) (bm_height image) d
  = Ok (on_canvas image, d).
Proof.
  intros Hc Himg Hw Hh.
  pose proof (getImageData_whole d c (on_canvas image) Hc (wf_on_canvas _ Himg))
    as Hread.
  rewrite nonzero_dims in Hread by done. exact Hread.
Qed.

(** [autoDetectTileSize] reads the image back from a new canvas and tries
    the common sizes on it. *)
Lemma autoDetectTileSize_run (image : bitmap) (d : document) :
  wf_bitmap image -> 0 < bm_width image -> 0 < bm_height image ->
  autoDetectTileSize image d
  = Ok (first_detected (on_canvas image) commonSizes, d ++ [on_canvas image]).
Proof.
  intros Himg Hw Hh. pose proof Himg as (Hwmax & Hhmax & _).
  unfold autoDetectTileSize. rewrite new_canvas_Ok.
  rewrite !canvas_dim_id by done.
  erewrite bind_Ok; cycle 1.
  { apply drawImage_Ok, lookup_snoc. }
  rewrite insert_snoc, paint_image_whole by done.
  unfold bind. by rewrite getImageData_image by (done || apply lookup_snoc).
Qed.

(** The loop counts at most one line per round. *)
Lemma count_vertical_bound data width height tileWidth (l : list Z) (n : Z) :
  fold_left (count_vertical data width height tileWidth) l n
  <= n + Z.of_nat (length l).
Proof.
  revert n. induction l as [|c l IH]; intros n; simpl; [lia|].
  etransitivity; [apply IH|]. unfold count_vertical.
  destruct (_ <? _); [destruct (vertical_consistent _ _ _ _ _ _)|]; lia.
Qed.

(** A size that gives two or three columns is never accepted, however
    transparent its grid lines are: one or two consistent lines do not
    reach 0.7 times the number of columns. *)
Lemma tryDetectGrid_few_columns (imageData : bitmap) (tileWidth tileHeight : Z) :
  bm_width imageData / tileWidth <= 3 ->
  tryDetectGrid imageData tileWidth tileHeight = None.
Proof.
  intros Hcols. unfold tryDetectGrid.
  destruct (_ || _) eqn:Hfew; [done|].
  apply orb_false_iff in Hfew as [Hc Hr]. apply Z.ltb_ge in Hc, Hr.
  pose proof (count_vertical_bound (bm_data imageData) (bm_width imageData)
                (bm_height imageData) tileWidth
                (seqZ 1 (bm_width imageData / tileWidth - 1)) 0) as Hbound.
  rewrite length_seqZ in Hbound.
  destruct (Z.leb_spec (7 * (bm_width imageData / tileWidth))
              (10 * fold_left (count_vertical (bm_data imageData)
                      (bm_width imageData) (bm_height imageData) tileWidth)
                      (seqZ 1 (bm_width imageData / tileWidth - 1)) 0));
    [lia|done].
Qed.

(** The gutters of the sheet are transparent black and its tiles opaque:
    a canvas returns the sheet as it is. *)
Lemma gutter_sheet_on_canvas : on_canvas gutter_sheet = gutter_sheet.
Proof. by vm_compute. Qed.

(** C2 (evaluation at the failing input).  On the 32 x 32 sheet of 2 x 2
    tiles of 16 x 16 with transparent gutters, size 16 gives two columns
    and two rows; its internal vertical line and its internal horizontal
    line are both consistent, that is all of them; yet the size is not
    accepted, because the count 1 is compared with [0.7 * 2], and the
    detection returns no result. *)
Theorem autoDetectTileSize_rejects_2x2_sheet (d : document) :
  bm_width gutter_sheet / 16 = 2 /\ bm_height gutter_sheet / 16 = 2
  /\ fold_left (count_vertical (bm_data gutter_sheet) 32 32 16) (seqZ 1 1) 0 = 1
  /\ fold_left (count_horizontal (bm_data gutter_sheet) 32 32 16) (seqZ 1 1) 0 = 1
  /\ tryDetectGrid gutter_sheet 16 16 = None
  /\ autoDetectTileSize gutter_sheet d = Ok (None, d ++ [gutter_sheet]).
Proof.
  split; [reflexivity|]. split; [reflexivity|].
  split; [vm_compute; reflexivity|]. split; [vm_compute; reflexivity|].
  split; [by apply tryDetectGrid_few_columns|].
  assert (Hnone : first_detected gutter_sheet commonSizes = None).
  { unfold commonSizes, first_detected.
    by rewrite !tryDetectGrid_few_columns. }
  rewrite autoDetectTileSize_run.
  - by rewrite gutter_sheet_on_canvas, Hnone.
  - apply wf_raster_of; [by unfold max_dim|by unfold max_dim|].
    intros x y c. destruct (_ || _); [|destruct (c =? 3)]; lia.
  - done.
  - done.
Qed.

(* ================================================================= *)
(** * The statements at concrete inputs *)

Lemma wf_tiny_sheet : wf_bitmap tiny_sheet.
Proof.
  apply wf_raster_of; [by unfold max_dim|by unfold max_dim|].
  intros x y c. destruct (c =? 3).
  - destruct (_ && _); lia.
  - pose proof (Z.mod_pos_bound (x + 10 * y) 256 ltac:(lia)). lia.
Qed.

Lemma opaque_tiny_sheet : opaque tiny_sheet 1 2.
Proof. split; [split; by vm_compute|by vm_compute]. Qed.

(** The validation of a 10 x 10 image against tiles of width 20. *)
Example validateSettings_10x10_width_20 :
  validateSettings
    {| tileWidth := 20; tileHeight := 10; margin := 0; spacing := 0;
       offsetX := 0; offsetY := 0; trimTransparent := false;
       preservePadding := 0 |}
    {| width := 10; height := 10; hasAlpha := true |}
  = ["Image width (10px) is too small for current settings (requires at least 20px)"].
Proof. reflexivity. Qed.

Lemma wf_soft_pixel : wf_bitmap soft_pixel.
Proof.
  repeat split; try (by vm_compute). repeat constructor; by vm_compute.
Qed.

(** C5 at the image of one half-transparent pixel: alpha 128 is kept and
    the colour byte 200 reads 199. *)
Lemma extractTile_copies_source_rectangle_witness :
  exists tile buf rest,
    extractTile soft_pixel settings_1 0 0 [] = Ok (tile, [] ++ buf :: rest)
    /\ canvas tile = 0%nat
    /\ bm_width buf = 1 /\ bm_height buf = 1
    /\ byte_at buf 0 0 3 = 128 /\ byte_at buf 0 0 0 = 199.
Proof.
  destruct (extractTile_copies_source_rectangle soft_pixel settings_1 0 0 []
              wf_soft_pixel)
    as (tile & buf & rest & Hrun & Hcanvas & Hw & Hh & Hbytes);
    [by vm_compute|by vm_compute|].
  pose proof (Hbytes 0 0 ltac:(by vm_compute) ltac:(by vm_compute)) as Hpixel.
  cbv zeta in Hpixel. destruct Hpixel as [Halpha Hcolour].
  destruct (Hcolour 0 ltac:(lia)) as (Hrounded & _ & _).
  exists tile, buf, rest.
  split; [exact Hrun|]. split; [apply Hcanvas; reflexivity|].
  split; [exact Hw|]. split; [exact Hh|]. split; [exact Halpha|exact Hrounded].
Defined.

(** C6 on the 4 x 4 sheet with a padding of 1. *)
Lemma trimTransparentEdges_bounding_box_witness :
  exists box out,
    is_bounding_box tiny_sheet box
    /\ trimTransparentEdges 0%nat 1 [tiny_sheet]
       = Ok ((1%nat, false), [tiny_sheet] ++ [out])
    /\ bm_width out = 3 /\ bm_height out = 3.
Proof.
  destruct (trimTransparentEdges_bounding_box [tiny_sheet] 0%nat tiny_sheet 1
              eq_refl wf_tiny_sheet) as [_ Hsome];
    [by vm_compute|by vm_compute|by vm_compute|].
  destruct Hsome as (box & out & Hbox & Hfind & Hrun & Hw & Hh & _).
  { exists 1, 2. exact opaque_tiny_sheet. }
  exists box, out. split; [exact Hbox|]. split; [exact Hrun|].
  rewrite Hw, Hh, Hfind. split; reflexivity.
Defined.

(** C7 on the 4 x 4 sheet cut into four tiles of 2 x 2. *)
Lemma sliceSprite_round_trip_witness :
  exists tiles d',
    sliceSprite 2 tiny_sheet (settings_2 false)
      (calculateGrid (settings_2 false)
         {| width := 4; height := 4; hasAlpha := true |}) []
    = Ok (tiles, d')
    /\ Z.of_nat (length tiles) = 4
    /\ reassemble d' (settings_2 false) tiles 4 4 = on_canvas tiny_sheet.
Proof.
  destruct (sliceSprite_round_trip tiny_sheet (settings_2 false) true 2 []
              wf_tiny_sheet)
    as (tiles & d' & Hrun & _ & _ & Hlen & _ & _ & Hback & _ & _);
    try (by vm_compute); try (by exists 2).
  exists tiles, d'. split; [exact Hrun|]. split; [exact Hlen|exact Hback].
Defined.

(** C8 on the 4 x 4 sheet. *)
Lemma trimTransparentEdges_idempotent_witness :
  exists empty out,
    trimTransparentEdges 0%nat 0 [tiny_sheet] = Ok ((1%nat, empty), [tiny_sheet] ++ [out])
    /\ trimTransparentEdges 1%nat 0 ([tiny_sheet] ++ [out])
       = Ok ((2%nat, empty), [tiny_sheet] ++ [out; out]).
Proof.
  destruct (trimTransparentEdges_idempotent [tiny_sheet] 0%nat tiny_sheet
              eq_refl wf_tiny_sheet)
    as (empty & out & Hfirst & Hsecond & _);
    [by vm_compute|by vm_compute|].
  exists empty, out. split; [exact Hfirst|exact Hsecond].
Defined.

(** C9 at the lower left tile of the 4 x 4 sheet, with trimming. *)
Lemma extractTile_isEmpty_witness :
  exists tile d',
    extractTile tiny_sheet (settings_2 true) 1 0 [] = Ok (tile, d')
    /\ isEmpty tile = false.
Proof.
  destruct (extractTile_isEmpty tiny_sheet (settings_2 true) 1 0 [] wf_tiny_sheet)
    as (tile & d' & Hrun & _ & Hfalse);
    [by vm_compute|by vm_compute|].
  exists tile, d'. split; [exact Hrun|].
  apply Hfalse. exists 1, 0. by vm_compute.
Defined.

(** C10 on the 4 x 4 sheet with a padding of 5. *)
Lemma trimTransparentEdges_dimensions_witness :
  exists result empty d' out,
    trimTransparentEdges 0%nat 5 [tiny_sheet] = Ok ((result, empty), d')
    /\ d' !! result = Some out
    /\ 1 <= bm_width out <= 4 /\ 1 <= bm_height out <= 4.
Proof.
  exact (trimTransparentEdges_dimensions [tiny_sheet] 0%nat tiny_sheet 5
           eq_refl wf_tiny_sheet
           ltac:(by vm_compute) ltac:(by vm_compute) ltac:(by vm_compute)).
Defined.

(* ================================================================= *)
(** * Further properties: the grid of validated settings *)

(** The grid when the two divisors are positive. *)
Lemma calculateGrid_positive_divisors (settings : TileSettings) (meta : ImageMetadata) :
  0 < tileWidth settings + spacing settings ->
  0 < tileHeight settings + spacing settings ->
  rows (calculateGrid settings meta)
  = Fin (Z.max 0 ((height meta - margin settings * 2 - offsetY settings
                   + spacing settings)
                  / (tileHeight settings + spacing settings)))
  /\ cols (calculateGrid settings meta)
     = Fin (Z.max 0 ((width meta - margin settings * 2 - offsetX settings
                      + spacing settings)
                     / (tileWidth settings + spacing settings))).
Proof.
  intros Hw Hh. unfold calculateGrid, Num.floor_div.
  destruct (Z.eqb_spec (tileWidth settings + spacing settings) 0); [lia|].
  destruct (Z.eqb_spec (tileHeight settings + spacing settings) 0); [lia|].
  done.
Qed.

Lemma validateSettings_nil_feasible (settings : TileSettings) (meta : ImageMetadata) :
  validateSettings settings meta = [] -> feasible settings meta.
Proof.
  unfold validateSettings. rewrite !push_if_nil.
  rewrite !Z.leb_gt, !Z.ltb_ge. unfold feasible. intuition lia.
Qed.

(** X1.  Settings that pass [validateSettings] give a finite grid with at
    least one row and one column whose [totalTiles] is [rows * cols]. *)
Theorem validated_grid_has_tiles (settings : TileSettings) (meta : ImageMetadata) :
  validateSettings settings meta = [] ->
  exists r c,
    calculateGrid settings meta
    = {| rows := Fin r; cols := Fin c; totalTiles := Fin (r * c) |}
    /\ 1 <= r /\ 1 <= c.
Proof.
  intros Hvalid.
  destruct (validateSettings_nil_feasible _ _ Hvalid)
    as (Htw & Hth & Hm & Hs & Hox & Hoy & Hw & Hh).
  set (c := (width meta - margin settings * 2 - offsetX settings + spacing settings)
            / (tileWidth settings + spacing settings)).
  set (r := (height meta - margin settings * 2 - offsetY settings + spacing settings)
            / (tileHeight settings + spacing settings)).
  assert (Hc : 1 <= c).
  { apply Z.div_le_lower_bound; lia. }
  assert (Hr : 1 <= r).
  { apply Z.div_le_lower_bound; lia. }
  exists r, c. split; [|done].
  rewrite calculateGrid_consistent; fold c r; [|lia..].
  by rewrite !Z.max_r by lia.
Qed.

(** X2.  With positive tile sizes and a margin, spacing and offsets that
    are not negative, every cell of the grid of [calculateGrid] has its
    source rectangle inside the image, at least [margin] away from the right
    and lower border, and the grid cannot be extended: the rectangle of one
    more column or row would pass that line. *)
Theorem grid_cells_fit_and_are_maximal (settings : TileSettings) (meta : ImageMetadata) :
  0 < tileWidth settings -> 0 < tileHeight settings ->
  0 <= margin settings -> 0 <= spacing settings ->
  0 <= offsetX settings -> 0 <= offsetY settings ->
  let sourceX col := margin settings + offsetX settings
                     + col * (tileWidth settings + spacing settings) in
  let sourceY row := margin settings + offsetY settings
                     + row * (tileHeight settings + spacing settings) in
  exists r c,
    rows (calculateGrid settings meta) = Fin r /\
    cols (calculateGrid settings meta) = Fin c /\
    0 <= r /\ 0 <= c /\
    (forall row col, 0 <= row < r -> 0 <= col < c ->
       0 <= sourceX col /\
       sourceX col + tileWidth settings <= width meta - margin settings /\
       0 <= sourceY row /\
       sourceY row + tileHeight settings <= height meta - margin settings) /\
    width meta - margin settings < sourceX c + tileWidth settings /\
    height meta - margin settings < sourceY r + tileHeight settings.
Proof.
  intros Htw Hth Hm Hs Hox Hoy sourceX sourceY.
  destruct (calculateGrid_positive_divisors settings meta) as [-> ->]; [lia|lia|].
  set (a := width meta - margin settings * 2 - offsetX settings + spacing settings).
  set (b := height meta - margin settings * 2 - offsetY settings + spacing settings).
  set (sw := tileWidth settings + spacing settings).
  set (sh := tileHeight settings + spacing settings).
  pose proof (Z.div_mod a sw ltac:(lia)) as Ha.
  pose proof (Z.mod_pos_bound a sw ltac:(lia)) as Ha'.
  pose proof (Z.div_mod b sh ltac:(lia)) as Hb.
  pose proof (Z.mod_pos_bound b sh ltac:(lia)) as Hb'.
  eexists _, _. split; [reflexivity|]. split; [reflexivity|].
  split; [lia|]. split; [lia|].
  unfold sourceX, sourceY. fold sw sh. split; [|split].
  - intros row col Hrow Hcol. repeat split; nia.
  - destruct (Z.max_spec 0 (a / sw)) as [[? ->]|[? ->]]; nia.
  - destruct (Z.max_spec 0 (b / sh)) as [[? ->]|[? ->]]; nia.
Qed.

(** X3.  With positive tile sizes and a spacing that is not negative the
    source rectangles of two tiles share a pixel only if the tiles have the
    same row and column. *)
Theorem source_rectangles_disjoint
    (settings : TileSettings) (t1 t2 : TileData) (x y : Z) :
  0 < tileWidth settings -> 0 < tileHeight settings -> 0 <= spacing settings ->
  in_source_rect settings t1 x y -> in_source_rect settings t2 x y ->
  row t1 = row t2 /\ col t1 = col t2.
Proof.
  unfold in_source_rect. intros Htw Hth Hs [Hx1 Hy1] [Hx2 Hy2]. split; nia.
Qed.

(* ================================================================= *)
(** * Further properties: sliceSprite and extractTile at the edges *)

Lemma slice_cells_fields image settings cells base :
  map (fun t => (row t, col t, index t)) (fst (slice_cells image settings cells base))
  = map (fun cell => (fst cell, snd cell,
                      tile_index image settings (fst cell) (snd cell))) cells.
Proof.
  revert base. induction cells as [|[r c] cells IH]; intros base; [done|].
  rewrite slice_cells_cons. cbn [fst snd map]. by rewrite IH.
Qed.

Lemma grid_cells_no_columns (nrows ncols : Z) :
  ncols <= 0 -> grid_cells nrows ncols = [].
Proof.
  intros Hc. unfold grid_cells. rewrite (seqZ_nil 0 ncols) by done.
  induction (seqZ 0 nrows) as [|r rs IH]; [done|]. simpl. apply IH.
Qed.

(** [sliceSprite] on the grid [calculateGrid] gives for the same image. *)
Lemma sliceSprite_calculated_grid
    (image : bitmap) (settings : TileSettings) (meta : ImageMetadata)
    (fuel : nat) (d : document) :
  wf_bitmap image -> width meta = bm_width image ->
  0 < tileWidth settings <= max_dim -> 0 < tileHeight settings <= max_dim ->
  0 <= spacing settings ->
  let r := Z.max 0 ((height meta - margin settings * 2 - offsetY settings
                     + spacing settings)
                    / (tileHeight settings + spacing settings)) in
  let c := Z.max 0 ((width meta - margin settings * 2 - offsetX settings
                     + spacing settings)
                    / (tileWidth settings + spacing settings)) in
  (Z.to_nat r <= fuel)%nat -> (Z.to_nat c <= fuel)%nat ->
  exists tiles d',
    sliceSprite fuel image settings (calculateGrid settings meta) d = Ok (tiles, d') /\
    rows (calculateGrid settings meta) = Fin r /\
    cols (calculateGrid settings meta) = Fin c /\
    Z.of_nat (length tiles) = r * c /\
    forall k t, tiles !! k = Some t ->
      row t = Z.of_nat k / c /\ col t = Z.of_nat k mod c /\
      index t = Fin (Z.of_nat k).
Proof.
  intros Himg Hwidth Htw Hth Hs r c Hfr Hfc.
  destruct (calculateGrid_positive_divisors settings meta) as [Hr Hc]; [lia|lia|].
  fold r in Hr. fold c in Hc.
  destruct (calculateGrid settings meta) as [gr gc gt] eqn:Hgrid.
  cbn [rows cols] in *. subst gr gc.
  rewrite sliceSprite_run by done.
  eexists _, _. split; [reflexivity|]. split; [done|]. split; [done|].
  set (tiles := fst (slice_cells image settings (grid_cells r c) (length d))).
  pose proof (slice_cells_fields image settings (grid_cells r c) (length d))
    as Hfields. fold tiles in Hfields.
  assert (Hlen : length tiles = length (grid_cells r c)).
  { apply (f_equal length) in Hfields. by rewrite !length_map in Hfields. }
  destruct (decide (c = 0)) as [Hc0|Hc0].
  { rewrite Hc0 in *. rewrite grid_cells_no_columns in * by lia.
    split; [simpl in Hlen; lia|].
    intros k t Hk. apply lookup_lt_Some in Hk. simpl in Hlen. lia. }
  assert (Hcpos : 0 < c) by lia.
  split; [rewrite Hlen; apply length_grid_cells; lia|].
  intros k t Hk.
  assert (Hkf : map (fun t => (row t, col t, index t)) tiles !! k
                = Some (row t, col t, index t)).
  { change (map ?f ?l) with (f <$> l). by rewrite list_lookup_fmap, Hk. }
  rewrite Hfields in Hkf.
  change (map ?f ?l) with (f <$> l) in Hkf. rewrite list_lookup_fmap in Hkf.
  destruct (grid_cells r c !! k) as [[r0 c0]|] eqn:Hcell; [|done].
  simpl in Hkf. injection Hkf as <- <- Hindex.
  apply lookup_grid_cells in Hcell as (Hr0 & Hc0' & Hpos); [|lia|lia].
  split; [apply Z.div_unique with c0; lia|].
  split; [apply Z.mod_unique with r0; lia|].
  rewrite <- Hindex. unfold tile_index.
  destruct (Z.ltb_spec 0 (tileWidth settings)); [|lia].
  unfold Num.floor_div.
  destruct (Z.eqb_spec (tileWidth settings + spacing settings) 0); [lia|].
  rewrite <- Hwidth. simpl. f_equal. rewrite Hpos. unfold c.
  rewrite Z.max_r; [done|]. unfold c in Hcpos. lia.
Qed.

(** X4.  On the grid [calculateGrid] gives for the same image,
    [sliceSprite] returns [rows * cols] tiles in row-major order, and the
    index [extractTile] recomputes for each tile is its position in the
    list: the two column formulas agree. *)
Theorem sliceSprite_index_is_position
    (image : bitmap) (settings : TileSettings) (meta : ImageMetadata)
    (fuel : nat) (d : document) :
  wf_bitmap image -> width meta = bm_width image ->
  0 < tileWidth settings <= max_dim -> 0 < tileHeight settings <= max_dim ->
  0 <= spacing settings ->
  let r := Z.max 0 ((height meta - margin settings * 2 - offsetY settings
                     + spacing settings)
                    / (tileHeight settings + spacing settings)) in
  let c := Z.max 0 ((width meta - margin settings * 2 - offsetX settings
                     + spacing settings)
                    / (tileWidth settings + spacing settings)) in
  (Z.to_nat r <= fuel)%nat -> (Z.to_nat c <= fuel)%nat ->
  exists tiles d',
    sliceSprite fuel image settings (calculateGrid settings meta) d = Ok (tiles, d') /\
    rows (calculateGrid settings meta) = Fin r /\
    cols (calculateGrid settings meta) = Fin c /\
    Z.of_nat (length tiles) = r * c /\
    forall k t, tiles !! k = Some t ->
      row t = Z.of_nat k / c /\ col t = Z.of_nat k mod c /\
      index t = Fin (Z.of_nat k).
Proof. apply sliceSprite_calculated_grid. Qed.

Lemma for_lt_nothing {A : Type} (fuel : nat) (i : Z) (bound : number)
    (body : Z -> A -> DOM A) (acc : A) (d : document) :
  Num.ltb (Fin i) bound = false -> for_lt fuel i bound body acc d = Ok (acc, d).
Proof. intros H. destruct fuel; cbn [for_lt]; by rewrite H. Qed.

(** X5.  A grid without rows or without columns gives no tile and leaves
    the store as it is, whatever the settings: when [rows] is not greater
    than 0 (a number that is not positive, [-Infinity] or [NaN]) for every
    fuel, and when [cols] is not greater than 0 as soon as the fuel covers
    the rows. *)
Theorem sliceSprite_empty_grid
    (image : bitmap) (settings : TileSettings) (gridInfo : GridInfo)
    (fuel : nat) (d : document) :
  (Num.ltb (Fin 0) (rows gridInfo) = false ->
   sliceSprite fuel image settings gridInfo d = Ok ([], d))
  /\ (forall r, rows gridInfo = Fin r -> (Z.to_nat r <= fuel)%nat ->
                Num.ltb (Fin 0) (cols gridInfo) = false ->
                sliceSprite fuel image settings gridInfo d = Ok ([], d)).
Proof.
  unfold sliceSprite. split.
  - intros Hrows. by apply for_lt_nothing.
  - intros r Hr Hfuel Hcols. rewrite Hr, for_lt_fold by lia.
    generalize (seqZ 0 (r - 0)). intros l.
    induction l as [|row l IH]; [done|].
    simpl. unfold bind. by rewrite for_lt_nothing.
Qed.

(** A loop whose body does not throw does not throw. *)
Lemma for_lt_never_throws {A : Type} (fuel : nat) (i : Z) (bound : number)
    (body : Z -> A -> DOM A) (acc : A) (d : document) (e : exn) :
  (forall i acc d e, body i acc d <> Throws e) ->
  for_lt fuel i bound body acc d <> Throws e.
Proof.
  intros Hbody. revert i acc d.
  induction fuel as [|fuel IH]; intros i acc d; cbn [for_lt];
    destruct (Num.ltb (Fin i) bound); try done.
  unfold bind. specialize (Hbody i acc d).
  destruct (body i acc d) as [[acc' d']|e'|]; [apply IH| |done].
  by destruct (Hbody e').
Qed.

(** A loop up to [Infinity] whose body does not throw uses up every fuel. *)
Lemma for_lt_infinite {A : Type} (fuel : nat) (i : Z) (body : Z -> A -> DOM A)
    (acc : A) (d : document) :
  (forall i acc d e, body i acc d <> Throws e) ->
  for_lt fuel i PosInf body acc d = OutOfFuel.
Proof.
  intros Hbody. revert i acc d.
  induction fuel as [|fuel IH]; intros i acc d; cbn [for_lt Num.ltb]; [done|].
  unfold bind. specialize (Hbody i acc d).
  destruct (body i acc d) as [[acc' d']|e'|]; [apply IH| |done].
  by destruct (Hbody e').
Qed.

(** X6.  With tiles of valid size, when [tileHeight + spacing] is 0 (the
    spacing is minus the tile height) and there is room below the margins,
    [calculateGrid] gives [rows = Infinity], and [sliceSprite] on that grid
    neither returns nor throws: its loop over the rows has no end, every
    fuel runs out. *)
Theorem sliceSprite_infinite_rows_never_returns
    (image : bitmap) (settings : TileSettings) (meta : ImageMetadata)
    (fuel : nat) (d : document) :
  wf_bitmap image ->
  0 < tileWidth settings <= max_dim -> 0 < tileHeight settings <= max_dim ->
  tileHeight settings + spacing settings = 0 ->
  0 < height meta - margin settings * 2 - offsetY settings + spacing settings ->
  rows (calculateGrid settings meta) = PosInf
  /\ sliceSprite fuel image settings (calculateGrid settings meta) d = OutOfFuel.
Proof.
  intros Himg Hw Hh Hzero Hroom.
  assert (Hrows : rows (calculateGrid settings meta) = PosInf).
  { unfold calculateGrid, Num.floor_div. cbn [rows]. rewrite Hzero. simpl.
    destruct (Z.ltb_spec 0 (height meta - margin settings * 2 - offsetY settings
                            + spacing settings)); [done|lia]. }
  split; [done|]. unfold sliceSprite. rewrite Hrows. apply for_lt_infinite.
  intros row tiles d1 e1. apply for_lt_never_throws.
  intros col tiles' d2 e2. unfold bind.
  by rewrite extractTile_run, tile_buffer_nonzero by done.
Qed.

(** X7.  A tile width or tile height of 0 makes [extractTile] throw
    [IndexSizeError], with or without trimming: reading the pixels of the
    empty tile canvas fails. *)
Theorem extractTile_zero_size_throws
    (image : bitmap) (settings : TileSettings) (row col : Z) (d : document) :
  wf_bitmap image ->
  tileWidth settings = 0 \/ tileHeight settings = 0 ->
  extractTile image settings row col d = Throws IndexSizeError.
Proof.
  intros Himg Hzero. rewrite extractTile_run by done.
  unfold tile_buffer. rewrite paint_width, paint_height. cbn [bm_width bm_height blank].
  destruct Hzero as [-> | ->].
  - by rewrite (canvas_dim_id 300 0) by (unfold max_dim; lia).
  - rewrite (canvas_dim_id 150 0) by (unfold max_dim; lia).
    by rewrite orb_true_r.
Qed.

(* ================================================================= *)
(** * Further properties: what trimming keeps *)

(** X8.  Trimming loses no visible pixel: when the canvas has a pixel with
    alpha > 0 the result is the canvas shifted by some offset, and every
    pixel with alpha > 0 is found in it, with its four bytes, at its
    position minus the offset. *)
Theorem trimTransparentEdges_keeps_visible_pixels
    (d : document) (c : canvas_id) (cv : bitmap) (padding x0 y0 : Z) :
  d !! c = Some cv -> wf_bitmap cv ->
  0 < bm_width cv -> 0 < bm_height cv -> 0 <= padding ->
  opaque cv x0 y0 ->
  exists out dx dy,
    trimTransparentEdges c padding d = Ok ((length d, false), d ++ [out]) /\
    forall x y k, opaque cv x y -> 0 <= k < 4 ->
      inside out (x - dx) (y - dy) /\
      byte_at out (x - dx) (y - dy) k = byte_at cv x y k.
Proof.
  intros Hc Hwf Hw Hh Hpad Hop.
  rewrite (trimTransparentEdges_run d c cv) by done.
  rewrite nonzero_dims by done.
  destruct (trimmed_cases cv padding Hwf Hpad)
    as [[Hnone _]|[Hbox (out & -> & Hout & Hwo & Hho & Hbytes)]].
  { by apply Hnone in Hop. }
  pose proof (bounding_box_range _ _ Hbox) as (Hx & Hx' & Hy & Hy').
  set (b := find_bounds (bm_data cv) (bm_width cv) (bm_height cv)) in *.
  exists out, (Z.max 0 (minX b - padding)), (Z.max 0 (minY b - padding)).
  split; [done|]. intros x y k Hxy Hk.
  destruct Hbox as (Hall & _). pose proof (Hall _ _ Hxy) as Hin.
  destruct Hxy as [[? ?] _].
  assert (Hinside : inside out (x - Z.max 0 (minX b - padding))
                               (y - Z.max 0 (minY b - padding))).
  { unfold inside. rewrite Hwo, Hho. lia. }
  split; [done|]. rewrite Hbytes by done. f_equal; lia.
Qed.

(** X9.  Without padding the result has no transparent border left: its
    first and last column and its first and last row each hold a pixel
    with alpha > 0. *)
Theorem trimTransparentEdges_is_tight
    (d : document) (c : canvas_id) (cv : bitmap) (x0 y0 : Z) :
  d !! c = Some cv -> wf_bitmap cv ->
  0 < bm_width cv -> 0 < bm_height cv ->
  opaque cv x0 y0 ->
  exists out,
    trimTransparentEdges c 0 d = Ok ((length d, false), d ++ [out]) /\
    (exists y, opaque out 0 y) /\
    (exists y, opaque out (bm_width out - 1) y) /\
    (exists x, opaque out x 0) /\
    (exists x, opaque out x (bm_height out - 1)).
Proof.
  intros Hc Hwf Hw Hh Hop.
  rewrite (trimTransparentEdges_run d c cv) by done.
  rewrite nonzero_dims by done.
  destruct (trimmed_cases cv 0 Hwf ltac:(lia))
    as [[Hnone _]|[Hbox (out & -> & Hout & Hwo & Hho & Hbytes)]].
  { by apply Hnone in Hop. }
  pose proof (bounding_box_range _ _ Hbox) as (Hx & Hx' & Hy & Hy').
  rewrite !Z.sub_0_r, !Z.add_0_r in *.
  rewrite !Z.max_r, !Z.min_r in * by lia.
  exists out. split; [done|].
  assert (Hfull : is_bounding_box out
            {| minX := 0; minY := 0;
               maxX := bm_width out - 1; maxY := bm_height out - 1 |}).
  { eapply bounding_box_of_crop; eauto. intros x y Hin. apply Hbytes; [done|lia]. }
  by destruct Hfull as (_ & H1 & H2 & H3 & H4).
Qed.

(** X10.  A padding that reaches over the whole canvas gives the canvas
    back: on a canvas with a pixel of alpha > 0, a padding of at least its
    width and height makes the result a copy of the whole raster. *)
Theorem trimTransparentEdges_large_padding_copies
    (d : document) (c : canvas_id) (cv : bitmap) (padding x0 y0 : Z) :
  d !! c = Some cv -> wf_bitmap cv ->
  0 < bm_width cv -> 0 < bm_height cv ->
  bm_width cv <= padding -> bm_height cv <= padding ->
  opaque cv x0 y0 ->
  trimTransparentEdges c padding d = Ok ((length d, false), d ++ [cv]).
Proof.
  intros Hc Hwf Hw Hh Hpw Hph Hop.
  rewrite (trimTransparentEdges_run d c cv) by done.
  rewrite nonzero_dims by done.
  destruct (trimmed_cases cv padding Hwf ltac:(lia))
    as [[Hnone _]|[Hbox (out & -> & Hout & Hwo & Hho & Hbytes)]].
  { by apply Hnone in Hop. }
  pose proof (bounding_box_range _ _ Hbox) as (Hx & Hx' & Hy & Hy').
  rewrite !Z.max_l, !Z.min_l in * by lia.
  assert (Heq : out = cv).
  { apply bitmap_ext; [done|done|lia|lia|].
    intros x y k Hin Hk. by rewrite Hbytes. }
  by rewrite Heq.
Qed.

(* ================================================================= *)
(** * Further properties: what auto-detection can return *)

Lemma count_horizontal_bound data width height tileHeight (l : list Z) (n : Z) :
  fold_left (count_horizontal data width height tileHeight) l n
  <= n + Z.of_nat (length l).
Proof.
  revert n. induction l as [|c l IH]; intros n; simpl; [lia|].
  etransitivity; [apply IH|]. unfold count_horizontal.
  destruct (_ <? _); [destruct (horizontal_consistent _ _ _ _ _)|]; lia.
Qed.

Lemma tryDetectGrid_few_rows (imageData : bitmap) (tileWidth tileHeight : Z) :
  bm_height imageData / tileHeight <= 3 ->
  tryDetectGrid imageData tileWidth tileHeight = None.
Proof.
  intros Hrows. unfold tryDetectGrid.
  destruct (_ || _) eqn:Hfew; [done|].
  apply orb_false_iff in Hfew as [Hc Hr]. apply Z.ltb_ge in Hc, Hr.
  pose proof (count_horizontal_bound (bm_data imageData) (bm_width imageData)
                (bm_height imageData) tileHeight
                (seqZ 1 (bm_height imageData / tileHeight - 1)) 0) as Hbound.
  rewrite length_seqZ in Hbound.
  destruct (Z.leb_spec (7 * (bm_height imageData / tileHeight))
              (10 * fold_left (count_horizontal (bm_data imageData)
                      (bm_width imageData) (bm_height imageData) tileHeight)
                      (seqZ 1 (bm_height imageData / tileHeight - 1)) 0));
    [lia|by rewrite andb_false_r].
Qed.

(** What an accepted size looks like. *)
Lemma tryDetectGrid_Some (imageData : bitmap) (tileWidth tileHeight : Z)
    (det : DetectedSettings) :
  tryDetectGrid imageData tileWidth tileHeight = Some det ->
  det = {| d_tileWidth := tileWidth; d_tileHeight := tileHeight; d_margin := 0;
           d_spacing := 0; d_offsetX := 0; d_offsetY := 0 |}
  /\ 4 <= bm_width imageData / tileWidth
  /\ 4 <= bm_height imageData / tileHeight.
Proof.
  intros Hsome.
  destruct (Z.le_gt_cases (bm_width imageData / tileWidth) 3) as [Hc|Hc].
  { by rewrite tryDetectGrid_few_columns in Hsome. }
  destruct (Z.le_gt_cases (bm_height imageData / tileHeight) 3) as [Hr|Hr].
  { by rewrite tryDetectGrid_few_rows in Hsome. }
  split; [|lia]. unfold tryDetectGrid in Hsome.
  destruct (_ || _); [done|]. destruct (_ && _); [|done]. by injection Hsome.
Qed.

Lemma first_detected_Some (imageData : bitmap) (sizes : list Z)
    (det : DetectedSettings) :
  first_detected imageData sizes = Some det ->
  exists size, In size sizes /\ tryDetectGrid imageData size size = Some det.
Proof.
  induction sizes as [|size sizes IH]; simpl; [done|].
  destruct (tryDetectGrid imageData size size) as [det'|] eqn:Htry.
  - intros [= <-]. exists size. split; [by left|done].
  - intros H. destruct (IH H) as (size' & Hin & Htry'). exists size'.
    split; [by right|done].
Qed.

(** X11.  A result of [autoDetectTileSize] is a square size from the list
    of common sizes with no margin, spacing or offset, and the image holds
    at least four columns and four rows of it; an image narrower or lower
    than 64 pixels gets no result. *)
Theorem autoDetectTileSize_result_shape (image : bitmap) (d : document) :
  wf_bitmap image -> 0 < bm_width image -> 0 < bm_height image ->
  (forall det d',
      autoDetectTileSize image d = Ok (Some det, d') ->
      In (d_tileWidth det) commonSizes /\
      d_tileHeight det = d_tileWidth det /\
      d_margin det = 0 /\ d_spacing det = 0 /\
      d_offsetX det = 0 /\ d_offsetY det = 0 /\
      4 * d_tileWidth det <= bm_width image /\
      4 * d_tileWidth det <= bm_height image)
  /\ (bm_width image < 64 \/ bm_height image < 64 ->
      autoDetectTileSize image d = Ok (None, d ++ [on_canvas image])).
Proof.
  intros Himg Hw Hh. rewrite autoDetectTileSize_run by done.
  assert (Hshape : forall det,
             first_detected (on_canvas image) commonSizes = Some det ->
             In (d_tileWidth det) commonSizes /\
             d_tileHeight det = d_tileWidth det /\
             d_margin det = 0 /\ d_spacing det = 0 /\
             d_offsetX det = 0 /\ d_offsetY det = 0 /\
             4 * d_tileWidth det <= bm_width image /\
             4 * d_tileWidth det <= bm_height image).
  { intros det Hdet.
    apply first_detected_Some in Hdet as (size & Hin & Htry).
    apply tryDetectGrid_Some in Htry as (-> & Hc & Hr).
    cbn [on_canvas bm_width bm_height] in Hc, Hr. simpl.
    assert (Hpos : 0 < size).
    { unfold commonSizes in Hin. simpl in Hin. lia. }
    pose proof (Z.mul_div_le (bm_width image) size Hpos).
    pose proof (Z.mul_div_le (bm_height image) size Hpos).
    repeat split; try done; nia. }
  split.
  - intros det d' [= Hdet _]. by apply Hshape.
  - intros Hsmall.
    destruct (first_detected (on_canvas image) commonSizes) as [det|] eqn:Hdet;
      [|done].
    destruct (Hshape det eq_refl) as (Hin & _ & _ & _ & _ & _ & Hcw & Hch).
    unfold commonSizes in Hin. simpl in Hin. lia.
Qed.

Lemma vertical_consistent_true (img : bitmap) (fuel : nat) (x y : Z) :
  0 <= x < bm_width img -> 0 <= y ->
  (forall y', 0 <= y' < bm_height img -> byte_at img x y' 3 <= 128) ->
  vertical_consistent fuel (bm_data img) (bm_width img) (bm_height img) x y = true.
Proof.
  intros Hx Hy Hall. revert y Hy.
  induction fuel as [|fuel IH]; intros y Hy; simpl; [done|].
  destruct (Z.ltb_spec y (bm_height img)); [|done].
  rewrite byte_gt_byte_at by lia.
  destruct (Z.ltb_spec 128 (byte_at img x y 3)) as [Hgt|_].
  - specialize (Hall y ltac:(lia)). lia.
  - apply IH. lia.
Qed.

Lemma horizontal_consistent_true (img : bitmap) (fuel : nat) (x y : Z) :
  0 <= y < bm_height img -> 0 <= x ->
  (forall x', 0 <= x' < bm_width img -> byte_at img x' y 3 <= 128) ->
  horizontal_consistent fuel (bm_data img) (bm_width img) y x = true.
Proof.
  intros Hy Hx Hall. revert x Hx.
  induction fuel as [|fuel IH]; intros x Hx; simpl; [done|].
  destruct (Z.ltb_spec x (bm_width img)); [|done].
  rewrite byte_gt_byte_at by lia.
  destruct (Z.ltb_spec 128 (byte_at img x y 3)) as [Hgt|_].
  - specialize (Hall x ltac:(lia)). lia.
  - apply IH. lia.
Qed.

Lemma count_vertical_all (img : bitmap) (tileWidth : Z) (l : list Z) (n : Z) :
  (forall x y, inside img x y -> byte_at img x y 3 <= 128) ->
  (forall col, In col l -> 0 <= col * tileWidth < bm_width img) ->
  fold_left (count_vertical (bm_data img) (bm_width img) (bm_height img) tileWidth)
            l n
  = n + Z.of_nat (length l).
Proof.
  intros Hall. revert n. induction l as [|col l IH]; intros n Hl; simpl; [lia|].
  rewrite IH by (intros; apply Hl; by right).
  unfold count_vertical. specialize (Hl col ltac:(by left)).
  destruct (Z.ltb_spec (col * tileWidth) (bm_width img)); [|lia].
  rewrite vertical_consistent_true; [lia|lia|lia|].
  intros y' Hy'. apply Hall. split; lia.
Qed.

Lemma count_horizontal_all (img : bitmap) (tileHeight : Z) (l : list Z) (n : Z) :
  (forall x y, inside img x y -> byte_at img x y 3 <= 128) ->
  (forall row, In row l -> 0 <= row * tileHeight < bm_height img) ->
  fold_left (count_horizontal (bm_data img) (bm_width img) (bm_height img) tileHeight)
            l n
  = n + Z.of_nat (length l).
Proof.
  intros Hall. revert n. induction l as [|row l IH]; intros n Hl; simpl; [lia|].
  rewrite IH by (intros; apply Hl; by right).
  unfold count_horizontal. specialize (Hl row ltac:(by left)).
  destruct (Z.ltb_spec (row * tileHeight) (bm_height img)); [|lia].
  rewrite horizontal_consistent_true; [lia|lia|lia|].
  intros x' Hx'. apply Hall. split; lia.
Qed.

(** X12.  On an image of at least 64 x 64 pixels in which no pixel has an
    alpha above 128, the first candidate wins: the result is 16 x 16. *)
Theorem autoDetectTileSize_transparent_image (image : bitmap) (d : document) :
  wf_bitmap image -> 64 <= bm_width image -> 64 <= bm_height image ->
  (forall x y, inside image x y -> byte_at image x y 3 <= 128) ->
  autoDetectTileSize image d
  = Ok (Some {| d_tileWidth := 16; d_tileHeight := 16; d_margin := 0;
                d_spacing := 0; d_offsetX := 0; d_offsetY := 0 |},
        d ++ [on_canvas image]).
Proof.
  intros Himg Hw Hh Hall. rewrite autoDetectTileSize_run by (done || lia).
  do 2 f_equal. unfold commonSizes. cbn [first_detected].
  assert (Hall' : forall x y, inside (on_canvas image) x y ->
                              byte_at (on_canvas image) x y 3 <= 128).
  { intros x y Hin. rewrite alpha_on_canvas by done. by apply Hall. }
  change (bm_width image) with (bm_width (on_canvas image)) in Hw.
  change (bm_height image) with (bm_height (on_canvas image)) in Hh.
  clear Hall Himg. revert Hw Hh Hall'. generalize (on_canvas image).
  clear image. intros image Hw Hh Hall.
  unfold tryDetectGrid.
  pose proof (Z.mul_div_le (bm_width image) 16 ltac:(lia)) as Hcw.
  pose proof (Z.mul_div_le (bm_height image) 16 ltac:(lia)) as Hch.
  assert (Hc : 4 <= bm_width image / 16) by (apply Z.div_le_lower_bound; lia).
  assert (Hr : 4 <= bm_height image / 16) by (apply Z.div_le_lower_bound; lia).
  destruct (Z.ltb_spec (bm_width image / 16) 2); [lia|].
  destruct (Z.ltb_spec (bm_height image / 16) 2); [lia|].
  cbn [orb].
  rewrite count_vertical_all, count_horizontal_all; try done.
  - rewrite !length_seqZ.
    destruct (Z.leb_spec (7 * (bm_width image / 16))
                (10 * (0 + Z.of_nat (Z.to_nat (bm_width image / 16 - 1)))));
      [|lia].
    destruct (Z.leb_spec (7 * (bm_height image / 16))
                (10 * (0 + Z.of_nat (Z.to_nat (bm_height image / 16 - 1)))));
      [done|lia].
  - intros row Hin. apply list_elem_of_In, elem_of_seqZ in Hin. lia.
  - intros col Hin. apply list_elem_of_In, elem_of_seqZ in Hin. lia.
Qed.

Lemma count_vertical_none (img : bitmap) (tileWidth : Z) (l : list Z) (n : Z) :
  0 < bm_height img ->
  (forall x y, inside img x y -> 128 < byte_at img x y 3) ->
  (forall col, In col l -> 0 <= col * tileWidth) ->
  fold_left (count_vertical (bm_data img) (bm_width img) (bm_height img) tileWidth)
            l n
  = n.
Proof.
  intros Hh Hall. revert n. induction l as [|col l IH]; intros n Hl; simpl; [done|].
  rewrite IH by (intros; apply Hl; by right).
  unfold count_vertical. specialize (Hl col ltac:(by left)).
  destruct (Z.ltb_spec (col * tileWidth) (bm_width img)); [|done].
  destruct (Z.to_nat (bm_height img)) as [|fuel] eqn:Hfuel; [lia|].
  simpl. destruct (Z.ltb_spec 0 (bm_height img)); [|lia].
  rewrite byte_gt_byte_at by lia.
  destruct (Z.ltb_spec 128 (byte_at img (col * tileWidth) 0 3)) as [_|Hle]; [done|].
  specialize (Hall (col * tileWidth) 0 ltac:(split; lia)). lia.
Qed.

Lemma tryDetectGrid_opaque (img : bitmap) (tileWidth tileHeight : Z) :
  0 < tileWidth -> 0 < bm_height img ->
  (forall x y, inside img x y -> 128 < byte_at img x y 3) ->
  tryDetectGrid img tileWidth tileHeight = None.
Proof.
  intros Htw Hh Hall. unfold tryDetectGrid.
  destruct (_ || _) eqn:Hfew; [done|].
  apply orb_false_iff in Hfew as [Hc _]. apply Z.ltb_ge in Hc.
  rewrite count_vertical_none; [|done|done|].
  - destruct (Z.leb_spec (7 * (bm_width img / tileWidth)) (10 * 0)); [lia|done].
  - intros col Hin. apply list_elem_of_In, elem_of_seqZ in Hin. nia.
Qed.

(** X13.  An image in which every pixel has an alpha above 128, an image
    without transparency in particular, gets no result: no grid line is
    ever consistent. *)
Theorem autoDetectTileSize_opaque_image (image : bitmap) (d : document) :
  wf_bitmap image -> 0 < bm_width image -> 0 < bm_height image ->
  (forall x y, inside image x y -> 128 < byte_at image x y 3) ->
  autoDetectTileSize image d = Ok (None, d ++ [on_canvas image]).
Proof.
  intros Himg Hw Hh Hall. rewrite autoDetectTileSize_run by done.
  do 2 f_equal. unfold commonSizes. cbn [first_detected].
  assert (Hall' : forall x y, inside (on_canvas image) x y ->
                              128 < byte_at (on_canvas image) x y 3).
  { intros x y Hin. rewrite alpha_on_canvas by done. by apply Hall. }
  by rewrite !tryDetectGrid_opaque by (done || lia).
Qed.

(* ================================================================= *)
(** * Further properties: the metadata of an image *)

Lemma byte_lt_byte_at (b : bitmap) (x y k : Z) :
  wf_bitmap b -> inside b x y ->
  byte_lt (bm_data b) ((y * bm_width b + x) * 4 + 3) k = (byte_at b x y 3 <? k).
Proof.
  intros (Hw & Hh & Hlen & _) [Hx Hy]. unfold byte_lt, byte_at.
  destruct (byte_index_decode (bm_width b) (bm_height b) x y 3) as (Hi & _);
    try lia.
  destruct (getByte_Some (bm_data b) ((y * bm_width b + x) * 4 + 3)) as [v ->];
    [lia|done].
Qed.

Lemma some_alpha_below_255_spec (fuel : nat) (data : list Z) (i : Z) :
  Z.of_nat (length data) <= i + 4 * Z.of_nat fuel ->
  some_alpha_below_255 fuel data i = false
  <-> forall j, 0 <= j -> i + 4 * j < Z.of_nat (length data) ->
                byte_lt data (i + 4 * j) 255 = false.
Proof.
  revert i. induction fuel as [|fuel IH]; intros i Hfuel; simpl.
  - split; [|done]. intros _ j Hj Hlt. lia.
  - destruct (Z.ltb_spec i (Z.of_nat (length data))) as [Hlt|Hge].
    + destruct (byte_lt data i 255) eqn:E.
      * split; [done|]. intros H. specialize (H 0). rewrite Z.add_0_r in H.
        rewrite H in E by lia. done.
      * rewrite IH by lia. split.
        -- intros H j Hj Hj'. destruct (decide (j = 0)) as [->|Hne].
           ++ by rewrite Z.add_0_r.
           ++ specialize (H (j - 1)).
              replace (i + 4 + 4 * (j - 1)) with (i + 4 * j) in H by lia.
              apply H; lia.
        -- intros H j Hj Hj'.
           replace (i + 4 + 4 * j) with (i + 4 * (j + 1)) in * by lia.
           apply H; lia.
    + split; [|done]. intros _ j Hj Hj'. lia.
Qed.

(** [checkAlphaChannel] answers false exactly when every pixel has alpha
    255. *)
Lemma checkAlphaChannel_false (imageData : bitmap) :
  wf_bitmap imageData ->
  checkAlphaChannel imageData = false
  <-> forall x y, inside imageData x y -> byte_at imageData x y 3 = 255.
Proof.
  intros Hwf. pose proof Hwf as (Hw & Hh & Hlen & _).
  unfold checkAlphaChannel. rewrite some_alpha_below_255_spec by lia. split.
  - intros H x y [Hx Hy].
    destruct (byte_index_decode (bm_width imageData) (bm_height imageData) x y 3)
      as (Hi & _); try lia.
    specialize (H (y * bm_width imageData + x)).
    replace (3 + 4 * (y * bm_width imageData + x))
      with ((y * bm_width imageData + x) * 4 + 3) in H by lia.
    rewrite byte_lt_byte_at in H by done.
    pose proof (byte_at_range imageData x y 3 Hwf).
    apply Z.ltb_ge in H; [lia|nia|lia].
  - intros H j Hj Hlt.
    destruct (byte_index_encode (bm_width imageData) (bm_height imageData)
                (3 + 4 * j)) as (Hx & Hy & Hc & Heq); try lia.
    assert (Hm : (3 + 4 * j) mod 4 = 3).
    { symmetry. apply Z.mod_unique with j; lia. }
    rewrite Hm in Heq. rewrite Heq, byte_lt_byte_at by done.
    rewrite H; [done|]. split; lia.
Qed.

Lemma setWidth_Ok d c cv v :
  d !! c = Some cv ->
  setWidth c v d = Ok (tt, <[c := blank (canvas_dim 300 v) (bm_height cv)]> d).
Proof.
  intros H. unfold setWidth. by rewrite (bind_Ok _ _ _ _ _ (readCanvas_Ok _ _ _ H)).
Qed.

Lemma setHeight_Ok d c cv v :
  d !! c = Some cv ->
  setHeight c v d = Ok (tt, <[c := blank (bm_width cv) (canvas_dim 150 v)]> d).
Proof.
  intros H. unfold setHeight. by rewrite (bind_Ok _ _ _ _ _ (readCanvas_Ok _ _ _ H)).
Qed.

Lemma store_insert_insert (d : document) (c : canvas_id) (cv cv' : bitmap) :
  <[c := cv]> (<[c := cv']> d) = <[c := cv]> d.
Proof. apply list_insert_insert_eq. Qed.

(** [getImageMetadata] on a store that holds the canvas of the loader. *)
Lemma getImageMetadata_run (this : ImageLoader) (image old : bitmap) (d : document) :
  d !! loader_canvas this = Some old ->
  wf_bitmap image -> 0 < bm_width image -> 0 < bm_height image ->
  getImageMetadata this image d
  = Ok ({| width := bm_width image; height := bm_height image;
           hasAlpha := checkAlphaChannel (on_canvas image) |},
        <[loader_canvas this := on_canvas image]> d).
Proof.
  intros Hc Himg Hw Hh. pose proof Himg as (Hwmax & Hhmax & _).
  assert (Hlt : (loader_canvas this < length d)%nat) by by eapply lookup_lt_Some.
  unfold getImageMetadata.
  erewrite bind_Ok; [|by apply setWidth_Ok].
  erewrite bind_Ok; cycle 1.
  { apply setHeight_Ok. by apply list_lookup_insert_eq. }
  rewrite store_insert_insert. cbn [bm_width blank].
  rewrite !canvas_dim_id by done.
  erewrite bind_Ok; cycle 1.
  { apply drawImage_Ok. by apply list_lookup_insert_eq. }
  rewrite store_insert_insert, paint_image_whole by done.
  unfold bind.
  by rewrite getImageData_image by (done || by apply list_lookup_insert_eq).
Qed.

(** X14.  [getImageMetadata] returns the size of the image and
    [hasAlpha = true] exactly when some pixel has an alpha below 255; it
    allocates nothing: the canvas of the loader is overwritten with the
    image as a canvas holds it and every other canvas is left as it is. *)
Theorem getImageMetadata_reports_size_and_alpha
    (this : ImageLoader) (image old : bitmap) (d : document) :
  d !! loader_canvas this = Some old ->
  wf_bitmap image -> 0 < bm_width image -> 0 < bm_height image ->
  exists meta d',
    getImageMetadata this image d = Ok (meta, d') /\
    width meta = bm_width image /\ height meta = bm_height image /\
    (hasAlpha meta = true
     <-> exists x y, inside image x y /\ byte_at image x y 3 < 255) /\
    length d' = length d /\
    d' !! loader_canvas this = Some (on_canvas image) /\
    forall c, c <> loader_canvas this -> d' !! c = d !! c.
Proof.
  intros Hc Himg Hw Hh. rewrite (getImageMetadata_run this image old) by done.
  assert (Hlt : (loader_canvas this < length d)%nat) by by eapply lookup_lt_Some.
  eexists _, _. split; [reflexivity|]. cbn [width height hasAlpha].
  split; [done|]. split; [done|]. split; [|split; [|split]].
  - assert (Hfalse : checkAlphaChannel (on_canvas image) = false
                     <-> forall x y, inside image x y -> byte_at image x y 3 = 255).
    { rewrite checkAlphaChannel_false by by apply wf_on_canvas.
      split; intros Hall x y Hin.
      - rewrite <- alpha_on_canvas by done. by apply Hall.
      - rewrite alpha_on_canvas by done. by apply Hall. }
    split.
    + intros Htrue.
      destruct (decide (Forall (fun p => byte_at image (fst p) (snd p) 3 = 255)
                          (map (fun cell => (snd cell, fst cell))
                               (grid_cells (bm_height image) (bm_width image)))))
        as [Hall|Hex].
      * exfalso. rewrite <- not_false_iff_true in Htrue. apply Htrue, Hfalse.
        intros x y [Hx Hy]. rewrite Forall_forall in Hall.
        apply (Hall (x, y)). apply list_elem_of_In, in_map_iff.
        exists (y, x). split; [done|]. apply In_grid_cells. lia.
      * apply not_Forall_Exists in Hex; [|intros p; apply _].
        apply Exists_exists in Hex as ([x y] & Hin & Hne). simpl in Hne.
        apply list_elem_of_In, in_map_iff in Hin as ([y' x'] & [= -> ->] & Hin).
        apply In_grid_cells in Hin.
        pose proof (byte_at_range image x y 3 Himg).
        exists x, y. split; [split; lia|lia].
    + intros (x & y & Hin & Hlt255). apply not_false_iff_true. intros Hf.
      rewrite Hfalse in Hf. rewrite Hf in Hlt255 by done. lia.
  - apply length_insert.
  - by apply list_lookup_insert_eq.
  - intros c Hne. by apply list_lookup_insert_ne.
Qed.

(* ================================================================= *)
(** * Further properties: the contact sheet *)

(** X15.  Without a tile that is not empty, an empty list in particular,
    [createContactSheet] returns a new 1 x 1 canvas and draws nothing,
    whatever the number of columns. *)
Theorem createContactSheet_without_visible_tiles
    (tiles : list TileData) (columns : Z) (backgroundColor : string)
    (d : document) :
  (forall t, In t tiles -> isEmpty t = true) ->
  createContactSheet tiles columns backgroundColor d
  = Ok ((length d, []), d ++ [blank 1 1]).
Proof.
  intros Hempty. unfold createContactSheet.
  assert (Hnil : List.filter (fun tile => negb (isEmpty tile)) tiles = []).
  { induction tiles as [|t tiles IH]; [done|]. simpl.
    rewrite (Hempty t) by (by left). simpl. apply IH.
    intros t' Hin. apply Hempty. by right. }
  rewrite Hnil. simpl. by rewrite new_canvas_Ok.
Qed.

Lemma fold_left_max_spec (l : list Z) (x : Z) :
  (x <= fold_left Z.max l x)
  /\ (forall y, In y l -> y <= fold_left Z.max l x)
  /\ (fold_left Z.max l x = x \/ In (fold_left Z.max l x) l).
Proof.
  revert x. induction l as [|y l IH]; intros x; simpl.
  - split; [lia|]. split; [by intros ? []|by left].
  - destruct (IH (Z.max x y)) as (H1 & H2 & H3). split; [lia|]. split.
    + intros z [<-|Hin]; [lia|by apply H2].
    + destruct H3 as [->|Hin]; [|by right; right].
      destruct (Z.max_spec x y) as [[_ ->]|[_ ->]]; [right; by left|by left].
Qed.

Lemma max_of_spec (l : list Z) :
  l <> [] ->
  exists m, max_of l = Fin m /\ In m l /\ forall y, In y l -> y <= m.
Proof.
  destruct l as [|x l]; [done|]. intros _. simpl.
  destruct (fold_left_max_spec l x) as (H1 & H2 & H3).
  eexists. split; [reflexivity|]. split.
  - destruct H3 as [->|Hin]; [by left|by right].
  - intros y [<-|Hin]; [done|by apply H2].
Qed.

Lemma map_dom_read {A : Type} (f : bitmap -> A) (l : list TileData) (d : document) :
  (forall t, In t l -> exists cv, d !! canvas t = Some cv) ->
  map_dom (fun tile => let* cv := readCanvas (canvas tile) in ret (f cv)) l d
  = Ok (map (fun t => match d !! canvas t with
                      | Some cv => f cv
                      | None => f (blank 0 0)
                      end) l, d).
Proof.
  induction l as [|t l IH]; intros Hall; simpl; [done|].
  destruct (Hall t ltac:(by left)) as [cv Hcv].
  erewrite bind_Ok; cycle 1.
  { erewrite bind_Ok; [reflexivity|by apply readCanvas_Ok]. }
  erewrite bind_Ok; cycle 1.
  { apply IH. intros; apply Hall; by right. }
  unfold ret. by rewrite Hcv.
Qed.

(** One round of the loop when the columns are positive, the cell size
    is a number and the source canvas has pixels. *)
Lemma draw_tile_Ok (columns maxW maxH : Z) (i : nat) (t : TileData) (cv : bitmap)
    (d : document) :
  0 < columns -> d !! canvas t = Some cv -> 0 < bm_width cv -> 0 < bm_height cv ->
  draw_tile columns (Fin maxW) (Fin maxH) i t d
  = Ok ([DrawCanvasAt (canvas t)
           (Fin (Z.of_nat i mod columns * maxW))
           (Fin (Z.of_nat i / columns * maxH));
         FillText "#000000" "12px Arial" (number_to_string (index t))
           (Fin (Z.of_nat i mod columns * maxW + 2))
           (Fin (Z.of_nat i / columns * maxH + 14))], d).
Proof.
  intros Hcols Hcv Hw Hh. unfold draw_tile, js_rem, Num.floor_div.
  destruct (Z.eqb_spec columns 0); [lia|].
  rewrite Z.rem_mod_nonneg by lia. cbn [Num.mul Num.add is_finite andb].
  erewrite bind_Ok; cycle 1.
  { erewrite bind_Ok; [|by apply readCanvas_Ok].
    rewrite nonzero_dims by done. reflexivity. }
  reflexivity.
Qed.

Lemma for_each_draw_tile (columns maxW maxH : Z) (l : list TileData) (i : nat)
    (d : document) :
  0 < columns ->
  (forall t, In t l -> exists cv, d !! canvas t = Some cv
                                  /\ 0 < bm_width cv /\ 0 < bm_height cv) ->
  exists ops,
    for_each_indexed (draw_tile columns (Fin maxW) (Fin maxH)) i l d = Ok (ops, d)
    /\ drawn_tiles ops
       = imap (fun k t => (canvas t,
                           Fin (Z.of_nat (i + k) mod columns * maxW),
                           Fin (Z.of_nat (i + k) / columns * maxH))) l.
Proof.
  intros Hcols. revert i. induction l as [|t l IH]; intros i Hall.
  - exists []. done.
  - destruct (Hall t ltac:(by left)) as (cv & Hcv & Hw & Hh).
    destruct (IH (S i)) as (rest & Hrest & Hdrawn).
    { intros; apply Hall; by right. }
    eexists. split.
    + simpl. erewrite bind_Ok; [|by eapply draw_tile_Ok].
      erewrite bind_Ok; [|exact Hrest]. reflexivity.
    + cbn [app drawn_tiles flat_map imap].
      fold (drawn_tiles rest). rewrite Hdrawn. rewrite Nat.add_0_r.
      f_equal. apply imap_ext. intros k t' _. simpl.
      by replace (S (i + k))%nat with (i + S k)%nat by lia.
Qed.

(** X16.  With a positive number of columns and at least one tile that is
    not empty, whose canvases have between 1 and [bound] pixels a side:
    the sheet is a new canvas of [columns] by
    [ceil(n / columns)] cells of size [maxW] x [maxH], the largest width and
    the largest height among the tiles that are not empty (no such tile is
    wider or higher, and one of them has that width, one that height); these
    tiles are drawn in their order, tile [i] at column [i mod columns] and
    row [i / columns]; every tile lies inside the sheet and the cells of
    two different tiles do not overlap. *)
Theorem createContactSheet_layout
    (tiles : list TileData) (columns bound : Z) (backgroundColor : string)
    (d : document) :
  let validTiles := List.filter (fun tile => negb (isEmpty tile)) tiles in
  let n := Z.of_nat (length validTiles) in
  0 < columns -> 0 < n ->
  (forall t, In t validTiles ->
     exists cv, d !! canvas t = Some cv /\
                0 < bm_width cv <= bound /\ 0 < bm_height cv <= bound) ->
  columns * bound <= max_dim -> n * bound <= max_dim ->
  exists sheet ops maxW maxH,
    createContactSheet tiles columns backgroundColor d
    = Ok ((length d, ops), d ++ [sheet]) /\
    bm_width sheet = columns * maxW /\
    bm_height sheet = - ((- n) / columns) * maxH /\
    drawn_tiles ops
    = imap (fun i t => (canvas t,
                        Fin (Z.of_nat i mod columns * maxW),
                        Fin (Z.of_nat i / columns * maxH))) validTiles /\
    (forall i t cv, validTiles !! i = Some t -> d !! canvas t = Some cv ->
       bm_width cv <= maxW /\ bm_height cv <= maxH /\
       0 <= Z.of_nat i mod columns * maxW /\
       Z.of_nat i mod columns * maxW + bm_width cv <= bm_width sheet /\
       0 <= Z.of_nat i / columns * maxH /\
       Z.of_nat i / columns * maxH + bm_height cv <= bm_height sheet) /\
    (forall i j : nat, i <> j ->
       Z.of_nat i mod columns * maxW + maxW <= Z.of_nat j mod columns * maxW \/
       Z.of_nat j mod columns * maxW + maxW <= Z.of_nat i mod columns * maxW \/
       Z.of_nat i / columns * maxH + maxH <= Z.of_nat j / columns * maxH \/
       Z.of_nat j / columns * maxH + maxH <= Z.of_nat i / columns * maxH) /\
    (exists t cv, In t validTiles /\ d !! canvas t = Some cv /\
                  bm_width cv = maxW) /\
    (exists t cv, In t validTiles /\ d !! canvas t = Some cv /\
                  bm_height cv = maxH).
Proof.
  intros validTiles n Hcols Hn Hall Hbw Hbh.
  unfold createContactSheet. fold validTiles. fold n.
  destruct (Z.eqb_spec n 0); [lia|].
  assert (Hfound : forall t, In t validTiles -> exists cv, d !! canvas t = Some cv).
  { intros t Hin. destruct (Hall t Hin) as (cv & Hcv & _). eauto. }
  unfold getWidth, getHeight.
  unfold bind at 1. rewrite (map_dom_read bm_width) by done.
  unfold bind at 1. rewrite (map_dom_read bm_height) by done.
  set (widths := map _ validTiles). set (heights := map _ validTiles).
  assert (Hne : validTiles <> []).
  { intros Hnil. unfold n in Hn. rewrite Hnil in Hn. simpl in Hn. lia. }
  destruct (max_of_spec widths) as (maxW & -> & HmaxWin & HmaxW).
  { unfold widths. by destruct validTiles. }
  destruct (max_of_spec heights) as (maxH & -> & HmaxHin & HmaxH).
  { unfold heights. by destruct validTiles. }
  assert (HW : 0 < maxW <= bound).
  { apply in_map_iff in HmaxWin as (t & <- & Hin).
    destruct (Hall t Hin) as (cv & -> & ? & _). done. }
  assert (HH : 0 < maxH <= bound).
  { apply in_map_iff in HmaxHin as (t & <- & Hin).
    destruct (Hall t Hin) as (cv & -> & _ & ?). done. }
  unfold ceil_div. destruct (Z.eqb_spec columns 0); [lia|].
  cbn [Num.mul dim_of_number].
  set (q := - (- n / columns)).
  pose proof (Z.div_mod (- n) columns ltac:(lia)) as Hdm.
  pose proof (Z.mod_pos_bound (- n) columns Hcols) as Hmb.
  assert (Hq : n <= q * columns /\ q * columns < n + columns) by (unfold q; nia).
  assert (Hqn : 0 < q <= n) by nia.
  rewrite new_canvas_Ok.
  rewrite !canvas_dim_id by nia.
  destruct (for_each_draw_tile columns maxW maxH validTiles 0
              (d ++ [blank (columns * maxW) (q * maxH)]) Hcols)
    as (ops & Hops & Hdrawn).
  { intros t Hin. destruct (Hall t Hin) as (cv & Hcv & ? & ?).
    exists cv. split; [by apply lookup_app_l_Some|lia]. }
  unfold bind. rewrite Hops. unfold ret.
  eexists _, _, maxW, maxH. split; [reflexivity|]. cbn [bm_width bm_height blank].
  split; [done|]. split; [done|]. split; [exact Hdrawn|].
  split; [|split; [|split]].
  - intros i t cv Hi Hcv.
    assert (Hin : In t validTiles).
    { apply list_elem_of_In. by eapply list_elem_of_lookup_2. }
    assert (Hilt : Z.of_nat i < n).
    { apply lookup_lt_Some in Hi. unfold n. lia. }
    assert (Hcw : bm_width cv <= maxW).
    { apply HmaxW. unfold widths. apply in_map_iff. exists t. by rewrite Hcv. }
    assert (Hch : bm_height cv <= maxH).
    { apply HmaxH. unfold heights. apply in_map_iff. exists t. by rewrite Hcv. }
    pose proof (Z.mod_pos_bound (Z.of_nat i) columns Hcols).
    pose proof (Z.div_mod (Z.of_nat i) columns ltac:(lia)).
    assert (0 <= Z.of_nat i / columns) by (apply Z.div_pos; lia).
    assert (Z.of_nat i / columns < q) by nia.
    repeat split; try done; nia.
  - intros i j Hij.
    pose proof (Z.mod_pos_bound (Z.of_nat i) columns Hcols).
    pose proof (Z.div_mod (Z.of_nat i) columns ltac:(lia)).
    pose proof (Z.mod_pos_bound (Z.of_nat j) columns Hcols).
    pose proof (Z.div_mod (Z.of_nat j) columns ltac:(lia)).
    destruct (Z.lt_trichotomy (Z.of_nat i mod columns) (Z.of_nat j mod columns))
      as [Hlt|[Heq|Hgt]]; [left; nia| |right; left; nia].
    destruct (Z.lt_trichotomy (Z.of_nat i / columns) (Z.of_nat j / columns))
      as [Hlt|[Heq'|Hgt]]; [right; right; left; nia| |right; right; right; nia].
    exfalso. apply Hij. apply Nat2Z.inj. lia.
  - apply in_map_iff in HmaxWin as (t & Heq & Hin).
    destruct (Hall t Hin) as (cv & Hcv & _). rewrite Hcv in Heq. eauto.
  - apply in_map_iff in HmaxHin as (t & Heq & Hin).
    destruct (Hall t Hin) as (cv & Hcv & _). rewrite Hcv in Heq. eauto.
Qed.

(* ================================================================= *)
(** * Further properties: the names of the exported files *)

Lemma pretty_N_char_digit (x : N) : occurs (pretty_N_char x) "0123456789".
Proof. unfold pretty_N_char. repeat case_match; simpl; tauto. Qed.

Lemma pretty_N_go_chars (x : N) (s : string) (ch : Ascii.ascii) :
  occurs ch (pretty_N_go x s) -> occurs ch "0123456789" \/ occurs ch s.
Proof.
  revert s. induction (N.lt_wf_0 x) as [x _ IH]; intros s Hocc.
  assert (x = 0 \/ 0 < x)%N as [->|Hpos] by lia.
  - rewrite pretty_N_go_0 in Hocc. by right.
  - rewrite pretty_N_go_step in Hocc by done.
    apply IH in Hocc; [|by apply N.div_lt].
    destruct Hocc as [Hd|[<-|Hs]]; [by left| |by right].
    left. apply pretty_N_char_digit.
Qed.

(** The decimal notation of an integer holds digits and a minus sign. *)
Lemma pretty_Z_chars (z : Z) (ch : Ascii.ascii) :
  occurs ch (pretty z) -> occurs ch "-0123456789".
Proof.
  assert (Hpos : forall p, occurs ch (pretty (Npos p)) -> occurs ch "0123456789").
  { intros p. unfold pretty, pretty_N. case_decide; [done|].
    intros Hocc. apply pretty_N_go_chars in Hocc as [?|[]]. done. }
  unfold pretty at 1, pretty_Z. destruct z as [|p|p].
  - simpl. tauto.
  - intros Hocc. right. exact (Hpos p Hocc).
  - simpl. intros [<-|Hocc]; [by left|]. right. exact (Hpos p Hocc).
Qed.

(** Two strings cut at a separator that their first parts do not hold. *)
Lemma split_at_separator (sep : Ascii.ascii) (s1 s2 t1 t2 : string) :
  ~ occurs sep s1 -> ~ occurs sep s2 ->
  s1 +:+ String sep t1 = s2 +:+ String sep t2 -> s1 = s2 /\ t1 = t2.
Proof.
  revert s2. induction s1 as [|a s1 IH]; intros [|b s2] H1 H2 Heq; simpl in *.
  - by injection Heq.
  - injection Heq as <- _. tauto.
  - injection Heq as -> _. tauto.
  - injection Heq as -> Heq. apply IH in Heq as [-> ->]; [done|tauto|tauto].
Qed.

Lemma append_cancel (p s t : string) : p +:+ s = p +:+ t -> s = t.
Proof. induction p as [|a p IH]; simpl; [done|]. intros [= H]. by apply IH. Qed.

Lemma row_col_name_inj (r1 c1 r2 c2 : Z) :
  pretty r1 +:+ "_" +:+ pretty c1 +:+ ".png"
  = pretty r2 +:+ "_" +:+ pretty c2 +:+ ".png" ->
  r1 = r2 /\ c1 = c2.
Proof.
  intros Heq.
  assert (Hno : forall (z : Z) ch, ~ occurs ch "-0123456789" -> ~ occurs ch (pretty z)).
  { intros z ch Hch Hocc. by apply Hch, (pretty_Z_chars z). }
  apply (split_at_separator "_"%char) in Heq as [Hr Hc].
  - apply (split_at_separator "."%char) in Hc as [Hc _].
    + split; by apply (inj pretty).
    + apply Hno. simpl. intuition discriminate.
    + apply Hno. simpl. intuition discriminate.
  - apply Hno. simpl. intuition discriminate.
  - apply Hno. simpl. intuition discriminate.
Qed.

Lemma index_name_inj (n1 n2 : number) :
  number_to_string n1 +:+ ".png" = number_to_string n2 +:+ ".png" -> n1 = n2.
Proof.
  intros Heq.
  assert (Hno : forall (z : Z) ch, ~ occurs ch "-0123456789" -> ~ occurs ch (pretty z)).
  { intros z ch Hch Hocc. by apply Hch, (pretty_Z_chars z). }
  assert (Hdot : forall n, ~ occurs "."%char (number_to_string n)).
  { intros [z| | |]; simpl; [|intuition discriminate..].
    apply Hno. simpl. intuition discriminate. }
  apply (split_at_separator "."%char) in Heq as [Heq _]; [|by apply Hdot..].
  assert (HI : forall z : Z, ~ occurs "I"%char (pretty z)).
  { intros z. apply Hno. simpl. intuition discriminate. }
  assert (HN : forall z : Z, ~ occurs "N"%char (pretty z)).
  { intros z. apply Hno. simpl. intuition discriminate. }
  destruct n1 as [z1| | |], n2 as [z2| | |]; cbn [number_to_string] in Heq.
  - f_equal. exact (inj pretty _ _ Heq).
  - exfalso. apply (HI z1). rewrite Heq. by left.
  - exfalso. apply (HI z1). rewrite Heq. right. by left.
  - exfalso. apply (HN z1). rewrite Heq. by left.
  - exfalso. apply (HI z2). rewrite <- Heq. by left.
  - reflexivity.
  - discriminate Heq.
  - discriminate Heq.
  - exfalso. apply (HI z2). rewrite <- Heq. right. by left.
  - discriminate Heq.
  - reflexivity.
  - discriminate Heq.
  - exfalso. apply (HN z2). rewrite <- Heq. by left.
  - discriminate Heq.
  - discriminate Heq.
  - reflexivity.
Qed.

(** Two tiles with the same file name agree on what the pattern prints. *)
Lemma generateFilename_same (t1 t2 : TileData) (settings : ExportSettings) :
  generateFilename t1 settings = generateFilename t2 settings ->
  if String.eqb (namingPattern settings) "row_col" then
    row t1 = row t2 /\ col t1 = col t2
  else if String.eqb (namingPattern settings) "index" then index t1 = index t2
  else row t1 = row t2 /\ col t1 = col t2.
Proof.
  unfold generateFilename.
  destruct (String.eqb (namingPattern settings) "row_col");
    [apply row_col_name_inj|].
  destruct (String.eqb (namingPattern settings) "index");
    [apply index_name_inj|].
  destruct (String.eqb (namingPattern settings) "custom");
    [|apply row_col_name_inj].
  intros Heq. apply append_cancel in Heq. by apply row_col_name_inj.
Qed.

(** X17.  [generateFilename] gives two tiles the same name only if they
    agree on what the pattern prints: the index for the pattern ['index'],
    the row and the column for every other pattern, the custom prefix and
    unknown patterns included. *)
Theorem generateFilename_injective (t1 t2 : TileData) (settings : ExportSettings) :
  generateFilename t1 settings = generateFilename t2 settings ->
  (namingPattern settings = "index" -> index t1 = index t2)
  /\ (namingPattern settings <> "index" -> row t1 = row t2 /\ col t1 = col t2).
Proof.
  intros Heq. apply generateFilename_same in Heq.
  destruct (String.eqb_spec (namingPattern settings) "row_col") as [Hrc|Hrc].
  - split; [|done]. rewrite Hrc. discriminate.
  - destruct (String.eqb_spec (namingPattern settings) "index"); split; done.
Qed.

Lemma NoDup_map_filter {A B : Type} (f : A -> B) (p : A -> bool) (l : list A) :
  NoDup (map f l) -> NoDup (map f (List.filter p l)).
Proof.
  induction l as [|a l IH]; simpl; [done|].
  intros Hnd. apply NoDup_cons in Hnd as [Hnotin Hnd].
  destruct (p a); simpl; [|by apply IH].
  apply NoDup_cons. split; [|by apply IH].
  intros Hin. apply Hnotin.
  apply list_elem_of_In, in_map_iff in Hin as (a' & Heq & Hin).
  apply filter_In in Hin as [Hin _].
  apply list_elem_of_In, in_map_iff. eauto.
Qed.

(** X18.  The files of one run do not overwrite each other: for the tiles
    [sliceSprite] returns on the grid of [calculateGrid], the names
    [exportTiles] gives to the tile files are pairwise different, for every
    naming pattern and with or without skipping the empty tiles. *)
Theorem exported_names_are_distinct
    (image : bitmap) (settings : TileSettings) (meta : ImageMetadata)
    (exportSettings : ExportSettings) (fuel : nat) (d : document) :
  wf_bitmap image -> width meta = bm_width image ->
  0 < tileWidth settings <= max_dim -> 0 < tileHeight settings <= max_dim ->
  0 <= spacing settings ->
  let r := Z.max 0 ((height meta - margin settings * 2 - offsetY settings
                     + spacing settings)
                    / (tileHeight settings + spacing settings)) in
  let c := Z.max 0 ((width meta - margin settings * 2 - offsetX settings
                     + spacing settings)
                    / (tileWidth settings + spacing settings)) in
  (Z.to_nat r <= fuel)%nat -> (Z.to_nat c <= fuel)%nat ->
  exists tiles d',
    sliceSprite fuel image settings (calculateGrid settings meta) d = Ok (tiles, d') /\
    NoDup (tile_filenames tiles exportSettings).
Proof.
  intros Himg Hwidth Htw Hth Hs r c Hfr Hfc.
  destruct (sliceSprite_calculated_grid image settings meta fuel d
              Himg Hwidth Htw Hth Hs Hfr Hfc)
    as (tiles & d' & Hrun & _ & _ & Hlen & Hpos).
  fold r c in Hlen, Hpos.
  exists tiles, d'. split; [done|].
  assert (Hall : NoDup (map (fun tile => generateFilename tile exportSettings) tiles)).
  { apply NoDup_alt. intros i j name Hi Hj.
    change (map ?f ?l) with (f <$> l) in Hi, Hj.
    rewrite list_lookup_fmap in Hi, Hj.
    destruct (tiles !! i) as [t1|] eqn:Ht1; [|done].
    destruct (tiles !! j) as [t2|] eqn:Ht2; [|done].
    simpl in Hi, Hj. injection Hi as Hi. injection Hj as Hj.
    assert (Hsame : generateFilename t1 exportSettings
                    = generateFilename t2 exportSettings) by congruence.
    apply generateFilename_same in Hsame.
    destruct (Hpos _ _ Ht1) as (Hr1 & Hc1 & Hi1).
    destruct (Hpos _ _ Ht2) as (Hr2 & Hc2 & Hi2).
    assert (Hcpos : 0 < c).
    { apply lookup_lt_Some in Ht1. unfold c in *. nia. }
    assert (Hrc : row t1 = row t2 /\ col t1 = col t2 -> i = j).
    { intros [Hrow Hcol]. rewrite Hr1, Hr2 in Hrow. rewrite Hc1, Hc2 in Hcol.
      pose proof (Z.div_mod (Z.of_nat i) c ltac:(lia)).
      pose proof (Z.div_mod (Z.of_nat j) c ltac:(lia)).
      apply Nat2Z.inj. congruence. }
    destruct (String.eqb (namingPattern exportSettings) "row_col"); [by apply Hrc|].
    destruct (String.eqb (namingPattern exportSettings) "index"); [|by apply Hrc].
    rewrite Hi1, Hi2 in Hsame. injection Hsame as Hsame. by apply Nat2Z.inj. }
  unfold tile_filenames, exported_tiles.
  destruct (skipTransparent exportSettings); [by apply NoDup_map_filter|done].
Qed.

(* ================================================================= *)
(** * The further statements at concrete inputs *)

Lemma byte_at_raster_of (w h : Z) (pixel : Z -> Z -> Z -> Z) (x y c : Z) :
  0 <= x < w -> 0 <= y < h -> 0 <= c < 4 ->
  byte_at (raster_of w h pixel) x y c = pixel x y c.
Proof.
  intros Hx Hy Hc.
  destruct (byte_index_decode w h x y c) as (Hi & Hdiv & Hmod & Hpx & Hpy);
    try lia.
  unfold byte_at, raster_of, getByte. cbn [bm_data bm_width].
  destruct (Z.ltb_spec ((y * w + x) * 4 + c) 0); [lia|].
  change (map ?f ?l) with (f <$> l).
  rewrite list_lookup_fmap, lookup_seq_lt by lia. simpl.
  rewrite Z2Nat.id by lia. by rewrite Hdiv, Hmod, Hpx, Hpy.
Qed.

Lemma wf_opaque_sheet : wf_bitmap opaque_sheet.
Proof. apply wf_raster_of; by unfold max_dim. Qed.

(** X1 for tiles of 32 x 32 on a 64 x 64 image. *)
Lemma validated_grid_has_tiles_witness :
  exists r c,
    calculateGrid (settings_32 false 0)
      {| width := 64; height := 64; hasAlpha := true |}
    = {| rows := Fin r; cols := Fin c; totalTiles := Fin (r * c) |}
    /\ 1 <= r /\ 1 <= c.
Proof.
  apply (validated_grid_has_tiles (settings_32 false 0)
           {| width := 64; height := 64; hasAlpha := true |}).
  reflexivity.
Defined.

(** X2 for tiles of 3 x 3 with margin 1 and spacing 1 on a 10 x 10 image. *)
Lemma grid_cells_fit_and_are_maximal_witness :
  exists r c,
    rows (calculateGrid settings_spaced meta_10x10) = Fin r /\
    cols (calculateGrid settings_spaced meta_10x10) = Fin c /\
    0 <= r /\ 0 <= c.
Proof.
  destruct (grid_cells_fit_and_are_maximal settings_spaced meta_10x10)
    as (r & c & Hr & Hc & Hr0 & Hc0 & _); try (by vm_compute).
  exists r, c. split; [exact Hr|]. split; [exact Hc|]. split; [exact Hr0|exact Hc0].
Defined.

(** X3 for the tile at row 1 and column 2. *)
Lemma source_rectangles_disjoint_witness :
  row (tile_1_2 false) = row (tile_1_2 true)
  /\ col (tile_1_2 false) = col (tile_1_2 true).
Proof.
  apply (source_rectangles_disjoint (settings_2 false) (tile_1_2 false)
           (tile_1_2 true) 4 2); by vm_compute.
Defined.

(** X4 on the 4 x 4 sheet cut into tiles of 2 x 2. *)
Lemma sliceSprite_index_is_position_witness :
  exists tiles d',
    sliceSprite 2 tiny_sheet (settings_2 false)
      (calculateGrid (settings_2 false)
         {| width := 4; height := 4; hasAlpha := true |}) []
    = Ok (tiles, d')
    /\ Z.of_nat (length tiles) = 4.
Proof.
  destruct (sliceSprite_index_is_position tiny_sheet (settings_2 false)
              {| width := 4; height := 4; hasAlpha := true |} 2 []
              wf_tiny_sheet)
    as (tiles & d' & Hrun & _ & _ & Hlen & _); try (by vm_compute).
  exists tiles, d'. split; [exact Hrun|exact Hlen].
Defined.

(** X5 on a grid without rows. *)
Lemma sliceSprite_empty_grid_witness :
  sliceSprite 0 tiny_sheet settings_zero_width
    {| rows := NaN; cols := Fin 3; totalTiles := NaN |} []
  = Ok ([], []).
Proof.
  apply (proj1 (sliceSprite_empty_grid tiny_sheet settings_zero_width
                  {| rows := NaN; cols := Fin 3; totalTiles := NaN |} 0 [])).
  reflexivity.
Defined.

(** X6 for tiles of 5 x 5 with spacing -5 on a 10 x 10 image. *)
Lemma sliceSprite_infinite_rows_never_returns_witness :
  rows (calculateGrid settings_zero_stride meta_10x10) = PosInf
  /\ sliceSprite 1000 tiny_sheet settings_zero_stride
       (calculateGrid settings_zero_stride meta_10x10) []
     = OutOfFuel.
Proof.
  apply (sliceSprite_infinite_rows_never_returns tiny_sheet settings_zero_stride
           meta_10x10 1000 [] wf_tiny_sheet);
    by vm_compute.
Defined.

(** X7 for tiles of width 0. *)
Lemma extractTile_zero_size_throws_witness :
  extractTile tiny_sheet settings_zero_width 0 0 [] = Throws IndexSizeError.
Proof.
  apply (extractTile_zero_size_throws tiny_sheet settings_zero_width 0 0 []
           wf_tiny_sheet).
  left. reflexivity.
Defined.

(** X8 on the 4 x 4 sheet with a padding of 1. *)
Lemma trimTransparentEdges_keeps_visible_pixels_witness :
  exists out dx dy,
    trimTransparentEdges 0%nat 1 [tiny_sheet]
    = Ok ((1%nat, false), [tiny_sheet] ++ [out])
    /\ byte_at out (1 - dx) (2 - dy) 3 = byte_at tiny_sheet 1 2 3.
Proof.
  destruct (trimTransparentEdges_keeps_visible_pixels [tiny_sheet] 0%nat
              tiny_sheet 1 1 2 eq_refl wf_tiny_sheet)
    as (out & dx & dy & Hrun & Hall);
    [by vm_compute|by vm_compute|by vm_compute|exact opaque_tiny_sheet|].
  exists out, dx, dy. split; [exact Hrun|].
  apply (Hall 1 2 3 opaque_tiny_sheet). by vm_compute.
Defined.

(** X9 on the 4 x 4 sheet. *)
Lemma trimTransparentEdges_is_tight_witness :
  exists out,
    trimTransparentEdges 0%nat 0 [tiny_sheet]
    = Ok ((1%nat, false), [tiny_sheet] ++ [out])
    /\ (exists y, opaque out 0 y).
Proof.
  destruct (trimTransparentEdges_is_tight [tiny_sheet] 0%nat tiny_sheet 1 2
              eq_refl wf_tiny_sheet)
    as (out & Hrun & Hleft & _);
    [by vm_compute|by vm_compute|exact opaque_tiny_sheet|].
  exists out. split; [exact Hrun|exact Hleft].
Defined.

(** X10 on the 4 x 4 sheet with a padding of 4. *)
Lemma trimTransparentEdges_large_padding_copies_witness :
  trimTransparentEdges 0%nat 4 [tiny_sheet]
  = Ok ((1%nat, false), [tiny_sheet] ++ [tiny_sheet]).
Proof.
  apply (trimTransparentEdges_large_padding_copies [tiny_sheet] 0%nat
           tiny_sheet 4 1 2 eq_refl wf_tiny_sheet);
    by vm_compute.
Defined.

(** X11 on the 4 x 4 sheet: too small for a result. *)
Lemma autoDetectTileSize_result_shape_witness :
  autoDetectTileSize tiny_sheet [] = Ok (None, [] ++ [on_canvas tiny_sheet]).
Proof.
  destruct (autoDetectTileSize_result_shape tiny_sheet [] wf_tiny_sheet)
    as [_ Hsmall]; [by vm_compute|by vm_compute|].
  apply Hsmall. left. by vm_compute.
Defined.

(** X12 on a transparent image of 64 x 64. *)
Lemma autoDetectTileSize_transparent_image_witness :
  autoDetectTileSize (blank 64 64) []
  = Ok (Some {| d_tileWidth := 16; d_tileHeight := 16; d_margin := 0;
                d_spacing := 0; d_offsetX := 0; d_offsetY := 0 |},
        [] ++ [on_canvas (blank 64 64)]).
Proof.
  apply (autoDetectTileSize_transparent_image (blank 64 64) []).
  - apply wf_blank; by vm_compute.
  - by vm_compute.
  - by vm_compute.
  - intros x y _. rewrite byte_at_blank. by vm_compute.
Defined.

(** X13 on the 4 x 4 image without transparency. *)
Lemma autoDetectTileSize_opaque_image_witness :
  autoDetectTileSize opaque_sheet [] = Ok (None, [] ++ [on_canvas opaque_sheet]).
Proof.
  apply (autoDetectTileSize_opaque_image opaque_sheet [] wf_opaque_sheet).
  - by vm_compute.
  - by vm_compute.
  - intros x y [Hx Hy]. unfold opaque_sheet.
    rewrite byte_at_raster_of; [by vm_compute|exact Hx|exact Hy|by vm_compute].
Defined.

(** X14 for a loader whose canvas is canvas 0, on the 4 x 4 sheet. *)
Lemma getImageMetadata_reports_size_and_alpha_witness :
  exists meta d',
    getImageMetadata {| loader_canvas := 0%nat; loader_image := None |}
      tiny_sheet [blank 1 1]
    = Ok (meta, d')
    /\ width meta = 4 /\ height meta = 4 /\ length d' = 1%nat.
Proof.
  destruct (getImageMetadata_reports_size_and_alpha
              {| loader_canvas := 0%nat; loader_image := None |}
              tiny_sheet (blank 1 1) [blank 1 1] eq_refl wf_tiny_sheet)
    as (meta & d' & Hrun & Hw & Hh & _ & Hlen & _);
    [by vm_compute|by vm_compute|].
  exists meta, d'. split; [exact Hrun|]. split; [exact Hw|]. split; [exact Hh|exact Hlen].
Defined.

(** X15 for a list that holds one empty tile. *)
Lemma createContactSheet_without_visible_tiles_witness :
  createContactSheet [tile_1_2 true] 10 "#ffffff" [tiny_sheet]
  = Ok ((1%nat, []), [tiny_sheet] ++ [blank 1 1]).
Proof.
  apply (createContactSheet_without_visible_tiles [tile_1_2 true] 10 "#ffffff"
           [tiny_sheet]).
  intros t [<-|[]]. reflexivity.
Defined.

(** X16 for one tile on the 4 x 4 canvas, ten columns. *)
Lemma createContactSheet_layout_witness :
  exists sheet ops maxW maxH,
    createContactSheet [tile_1_2 false] 10 "#ffffff" [tiny_sheet]
    = Ok ((1%nat, ops), [tiny_sheet] ++ [sheet])
    /\ bm_width sheet = 10 * maxW
    /\ drawn_tiles ops = [(0%nat, Fin (0 * maxW), Fin (0 * maxH))].
Proof.
  destruct (createContactSheet_layout [tile_1_2 false] 10 4 "#ffffff" [tiny_sheet])
    as (sheet & ops & maxW & maxH & Hrun & Hw & _ & Hdrawn & _);
    try (by vm_compute).
  { intros t [<-|[]]. exists tiny_sheet. by vm_compute. }
  exists sheet, ops, maxW, maxH. split; [exact Hrun|]. split; [exact Hw|exact Hdrawn].
Defined.

(** X17 for the pattern ['custom']. *)
Lemma generateFilename_injective_witness :
  row (tile_1_2 false) = row (tile_1_2 true)
  /\ col (tile_1_2 false) = col (tile_1_2 true).
Proof.
  apply (generateFilename_injective (tile_1_2 false) (tile_1_2 true)
           (export_by "custom" "tile_")).
  - reflexivity.
  - discriminate.
Defined.

(** The three patterns on the tile at row 1 and column 2 with index 5. *)
Example generateFilename_row_1_col_2 :
  generateFilename (tile_1_2 false) (export_by "row_col" "p") = "1_2.png"
  /\ generateFilename (tile_1_2 false) (export_by "index" "p") = "5.png"
  /\ generateFilename (tile_1_2 false) (export_by "custom" "p") = "p1_2.png".
Proof. repeat split; reflexivity. Qed.

(** X18 on the 4 x 4 sheet cut into tiles of 2 x 2. *)
Lemma exported_names_are_distinct_witness :
  exists tiles d',
    sliceSprite 2 tiny_sheet (settings_2 false)
      (calculateGrid (settings_2 false)
         {| width := 4; height := 4; hasAlpha := true |}) []
    = Ok (tiles, d')
    /\ NoDup (tile_filenames tiles (export_by "index" "")).
Proof.
  apply (exported_names_are_distinct tiny_sheet (settings_2 false)
           {| width := 4; height := 4; hasAlpha := true |}
           (export_by "index" "") 2 [] wf_tiny_sheet);
    by vm_compute.
Defined.
